(** * pymatgen.symmetry.finder: a shallow embedding of [SymmetryFinder]

    The development follows [pymatgen/symmetry/finder.py].  Python values are
    modelled as the code has them: [str] as [string], Python integers as [Z],
    numpy floats as real numbers, lists as [list], exceptions as an error
    result.  The spglib extension module ([spg.*]) and the classes imported
    from other pymatgen modules are collaborators of the file: they appear as
    the classes [Spglib] and [Core], or as small models that say so in
    their comment. *)

From Stdlib Require Import ZArith List String Ascii Bool Lia.
From Stdlib Require Import Reals Lra Permutation Sorted FinFun.
From Stdlib Require Import DecimalString DecimalNat.
Import ListNotations.

Open Scope string_scope.
Open Scope list_scope.
Open Scope Z_scope.

(** ** Fragments of the Python runtime the file relies on *)

Module Py.

(** The exceptions the embedded code can raise. *)
Inductive exn : Type :=
| IndexError
| ValueError
| TypeError
| AttributeError
| LinAlgError
| ZeroDivisionError
| StructureError
| UnboundLocalError (name : string)
| InvalidStructureError.

Inductive result (A : Type) : Type :=
| Ok (a : A)
| Raise (e : exn).
Arguments Ok {A} a.
Arguments Raise {A} e.

Definition bind {A B} (r : result A) (k : A -> result B) : result B :=
  match r with
  | Ok a => k a
  | Raise e => Raise e
  end.

(** [l[j]] for a Python integer [j]: negative indices count from the end. *)
Definition index {A} (l : list A) (j : Z) : result A :=
  let len := Z.of_nat (List.length l) in
  let k := if j <? 0 then j + len else j in
  if (0 <=? k) && (k <? len)
  then match nth_error l (Z.to_nat k) with
       | Some a => Ok a
       | None => Raise IndexError
       end
  else Raise IndexError.

(** [l[:k]]: a negative [k] counts from the end, a large one is clipped. *)
Definition slice_to {A} (l : list A) (k : Z) : list A :=
  let len := Z.of_nat (List.length l) in
  let k' := if k <? 0 then Z.max 0 (k + len) else k in
  firstn (Z.to_nat k') l.

(** [l.index(x)]: position of the first element equal to [x]. *)
Fixpoint list_index {A} (eqb : A -> A -> bool) (x : A) (l : list A)
  : result Z :=
  match l with
  | [] => Raise ValueError
  | y :: l' =>
      if eqb y x then Ok 0
      else bind (list_index eqb x l') (fun i => Ok (i + 1))
  end.

(** [x in l] for a list of integers. *)
Definition mem_Z (x : Z) (l : list Z) : bool := existsb (Z.eqb x) l.

(** [string.whitespace] of a byte string. *)
Definition isspace (c : ascii) : bool :=
  let n := nat_of_ascii c in
  (Nat.eqb n 32 || Nat.eqb n 9 || Nat.eqb n 10
   || Nat.eqb n 11 || Nat.eqb n 12 || Nat.eqb n 13)%bool.

(** [s.split()]: the maximal runs of non-whitespace characters. *)
Fixpoint split_from (cur : option string) (s : string) : list string :=
  match s with
  | EmptyString =>
      match cur with Some w => [w] | None => [] end
  | String c s' =>
      if isspace c
      then match cur with
           | Some w => w :: split_from None s'
           | None => split_from None s'
           end
      else split_from
             (Some (String.append
                      (match cur with Some w => w | None => EmptyString end)
                      (String c EmptyString))) s'
  end.
Definition split (s : string) : list string := split_from None s.

Definition isdigit (c : ascii) : bool :=
  let n := nat_of_ascii c in (Nat.leb 48 n && Nat.leb n 57)%bool.

(** [re.sub] of the pattern [\D] by the empty string: every non-digit is
    deleted. *)
Fixpoint sub_nondigits (s : string) : string :=
  match s with
  | EmptyString => EmptyString
  | String c s' =>
      if isdigit c then String c (sub_nondigits s') else sub_nondigits s'
  end.

Fixpoint int_digits (acc : Z) (s : string) : Z :=
  match s with
  | EmptyString => acc
  | String c s' =>
      int_digits (10 * acc + Z.of_nat (nat_of_ascii c - 48)) s'
  end.

(** [int(s)] on a string of decimal digits; [int] of the empty string is
    a ValueError. *)
Definition int (s : string) : result Z :=
  match s with
  | EmptyString => Raise ValueError
  | _ => Ok (int_digits 0 s)
  end.

(** [c in s] for a one-character string [c]. *)
Fixpoint contains (c : ascii) (s : string) : bool :=
  match s with
  | EmptyString => false
  | String d s' => (Ascii.eqb c d || contains c s')%bool
  end.

(** [s.startswith(c)] for a one-character string [c]. *)
Definition startswith (c : ascii) (s : string) : bool :=
  match s with
  | EmptyString => false
  | String d _ => Ascii.eqb c d
  end.

(** [itertools.groupby(l, key)]: the consecutive runs of equal keys. *)
Section GroupBy.
Context {A K : Type} (eqb : K -> K -> bool) (key : A -> K).

Fixpoint groupby_run (k : K) (run : list A) (l : list A)
  : list (K * list A) :=
  match l with
  | [] => [(k, rev run)]
  | x :: l' =>
      if eqb (key x) k then groupby_run k (x :: run) l'
      else (k, rev run) :: groupby_run (key x) [x] l'
  end.

Definition groupby (l : list A) : list (K * list A) :=
  match l with
  | [] => []
  | x :: l' => groupby_run (key x) [x] l'
  end.
End GroupBy.

End Py.

Import Py.

Notation "x <- r ;; k" := (Py.bind r (fun x => k))
  (at level 61, r at next level, right associativity).

(** ** Space-group number tables of [get_crystal_system] and
       [get_lattice_type]

    These two methods read nothing of the session but the string spglib
    returned at construction, so they are stated on that string. *)

(** [self._spacegroup_data.split()[0]] *)
Definition symbol_of_data (data : string) : result string :=
  Py.index (Py.split data) 0.

(** [int] of the last token of [self._spacegroup_data], its non-digits
    deleted by [re.sub]. *)
Definition number_of_data (data : string) : result Z :=
  sgnum <- Py.index (Py.split data) (-1) ;;
  Py.int (Py.sub_nondigits sgnum).

(** The dictionary [cs], in the order of the source text. *)
Definition cs : list (string * (Z * Z)) :=
  [ ("triclinic", (1, 2)); ("monoclinic", (3, 15));
    ("orthorhombic", (16, 74)); ("tetragonal", (75, 142));
    ("trigonal", (143, 167)); ("hexagonal", (168, 194));
    ("cubic", (195, 230)) ].

(** The loop [for k, v in cs.items(): if f( *v ): crystal_sytem = k; break]. *)
Fixpoint first_match (n : Z) (items : list (string * (Z * Z)))
  : option string :=
  match items with
  | [] => None
  | (k, (i, j)) :: rest =>
      if (i <=? n) && (n <=? j) then Some k else first_match n rest
  end.

Definition crystal_system_of_number (n : Z) : option string :=
  first_match n cs.

Definition rhombohedral_numbers : list Z :=
  [146; 148; 155; 160; 161; 166; 167].

Definition opt_string_eqb (a : option string) (b : string) : bool :=
  match a with
  | Some s => String.eqb s b
  | None => false
  end.

Definition lattice_type_of (n : Z) (system : option string) : option string :=
  if Py.mem_Z n rhombohedral_numbers then Some "rhombohedral"
  else if opt_string_eqb system "trigonal" then Some "hexagonal"
  else system.

(** ** Vectors, matrices and lattices

    numpy floats are read as real numbers.  A 3-vector is a triple and a
    3x3 array is a triple of rows. *)

Open Scope R_scope.

Definition vec : Type := R * R * R.
Definition matrix : Type := vec * vec * vec.

Definition vzero : vec := (0, 0, 0).
Definition eye : matrix := ((1, 0, 0), (0, 1, 0), (0, 0, 1)).

(** [v[i]] and [m[i]] for [i] in [range(3)]. *)
Definition coord (v : vec) (i : nat) : R :=
  let '(x, y, z) := v in
  match i with O => x | S O => y | _ => z end.

Definition row (m : matrix) (i : nat) : vec :=
  let '(r0, r1, r2) := m in
  match i with O => r0 | S O => r1 | _ => r2 end.

Definition dot (u v : vec) : R :=
  let '(a, b, c) := u in
  let '(x, y, z) := v in
  a * x + b * y + c * z.

Definition vscale (k : R) (v : vec) : vec :=
  let '(x, y, z) := v in (k * x, k * y, k * z).

Definition column (m : matrix) (i : nat) : vec :=
  (coord (row m 0) i, coord (row m 1) i, coord (row m 2) i).

Definition transpose (m : matrix) : matrix :=
  (column m 0, column m 1, column m 2).

(** [np.dot(m, v)] for a matrix and a vector. *)
Definition mat_vec (m : matrix) (v : vec) : vec :=
  (dot (row m 0) v, dot (row m 1) v, dot (row m 2) v).

(** [np.dot(v, m)] for a vector and a matrix. *)
Definition vec_mat (v : vec) (m : matrix) : vec :=
  (dot v (column m 0), dot v (column m 1), dot v (column m 2)).

(** [np.dot(a, b)] for two matrices. *)
Definition mat_mul (a b : matrix) : matrix :=
  (vec_mat (row a 0) b, vec_mat (row a 1) b, vec_mat (row a 2) b).

(** [m / 2] for an array. *)
Definition mat_half (m : matrix) : matrix :=
  let '(r0, r1, r2) := m in
  (vscale (/ 2) r0, vscale (/ 2) r1, vscale (/ 2) r2).

Definition det (m : matrix) : R :=
  let '((a, b, c), (d, e, f), (g, h, i)) := m in
  a * (e * i - f * h) - b * (d * i - f * g) + c * (d * h - e * g).

(** [np.linalg.inv(m)], floats read as real numbers: the elimination
    meets a zero pivot, and [LinAlgError] is raised, exactly when the
    determinant is zero; otherwise the inverse is the adjugate over the
    determinant.  In floating point, rounding can leave a small pivot where
    the exact one is zero; a matrix with a row or a column of zeros has a
    zero pivot in both readings, and what is proved of the error is proved
    for such matrices only. *)
Definition linalg_inv (m : matrix) : result matrix :=
  let '((a, b, c), (d, e, f), (g, h, i)) := m in
  if Req_EM_T (det m) 0 then Raise LinAlgError
  else
    let k := / det m in
    Ok ((k * (e * i - f * h), k * (c * h - b * i), k * (b * f - c * e)),
        (k * (f * g - d * i), k * (a * i - c * g), k * (c * d - a * f)),
        (k * (d * h - e * g), k * (b * g - a * h), k * (a * e - b * d))).

(** Python's [sorted]: a stable sort; an element is placed before the
    elements that are not smaller and followed it in the input. *)
Fixpoint insert_sorted {A} (ltb : A -> A -> bool) (x : A) (l : list A)
  : list A :=
  match l with
  | [] => [x]
  | y :: l' =>
      if ltb y x then y :: insert_sorted ltb x l' else x :: y :: l'
  end.

Definition sorted {A} (ltb : A -> A -> bool) (l : list A) : list A :=
  fold_right (insert_sorted ltb) [] l.

Definition Rltb (x y : R) : bool := if Rlt_dec x y then true else false.

(** [sorted(l, key=key)] for a float key. *)
Definition sorted_by {A} (key : A -> R) (l : list A) : list A :=
  sorted (fun a b => Rltb (key a) (key b)) l.

Definition vec_eq_dec (u v : vec) : {u = v} + {u <> v}.
Proof. repeat decide equality; apply Req_EM_T. Defined.

Definition matrix_eq_dec (a b : matrix) : {a = b} + {a <> b}.
Proof. repeat decide equality; apply Req_EM_T. Defined.

Definition matrix_eqb (a b : matrix) : bool :=
  if matrix_eq_dec a b then true else false.

(** Model of [pymatgen.core.lattice.Lattice]: the row norms [abc] and the
    angles in degrees, [alpha] between rows 1 and 2, [beta] between rows 2
    and 0, [gamma] between rows 0 and 1. *)
Module Lattice.

Definition norm (v : vec) : R := sqrt (dot v v).

Definition abc (m : matrix) : list R :=
  [norm (row m 0); norm (row m 1); norm (row m 2)].

(** The angle between two rows, in radians. *)
Definition angle_rad (u v : vec) : R :=
  acos (dot u v / (norm u * norm v)).

Definition degrees (x : R) : R := x * 180 / PI.

Definition angles (m : matrix) : list R :=
  [degrees (angle_rad (row m 1) (row m 2));
   degrees (angle_rad (row m 2) (row m 0));
   degrees (angle_rad (row m 0) (row m 1))].

Definition lengths_and_angles (m : matrix) : list R * list R :=
  (abc m, angles m).

End Lattice.

(** [l[i]] on a list of floats whose length is fixed by construction (the
    three lengths, the three angles): the default is never reached. *)
Definition at3 (l : list R) (i : nat) : R := nth i l 0.

(** ** Structures and sites

    Model of the classes [Structure] and [PeriodicSite] of
    [pymatgen.core.structure], as far as the file uses them. *)

(** What a site carries besides its position: a species-and-occupancy
    value, compared with [==], and a property dictionary. *)
Class Chemistry : Type := {
  Species : Type;
  species_eqb : Species -> Species -> bool;
  species_eqb_eq : forall a b, species_eqb a b = true <-> a = b;
  Props : Type;
  no_properties : Props
}.

Record PeriodicSite {Ch : Chemistry} : Type := mkSite {
  species_and_occu : Species;
  frac_coords : vec;
  site_lattice : matrix;
  properties : Props
}.
Arguments mkSite {_} _ _ _ _.

Record Structure {Ch : Chemistry} : Type := mkStructure {
  lattice : matrix;
  sites : list PeriodicSite
}.
Arguments mkStructure {_} _ _.

(** A symmetry operation: a rotation and a translation. *)
Definition SymmOp : Type := matrix * vec.

Definition zmatrix : Type := (Z * Z * Z) * (Z * Z * Z) * (Z * Z * Z).

Definition matrix_of_zmatrix (m : zmatrix) : matrix :=
  let '((a, b, c), (d, e, f), (g, h, i)) := m in
  ((IZR a, IZR b, IZR c), (IZR d, IZR e, IZR f), (IZR g, IZR h, IZR i)).

Record Spacegroup : Type := mkSpacegroup {
  int_symbol : string;
  int_number : Z;
  symmops : list SymmOp
}.

(** The operations of the pymatgen core classes that are not in this file. *)
Class Core {Ch : Chemistry} : Type := {
  (** [Lattice.get_fractional_coords(cart)] *)
  get_fractional_coords : matrix -> vec -> vec;
  (** [site.is_periodic_image(other)] *)
  is_periodic_image : PeriodicSite -> PeriodicSite -> bool;
  (** the order [sorted] uses on sites ([Site.__lt__]) *)
  site_ltb : PeriodicSite -> PeriodicSite -> bool;
  (** [SupercellMaker(struct, scaling).modified_structure] *)
  supercell : Structure -> zmatrix -> Structure;
  (** [struct.get_reduced_structure("LLL")] *)
  get_reduced_structure_LLL : Structure -> Structure
}.

(** The spglib extension module.  A function that fills buffers of its
    caller is given the buffers and returns them as it leaves them, with its
    count; a numpy buffer keeps the shape it was allocated with. *)
Class Spglib : Type := {
  spg_spacegroup :
    matrix -> list vec -> list Z -> R -> R -> result string;
  spg_symmetry :
    list zmatrix -> list vec -> matrix -> list vec -> list Z -> R -> R ->
    list zmatrix * list vec * Z;
  spg_refine_cell :
    matrix -> list vec -> list Z -> Z -> R -> R ->
    matrix * list vec * list Z * Z;
  spg_primitive :
    matrix -> list vec -> list Z -> R -> R ->
    matrix * list vec * list Z * Z;
  spg_ir_kpoints :
    list Z -> list vec -> matrix -> list vec -> list Z -> Z -> R -> list Z;
  spg_symmetry_shape : forall rot tr l p n sp ang,
    let '(rot', tr', _) := spg_symmetry rot tr l p n sp ang in
    List.length rot' = List.length rot /\ List.length tr' = List.length tr;
  spg_refine_cell_shape : forall l p n k sp ang,
    let '(_, p', n', _) := spg_refine_cell l p n k sp ang in
    List.length p' = List.length p /\ List.length n' = List.length n;
  spg_primitive_shape : forall l p n sp ang,
    let '(_, p', n', _) := spg_primitive l p n sp ang in
    List.length p' = List.length p /\ List.length n' = List.length n;
  spg_ir_kpoints_shape : forall m k l p n t sp,
    List.length (spg_ir_kpoints m k l p n t sp) = List.length m
}.

Section Sites.
Context {Ch : Chemistry} {Co : Core}.

(** [site.coords]: the Cartesian coordinates. *)
Definition coords (s : PeriodicSite) : vec :=
  vec_mat (frac_coords s) (site_lattice s).

(** [x - math.floor(x)] *)
Definition unit_cell (v : vec) : vec :=
  let '(x, y, z) := v in (frac_part x, frac_part y, frac_part z).

(** [PeriodicSite(specie, coords, lattice, to_unit_cell,
    coords_are_cartesian, properties)] *)
Definition PeriodicSite_new (sp : Species) (c : vec) (latt : matrix)
    (to_unit_cell coords_are_cartesian : bool) (props : Props)
  : PeriodicSite :=
  let f := if coords_are_cartesian then get_fractional_coords latt c
           else c in
  let f := if to_unit_cell then unit_cell f else f in
  mkSite sp f latt props.

(** [Lattice(m)]: nine numbers are needed; [Lattice(None)] finds one
    value where it reshapes to 3x3 and raises [ValueError]. *)
Definition Lattice_new (m : option matrix) : result matrix :=
  match m with
  | Some m => Ok m
  | None => Raise ValueError
  end.

(** [Structure(lattice, species, coords)] *)
Definition Structure_new (latt : matrix) (species : list Species)
    (cs : list vec) : result Structure :=
  if Nat.eqb (List.length species) (List.length cs)
  then Ok (mkStructure latt
             (map (fun '(sp, c) => mkSite sp c latt no_properties)
                  (combine species cs)))
  else Raise StructureError.

(** [Structure.from_sites(sites)]: the lattice is the one of the first
    site, every site must have it; without a site there is no lattice to
    build the structure on. *)
Definition from_sites (l : list PeriodicSite) : result Structure :=
  match l with
  | [] => Raise ValueError
  | s0 :: _ =>
      if forallb (fun s => matrix_eqb (site_lattice s) (site_lattice s0)) l
      then Ok (mkStructure (site_lattice s0) l)
      else Raise ValueError
  end.

(** [struct.get_sorted_structure()]: [from_sites(sorted(struct))] *)
Definition get_sorted_structure (s : Structure) : result Structure :=
  from_sites (sorted site_ltb (sites s)).

End Sites.

(** ** The class [SymmetryFinder] *)

Fixpoint mapM {A B} (f : A -> result B) (l : list A) : result (list B) :=
  match l with
  | [] => Ok []
  | a :: l' => b <- f a ;; bs <- mapM f l' ;; Ok (b :: bs)
  end.

Record SymmetryFinder {Ch : Chemistry} : Type := mkFinder {
  _symprec : R;
  _angle_tol : R;
  _structure : Structure;
  _transposed_latt : matrix;
  _positions : list vec;
  _unique_species : list Species;
  _numbers : list Z;
  _spacegroup_data : string
}.
Arguments mkFinder {_} _ _ _ _ _ _ _ _.

Section Finder.
Context {Ch : Chemistry} {Co : Core} {Sp : Spglib}.

(** The body of the loop over [itertools.groupby(structure, ...)] in
    [__init__]: [species] is looked up in [unique_species]; when
    [list.index] raises [ValueError] it is appended. *)
Definition add_group (st : list Species * list Z)
    (grp : Species * list PeriodicSite) : list Species * list Z :=
  let '(unique_species, zs) := st in
  let '(species, g) := grp in
  match Py.list_index species_eqb species unique_species with
  | Ok ind =>
      (unique_species, zs ++ repeat (ind + 1)%Z (List.length g))
  | Raise _ =>
      let unique_species := unique_species ++ [species] in
      (unique_species,
       zs ++ repeat (Z.of_nat (List.length unique_species)) (List.length g))
  end.

(** [SymmetryFinder.__init__] *)
Definition init (structure : Structure) (symprec angle_tolerance : R)
  : result SymmetryFinder :=
  let transposed_latt := transpose (lattice structure) in
  let positions := map frac_coords (sites structure) in
  let '(unique_species, zs) :=
    fold_left add_group
      (Py.groupby species_eqb species_and_occu (sites structure))
      ([], []) in
  data <- spg_spacegroup transposed_latt positions zs symprec
            angle_tolerance ;;
  Ok (mkFinder symprec angle_tolerance structure transposed_latt positions
        unique_species zs data).

Definition get_spacegroup_symbol (self : SymmetryFinder) : result string :=
  symbol_of_data (_spacegroup_data self).

Definition get_spacegroup_number (self : SymmetryFinder) : result Z :=
  number_of_data (_spacegroup_data self).

Definition get_crystal_system (self : SymmetryFinder)
  : result (option string) :=
  n <- get_spacegroup_number self ;;
  Ok (crystal_system_of_number n).

Definition get_lattice_type (self : SymmetryFinder)
  : result (option string) :=
  n <- get_spacegroup_number self ;;
  system <- get_crystal_system self ;;
  Ok (lattice_type_of n system).

Definition num_sites (s : Structure) : nat := List.length (sites s).

Definition zmatrix_zero : zmatrix :=
  ((0, 0, 0), (0, 0, 0), (0, 0, 0))%Z.

(** [_get_symmetry]: buffers for [48 * num_sites] operations. *)
Definition _get_symmetry (self : SymmetryFinder)
  : list zmatrix * list vec :=
  let multi := (48 * num_sites (_structure self))%nat in
  let rotation := repeat zmatrix_zero multi in
  let translation := repeat vzero multi in
  let '(rotation, translation, num_sym) :=
    spg_symmetry rotation translation (_transposed_latt self)
      (_positions self) (_numbers self) (_symprec self) (_angle_tol self)
  in
  (Py.slice_to rotation num_sym, Py.slice_to translation num_sym).

Definition get_symmetry_operations (self : SymmetryFinder)
    (cartesian : bool) : result (list SymmOp) :=
  let '(rotation, translation) := _get_symmetry self in
  let mat := transpose (lattice (_structure self)) in
  invmat <- linalg_inv mat ;;
  Ok (map (fun '(rot, trans) =>
             if cartesian
             then (mat_mul mat (mat_mul (matrix_of_zmatrix rot) invmat),
                   vec_mat trans (lattice (_structure self)))
             else (matrix_of_zmatrix rot, trans))
          (combine rotation translation)).

Definition get_spacegroup (self : SymmetryFinder) : result Spacegroup :=
  symbol <- get_spacegroup_symbol self ;;
  number <- get_spacegroup_number self ;;
  ops <- get_symmetry_operations self false ;;
  Ok (mkSpacegroup symbol number ops).

(** [[self._unique_species[i - 1] for i in zs]] *)
Definition species_of (self : SymmetryFinder) (zs : list Z)
  : result (list Species) :=
  mapM (fun i => Py.index (_unique_species self) (i - 1)%Z) zs.

Definition get_refined_structure (self : SymmetryFinder)
  : result Structure :=
  let num_atom := num_sites (_structure self) in
  let pos := _positions self ++ repeat vzero (3 * num_atom) in
  let numbers := _numbers self ++ repeat 0%Z (3 * num_atom) in
  let '(lattice, pos, numbers, num_atom_bravais) :=
    spg_refine_cell (_transposed_latt self) pos numbers
      (Z.of_nat num_atom) (_symprec self) (_angle_tol self) in
  let zs := Py.slice_to numbers num_atom_bravais in
  species <- species_of self zs ;;
  s <- Structure_new (transpose lattice) species
         (Py.slice_to pos num_atom_bravais) ;;
  get_sorted_structure s.

Definition find_primitive (self : SymmetryFinder) : result Structure :=
  let '(lattice, positions, numbers, num_atom_prim) :=
    spg_primitive (_transposed_latt self) (_positions self)
      (_numbers self) (_symprec self) (_angle_tol self) in
  let zs := Py.slice_to numbers num_atom_prim in
  species <- species_of self zs ;;
  if (num_atom_prim >? 0)%Z
  then Structure_new (transpose lattice) species
         (Py.slice_to positions num_atom_prim)
  else Ok (_structure self).

Definition get_ir_kpoints_mapping (self : SymmetryFinder)
    (kpoints : list vec) (is_time_reversal : bool) : list Z :=
  let mapping := repeat 0%Z (List.length kpoints) in
  spg_ir_kpoints mapping kpoints (_transposed_latt self) (_positions self)
    (_numbers self) (if is_time_reversal then 1 else 0)%Z (_symprec self).

(** The loop of [get_ir_kpoints] from index [i] on, with the lists
    [irr_kpts] and [n] as they stand. *)
Fixpoint ir_loop (mapping : list Z) (i : Z) (kpoints : list vec)
    (irr_kpts : list vec) (n : list Z) : result (list vec) :=
  match kpoints with
  | [] => Ok irr_kpts
  | kpts :: rest =>
      m <- Py.index mapping i ;;
      if negb (Py.mem_Z m n)
      then ir_loop mapping (i + 1)%Z rest (irr_kpts ++ [kpts]) (n ++ [i])
      else ir_loop mapping (i + 1)%Z rest irr_kpts n
  end.

Definition get_ir_kpoints (self : SymmetryFinder) (kpoints : list vec)
    (is_time_reversal : bool) : result (list vec) :=
  let mapping := get_ir_kpoints_mapping self kpoints is_time_reversal in
  ir_loop mapping 0%Z kpoints [] [].

End Finder.

(** ** Standard cells *)

(** An entry of [sorted_dic]. *)
Record axis : Type := mkAxis {
  axis_vec : vec;
  axis_length : R;
  orig_index : nat
}.

Definition axis_of (m : matrix) (i : nat) : axis :=
  mkAxis (row m i) (at3 (Lattice.abc m) i) i.

Definition axis_default : axis := mkAxis vzero 0 O.

Definition zeros33 : matrix := (vzero, vzero, vzero).

Definition set_coord (v : vec) (j : nat) (x : R) : vec :=
  let '(a, b, c) := v in
  match j with O => (x, b, c) | S O => (a, x, c) | _ => (a, b, x) end.

Definition set_row (m : matrix) (i : nat) (v : vec) : matrix :=
  let '(r0, r1, r2) := m in
  match i with O => (v, r1, r2) | S O => (r0, v, r2) | _ => (r0, r1, v) end.

(** [m[i][j] = x] *)
Definition set_entry (m : matrix) (i j : nat) (x : R) : matrix :=
  set_row m i (set_coord (row m i) j x).

(** [for c in range(len(sorted_dic)): transf[c][sorted_dic[c]['orig_index']] = 1] *)
Definition mark_axes (transf : matrix) (sorted_dic : list axis) (count : nat)
  : matrix :=
  fold_left
    (fun m c => set_entry m c (orig_index (nth c sorted_dic axis_default)) 1)
    (seq 0 count) transf.

Definition diag (a b c : R) : matrix := ((a, 0, 0), (0, b, 0), (0, 0, c)).

(** The module constant [tol]. *)
Definition tol : R := 1 / 100000.

(** [[[a, 0, 0], [0, b, 0], [0, c * cos(alpha), c * sin(alpha)]]] *)
Definition monoclinic_matrix (a b c alpha : R) : matrix :=
  ((a, 0, 0), (0, b, 0), (0, c * cos alpha, c * sin alpha)).

(** The triclinic [new_matrix]; Python's float division raises on a zero
    divisor and [math.sqrt] on a negative argument. *)
Definition triclinic_matrix (a b c alpha beta gamma : R) : result matrix :=
  if Req_EM_T (sin gamma) 0 then Raise ZeroDivisionError
  else
    let d := sin gamma ^ 2 - cos alpha ^ 2 - cos beta ^ 2
             + 2 * cos alpha * cos beta * cos gamma in
    if Rlt_dec d 0 then Raise ValueError
    else Ok ((a, 0, 0),
             (b * cos gamma, b * sin gamma, 0),
             (c * cos beta,
              c * (cos alpha - cos beta * cos gamma) / sin gamma,
              c * sqrt d / sin gamma)).

(** The local variables the monoclinic branch assigns in its loop; each may
    be unbound, and [new_matrix] may be bound to [None]. *)
Record mono_locals : Type := mkLocals {
  l_trans : option matrix;
  l_a : option R;
  l_b : option R;
  l_c : option R;
  l_alpha : option R;
  l_new_matrix : option matrix
}.

(** Reading a local variable that no assignment has reached. *)
Definition read_local {A} (name : string) (v : option A) : result A :=
  match v with
  | Some a => Ok a
  | None => Raise (UnboundLocalError name)
  end.

(** What both arms of the loop body assign once [landang] and the signs of
    the first two rows of [trans] are known. *)
Definition assign_candidate (sign : R) (t0 t1 t2 : nat)
    (landang : list R * list R) : mono_locals :=
  let trans := set_entry (set_entry (set_entry zeros33 0 t0 sign) 1 t1 sign)
                 2 t2 1 in
  let a := at3 (fst landang) 0 in
  let b := at3 (fst landang) 1 in
  let c := at3 (fst landang) 2 in
  let alpha := PI * at3 (snd landang) 0 / 180 in
  mkLocals (Some trans) (Some a) (Some b) (Some c) (Some alpha)
    (Some (monoclinic_matrix a b c alpha)).

(** Loop body of the C-centred search, [t] in [permutations(range(2), 2)]. *)
Definition mono_step_C (m : matrix) (st : mono_locals) (t : nat * nat)
  : mono_locals :=
  let '(t0, t1) := t in
  let landang :=
    Lattice.lengths_and_angles (row m t0, row m t1, row m 2) in
  if Rltb 90 (at3 (snd landang) 0) then
    assign_candidate (-1) t0 t1 2
      (Lattice.lengths_and_angles
         (vscale (-1) (row m t0), vscale (-1) (row m t1), row m 2))
  else if Rltb (at3 (snd landang) 0) 90 then
    assign_candidate 1 t0 t1 2
      (Lattice.lengths_and_angles (row m t0, row m t1, row m 2))
  else st.

(** Loop body of the general search, [t] in [permutations(range(3), 3)]. *)
Definition mono_step (m : matrix) (st : mono_locals) (t : nat * nat * nat)
  : mono_locals :=
  let '(t0, t1, t2) := t in
  let landang :=
    Lattice.lengths_and_angles (row m t0, row m t1, row m t2) in
  if Rltb 90 (at3 (snd landang) 0)
     && Rltb (at3 (fst landang) 1) (at3 (fst landang) 2) then
    assign_candidate (-1) t0 t1 t2
      (Lattice.lengths_and_angles
         (vscale (-1) (row m t0), vscale (-1) (row m t1), row m t2))
  else if Rltb (at3 (snd landang) 0) 90
          && Rltb (at3 (fst landang) 1) (at3 (fst landang) 2) then
    assign_candidate 1 t0 t1 t2
      (Lattice.lengths_and_angles (row m t0, row m t1, row m t2))
  else st.

(** [itertools.permutations(range(2), 2)] and
    [itertools.permutations(range(3), 3)] *)
Definition permutations2 : list (nat * nat) := [(0, 1); (1, 0)]%nat.
Definition permutations3 : list (nat * nat * nat) :=
  [(0, 1, 2); (0, 2, 1); (1, 0, 2); (1, 2, 0); (2, 0, 1); (2, 1, 0)]%nat.

Section StandardCells.
Context {Ch : Chemistry} {Co : Core} {Sp : Spglib}.

(** The loops that fill [new_sites] in [get_conventional_standard_structure]:
    one [PeriodicSite] per site of [struct], in order.  The arguments of
    the constructor are evaluated for every site: the position first,
    then [Lattice(new_matrix)]. *)
Definition place_sites (struct_sites : list PeriodicSite)
    (position : PeriodicSite -> result vec) (new_matrix : option matrix)
    (to_unit_cell coords_are_cartesian : bool)
  : result (list PeriodicSite) :=
  mapM (fun s =>
          c <- position s ;;
          latt <- Lattice_new new_matrix ;;
          Ok (PeriodicSite_new (species_and_occu s) c latt to_unit_cell
                coords_are_cartesian (properties s)))
       struct_sites.

Definition axes3 (m : matrix) : list axis :=
  [axis_of m 0; axis_of m 1; axis_of m 2].
Definition axes2 (m : matrix) : list axis :=
  [axis_of m 0; axis_of m 1].

(** [lattice == "orthorhombic" or lattice == "cubic"] *)
Definition conventional_orthorhombic (self : SymmetryFinder)
    (struct : Structure) : result Structure :=
  let m := lattice struct in
  let abc := Lattice.abc m in
  symbol <- get_spacegroup_symbol self ;;
  let '(transf, new_matrix) :=
    if Py.startswith "C"%char symbol then
      let transf := set_row zeros33 2 (0, 0, 1) in
      let sorted_lengths := sorted_by (fun x => x) (firstn 2 abc) in
      let sorted_dic := sorted_by axis_length (axes2 m) in
      (mark_axes transf sorted_dic 2,
       diag (at3 sorted_lengths 0) (at3 sorted_lengths 1) (at3 abc 2))
    else
      let sorted_lengths := sorted_by (fun x => x) abc in
      let sorted_dic := sorted_by axis_length (axes3 m) in
      (mark_axes zeros33 sorted_dic (List.length sorted_dic),
       diag (at3 sorted_lengths 0) (at3 sorted_lengths 1)
         (at3 sorted_lengths 2)) in
  new_sites <- place_sites (sites struct)
                 (fun s => Ok (mat_vec transf (frac_coords s)))
                 (Some new_matrix) true false ;;
  from_sites new_sites.

(** [lattice == "tetragonal"] *)
Definition conventional_tetragonal (struct : Structure)
  : result Structure :=
  let m := lattice struct in
  let sorted_lengths := sorted_by (fun x => x) (Lattice.abc m) in
  let sorted_dic := sorted_by axis_length (axes3 m) in
  let transf := mark_axes zeros33 sorted_dic (List.length sorted_dic) in
  let '(a, c, transf) :=
    if Rltb (Rabs (at3 sorted_lengths 1 - at3 sorted_lengths 2)) tol
    then (at3 sorted_lengths 2, at3 sorted_lengths 0,
          mat_mul ((0, 0, 1), (0, 1, 0), (1, 0, 0)) transf)
    else (at3 sorted_lengths 0, at3 sorted_lengths 2, transf) in
  let new_matrix := diag a a c in
  new_sites <- place_sites (sites struct)
                 (fun s => Ok (mat_vec transf (frac_coords s)))
                 (Some new_matrix) true false ;;
  from_sites new_sites.

(** [lattice == "hexagonal" or lattice == "rhombohedral"] *)
Definition conventional_hexagonal (struct : Structure)
  : result Structure :=
  let abc := Lattice.abc (lattice struct) in
  let sorted_lengths := sorted_by (fun x => x) abc in
  let '(struct, sorted_lengths) :=
    if Rltb (Rabs (at3 abc 0 - at3 abc 1)) (1 / 1000)
       && Rltb (Rabs (at3 abc 2 - at3 abc 1)) (1 / 1000)
       && Rltb (Rabs (at3 abc 0 - at3 abc 2)) (1 / 1000)
    then
      let struct :=
        supercell struct ((1, -1, 0), (0, 1, -1), (1, 1, 1))%Z in
      (struct, sorted_by (fun x => x) (Lattice.abc (lattice struct)))
    else (struct, sorted_lengths) in
  let '(a, c) :=
    if Rltb (Rabs (at3 sorted_lengths 1 - at3 sorted_lengths 2)) (1 / 1000)
    then (at3 sorted_lengths 2, at3 sorted_lengths 0)
    else (at3 sorted_lengths 0, at3 sorted_lengths 2) in
  let new_matrix :=
    ((a / 2, - a * sqrt 3 / 2, 0), (a / 2, a * sqrt 3 / 2, 0), (0, 0, c)) in
  new_sites <- place_sites (sites struct) (fun s => Ok (coords s))
                 (Some new_matrix) true true ;;
  from_sites new_sites.

(** The C-centred arm of the monoclinic branch, up to the site loop:
    the local variables as the search and the two fallback tests leave
    them. *)
Definition monoclinic_C_locals (m : matrix) : result mono_locals :=
  let trans := set_row zeros33 2 (0, 0, 1) in
  let sorted_dic := sorted_by axis_length (axes2 m) in
  let a := axis_length (nth 0 sorted_dic axis_default) in
  let b := axis_length (nth 1 sorted_dic axis_default) in
  let c := at3 (Lattice.abc m) 2 in
  let st := fold_left (mono_step_C m) permutations2
              (mkLocals (Some trans) (Some a) (Some b) (Some c) None None)
  in
  st <- match l_new_matrix st with
        | None =>
            a <- read_local "a" (l_a st) ;;
            b <- read_local "b" (l_b st) ;;
            c <- read_local "c" (l_c st) ;;
            alpha <- read_local "alpha" (l_alpha st) ;;
            Ok (mkLocals (l_trans st) (l_a st) (l_b st) (l_c st)
                  (l_alpha st) (Some (monoclinic_matrix a b c alpha)))
        | Some _ => Ok st
        end ;;
  match l_new_matrix st with
  | None =>
      a <- read_local "a" (l_a st) ;;
      b <- read_local "b" (l_b st) ;;
      c <- read_local "c" (l_c st) ;;
      Ok (mkLocals
            (Some (mark_axes zeros33 sorted_dic (List.length sorted_dic)))
            (l_a st) (l_b st) (l_c st) (l_alpha st) (Some (diag a b c)))
  | Some _ => Ok st
  end.

(** The other arm: [new_matrix] stays [None] when the search assigns
    nothing; only [trans] is given a value then. *)
Definition monoclinic_locals (m : matrix) (sorted_dic : list axis)
  : mono_locals :=
  let st := fold_left (mono_step m) permutations3
              (mkLocals None None None None None None) in
  match l_new_matrix st with
  | None =>
      mkLocals
        (Some (mark_axes zeros33 sorted_dic (List.length sorted_dic)))
        (l_a st) (l_b st) (l_c st) (l_alpha st) None
  | Some _ => st
  end.

(** [lattice == "monoclinic"] *)
Definition conventional_monoclinic (self : SymmetryFinder)
    (struct : Structure) (sorted_dic : list axis) : result Structure :=
  let m := lattice struct in
  sg <- get_spacegroup self ;;
  st <- (if Py.startswith "C"%char (int_symbol sg)
         then monoclinic_C_locals m
         else Ok (monoclinic_locals m sorted_dic)) ;;
  new_sites <- place_sites (sites struct)
                 (fun s =>
                    trans <- read_local "trans" (l_trans st) ;;
                    Ok (mat_vec trans (frac_coords s)))
                 (l_new_matrix st) true false ;;
  from_sites new_sites.

(** [lattice == "triclinic"] *)
Definition conventional_triclinic (struct : Structure)
  : result Structure :=
  let struct := get_reduced_structure_LLL struct in
  let landang := Lattice.lengths_and_angles (lattice struct) in
  let a := at3 (fst landang) 0 in
  let b := at3 (fst landang) 1 in
  let c := at3 (fst landang) 2 in
  let alpha := PI * at3 (snd landang) 0 / 180 in
  let beta := PI * at3 (snd landang) 1 / 180 in
  let gamma := PI * at3 (snd landang) 2 / 180 in
  new_matrix <- triclinic_matrix a b c alpha beta gamma ;;
  new_sites <- place_sites (sites struct) (fun s => Ok (frac_coords s))
                 (Some new_matrix) false false ;;
  from_sites new_sites.

(** The chain of tests on [lattice]; [results] stays [None] when no
    test holds. *)
Definition conventional_results (self : SymmetryFinder)
    (struct : Structure) (lattice_type : option string)
  : result (option Structure) :=
  let sorted_dic := sorted_by axis_length (axes3 (lattice struct)) in
  if opt_string_eqb lattice_type "orthorhombic"
     || opt_string_eqb lattice_type "cubic"
  then r <- conventional_orthorhombic self struct ;; Ok (Some r)
  else if opt_string_eqb lattice_type "tetragonal"
  then r <- conventional_tetragonal struct ;; Ok (Some r)
  else if opt_string_eqb lattice_type "hexagonal"
          || opt_string_eqb lattice_type "rhombohedral"
  then r <- conventional_hexagonal struct ;; Ok (Some r)
  else if opt_string_eqb lattice_type "monoclinic"
  then r <- conventional_monoclinic self struct sorted_dic ;; Ok (Some r)
  else if opt_string_eqb lattice_type "triclinic"
  then r <- conventional_triclinic struct ;; Ok (Some r)
  else Ok None.

Definition get_conventional_standard_structure (self : SymmetryFinder)
  : result Structure :=
  struct <- get_refined_structure self ;;
  lattice_type <- get_lattice_type self ;;
  results <- conventional_results self struct lattice_type ;;
  match results with
  | Some r => get_sorted_structure r
  | None => Raise AttributeError
  end.

End StandardCells.

Section PrimitiveCell.
Context {Ch : Chemistry} {Co : Core} {Sp : Spglib}.

(** The centring transformations of [get_primitive_standard_structure]. *)
Definition transf_I : matrix :=
  mat_half ((-1, 1, 1), (1, -1, 1), (1, 1, -1)).
Definition transf_F : matrix :=
  mat_half ((0, 1, 1), (1, 0, 1), (1, 1, 0)).
Definition transf_C_monoclinic : matrix :=
  mat_half ((1, 1, 0), (-1, 1, 0), (0, 0, 2)).
Definition transf_C : matrix :=
  mat_half ((1, -1, 0), (1, 1, 0), (0, 0, 2)).

(** The inner loop: [new_s] is appended unless it is a periodic image of
    a site already in [new_sites]. *)
Definition add_unique (new_sites : list PeriodicSite)
    (new_s : PeriodicSite) : list PeriodicSite :=
  let unique :=
    fold_left (fun u t => if is_periodic_image new_s t then false else u)
      new_sites true in
  if unique then new_sites ++ [new_s] else new_sites.

(** The loops over [conv.sites]: a site is built by [make] and kept when
    it is unique. *)
Definition unique_sites (conv_sites : list PeriodicSite)
    (make : PeriodicSite -> result PeriodicSite)
  : result (list PeriodicSite) :=
  fold_left
    (fun acc s =>
       new_sites <- acc ;;
       new_s <- make s ;;
       Ok (add_unique new_sites new_s))
    conv_sites (Ok []).

(** The rhombohedral [new_matrix] built from [a] and [alpha]. *)
Definition rhombohedral_matrix (a alpha : R) : result matrix :=
  if Req_EM_T (cos (alpha / 2)) 0 then Raise ZeroDivisionError
  else
    let d := 1 - cos alpha ^ 2 / cos (alpha / 2) ^ 2 in
    if Rlt_dec d 0 then Raise ValueError
    else Ok ((a * cos (alpha / 2), - a * sin (alpha / 2), 0),
             (a * cos (alpha / 2), a * sin (alpha / 2), 0),
             (a * cos alpha / cos (alpha / 2), 0, a * sqrt d)).

(** The choice of [transf] by the centring letter found in the symbol. *)
Definition centring_transf (self : SymmetryFinder) (symbol : string)
  : result matrix :=
  if Py.contains "I"%char symbol then Ok transf_I
  else if Py.contains "F"%char symbol then Ok transf_F
  else if Py.contains "C"%char symbol then
    system <- get_crystal_system self ;;
    if opt_string_eqb system "monoclinic" then Ok transf_C_monoclinic
    else Ok transf_C
  else Ok eye.

Definition get_primitive_standard_structure (self : SymmetryFinder)
  : result Structure :=
  conv <- get_conventional_standard_structure self ;;
  lattice_type <- get_lattice_type self ;;
  symbol <- get_spacegroup_symbol self ;;
  if Py.contains "P"%char symbol || opt_string_eqb lattice_type "hexagonal"
  then Ok conv
  else if opt_string_eqb lattice_type "rhombohedral" then
    conv <- get_refined_structure self ;;
    let landang := Lattice.lengths_and_angles (lattice conv) in
    let a := at3 (fst landang) 0 in
    let alpha := PI * at3 (snd landang) 0 / 180 in
    new_matrix <- rhombohedral_matrix a alpha ;;
    new_sites <-
      unique_sites (sites conv)
        (fun s =>
           latt <- Lattice_new (Some new_matrix) ;;
           Ok (PeriodicSite_new (species_and_occu s) (frac_coords s)
                 latt true false (properties s))) ;;
    from_sites new_sites
  else
    transf <- centring_transf self symbol ;;
    new_sites <-
      unique_sites (sites conv)
        (fun s =>
           latt <- Lattice_new (Some (mat_mul transf (lattice conv))) ;;
           Ok (PeriodicSite_new (species_and_occu s) (coords s)
                 latt true true (properties s))) ;;
    from_sites new_sites.

End PrimitiveCell.

(** ** The symmetry dataset and the point group *)

(** [s.lstrip()], [s.rstrip()] and [s.strip()]: white space is removed at
    the ends. *)
Fixpoint lstrip (s : string) : string :=
  match s with
  | EmptyString => EmptyString
  | String c s' => if Py.isspace c then lstrip s' else s
  end.

Fixpoint rstrip (s : string) : string :=
  match s with
  | EmptyString => EmptyString
  | String c s' =>
      match rstrip s' with
      | EmptyString => if Py.isspace c then EmptyString
                       else String c EmptyString
      | r => String c r
      end
  end.

Definition strip (s : string) : string := lstrip (rstrip s).

(** [s[j]] for a string: a string of one character. *)
Definition str_index (s : string) (j : Z) : result string :=
  c <- Py.index (list_ascii_of_string s) j ;;
  Ok (String c EmptyString).

(** The string [letters] of [get_symmetry_dataset]. *)
Definition letters : string :=
  "abcdefghijklmnopqrstuvwxyzABCDEFGHIJKLMNOPQRSTUVWXYZ".

(** What [spg.dataset] returns, item by item, in the order of [keys]. *)
Record RawDataset : Type := mkRawDataset {
  raw_number : Z;
  raw_international : string;
  raw_hall : string;
  raw_transformation_matrix : matrix;
  raw_origin_shift : vec;
  raw_rotations : list zmatrix;
  raw_translations : list vec;
  raw_wyckoffs : list Z;
  raw_equivalent_atoms : list Z
}.

(** The dictionary [get_symmetry_dataset] returns, one field per key. *)
Record Dataset : Type := mkDataset {
  ds_number : Z;
  ds_international : string;
  ds_hall : string;
  ds_transformation_matrix : matrix;
  ds_origin_shift : vec;
  ds_rotations : list zmatrix;
  ds_translations : list vec;
  ds_wyckoffs : list string;
  ds_equivalent_atoms : list Z
}.

(** The two functions of spglib the rest of the file calls: [spg.dataset]
    and [spg.pointgroup], which returns the symbol, the number and the
    transformation matrix of the point group. *)
Class SpglibData : Type := {
  spg_dataset : matrix -> list vec -> list Z -> R -> R -> RawDataset;
  spg_pointgroup : list zmatrix -> string * Z * zmatrix
}.

(** A numpy array of rotations: of integers, or of [float64]. *)
Inductive rotations_array : Type :=
| IntArray (l : list zmatrix)
| Float64Array (l : list matrix).

(** The range of a 64-bit integer.  [np.int_] converts to a C [long],
    which has 64 bits on Linux and macOS. *)
Definition int64_min : Z := (- 2 ^ 63)%Z.
Definition int64_max : Z := (2 ^ 63 - 1)%Z.

(** [np.int_] on a [float64]: the fraction is dropped, towards zero, and
    the result is a 64-bit integer.  A value outside the range of that type
    has no defined conversion in C; the value the conversion instruction of
    x86-64 leaves, the smallest 64-bit integer, is taken here. *)
Definition np_int (x : R) : Z :=
  let z := if Rle_dec 0 x then Int_part x else (- Int_part (- x))%Z in
  if ((int64_min <=? z) && (z <=? int64_max))%Z then z else int64_min.

Definition int_matrix (m : matrix) : zmatrix :=
  let '((a, b, c), (d, e, f), (g, h, i)) := m in
  ((np_int a, np_int b, np_int c), (np_int d, np_int e, np_int f),
   (np_int g, np_int h, np_int i)).

(** The module function [get_point_group(rotations)]. *)
Definition get_point_group {Sd : SpglibData} (rotations : rotations_array)
  : string * Z * zmatrix :=
  match rotations with
  | Float64Array l => spg_pointgroup (map int_matrix l)
  | IntArray l => spg_pointgroup l
  end.

(** [SymmetrizedStructure(structure, spacegroup, equivalent_positions)] *)
Record SymmetrizedStructure {Ch : Chemistry} : Type :=
  mkSymmetrizedStructure {
    sym_structure : Structure;
    sym_spacegroup : Spacegroup;
    sym_equivalent_positions : list Z
  }.
Arguments mkSymmetrizedStructure {_} _ _ _.

Section DatasetMethods.
Context {Ch : Chemistry} {Co : Core} {Sp : Spglib} {Sd : SpglibData}.

Definition get_symmetry_dataset (self : SymmetryFinder) : result Dataset :=
  let dataset :=
    spg_dataset (_transposed_latt self) (_positions self) (_numbers self)
      (_symprec self) (_angle_tol self) in
  let international := strip (raw_international dataset) in
  let hall := strip (raw_hall dataset) in
  wyckoffs <- mapM (str_index letters) (raw_wyckoffs dataset) ;;
  Ok (mkDataset (raw_number dataset) international hall
        (raw_transformation_matrix dataset) (raw_origin_shift dataset)
        (raw_rotations dataset) (raw_translations dataset) wyckoffs
        (raw_equivalent_atoms dataset)).

Definition get_hall (self : SymmetryFinder) : result string :=
  ds <- get_symmetry_dataset self ;;
  Ok (ds_hall ds).

(** The method [SymmetryFinder.get_point_group]; the rotations of the
    dataset are integers. *)
Definition finder_get_point_group (self : SymmetryFinder) : result string :=
  ds <- get_symmetry_dataset self ;;
  Ok (strip (fst (fst (get_point_group (IntArray (ds_rotations ds)))))).

Definition get_symmetrized_structure (self : SymmetryFinder)
  : result SymmetrizedStructure :=
  ds <- get_symmetry_dataset self ;;
  symbol <- get_spacegroup_symbol self ;;
  number <- get_spacegroup_number self ;;
  ops <- get_symmetry_operations self false ;;
  Ok (mkSymmetrizedStructure (_structure self)
        (mkSpacegroup symbol number ops) (ds_equivalent_atoms ds)).

End DatasetMethods.

(** ** A small world to run the code in

    Species are names, sites carry no properties, and spglib is replaced by
    a table of answers.  The answers leave the buffers at their size, as
    numpy buffers are. *)

Module Example.

#[export] Instance chemistry : Chemistry := {|
  Species := string;
  species_eqb := String.eqb;
  species_eqb_eq := String.eqb_eq;
  Props := unit;
  no_properties := tt
|}.

(** Two sites are images when species and lattice agree and the
    fractional coordinates differ by integers. *)
Definition integral (x : R) : bool :=
  if Req_EM_T (frac_part x) 0 then true else false.

Definition images (s t : PeriodicSite) : bool :=
  let '(x, y, z) := frac_coords s in
  let '(x', y', z') := frac_coords t in
  String.eqb (species_and_occu s) (species_and_occu t)
  && matrix_eqb (site_lattice s) (site_lattice t)
  && integral (x - x') && integral (y - y') && integral (z - z').

#[export] Instance core : Core := {|
  get_fractional_coords latt c :=
    match linalg_inv latt with
    | Ok inv => vec_mat c inv
    | Raise _ => c
    end;
  is_periodic_image := images;
  site_ltb s t := String.ltb (species_and_occu s) (species_and_occu t);
  supercell s _ := s;
  get_reduced_structure_LLL s := s
|}.

(** The first [length buf] entries of [table], padded with [pad]. *)
Definition fill {A} (table : list A) (pad : A) (buf : list A) : list A :=
  firstn (List.length buf) (table ++ repeat pad (List.length buf)).

Lemma fill_length {A} (table : list A) (pad : A) (buf : list A) :
  List.length (fill table pad buf) = List.length buf.
Proof.
  unfold fill. rewrite length_firstn, length_app, repeat_length. lia.
Qed.

(** spglib answering [data] for the space group, [count] atoms for the
    primitive and the refined cell (buffers untouched), no symmetry
    operation, and [mapping] for the k-points. *)
Definition spglib (data : result string) (count : Z) (mapping : list Z)
  : Spglib.
Proof.
  refine {|
    spg_spacegroup _ _ _ _ _ := data;
    spg_symmetry rot tr _ _ _ _ _ := (rot, tr, 0%Z);
    spg_refine_cell l p n _ _ _ := (l, p, n, count);
    spg_primitive l p n _ _ := (l, p, n, count);
    spg_ir_kpoints m _ _ _ _ _ _ := fill mapping 0%Z m
  |}; intros; auto using fill_length.
Defined.

(** A site of the unit cube. *)
Definition site (sp : string) (x y z : R) : PeriodicSite :=
  mkSite sp (x, y, z) eye tt.

(** Four sites in the order Fe, Fe, O, Fe. *)
Definition fe_o : Structure :=
  mkStructure eye
    [site "Fe" 0 0 0; site "Fe" (1 / 2) (1 / 2) (1 / 2);
     site "O" (1 / 2) 0 0; site "Fe" 0 (1 / 2) 0].

(** A structure without a site. *)
Definition empty_cell : Structure := mkStructure eye [].

(** The session the constructor builds on [fe_o] when spglib answers
    [data]. *)
Definition fe_o_session (data : string) : SymmetryFinder :=
  mkFinder (1 / 100000) 5 fe_o (transpose eye)
    [(0, 0, 0); (1 / 2, 1 / 2, 1 / 2); (1 / 2, 0, 0); (0, 1 / 2, 0)]
    ["Fe"; "O"] [1; 1; 2; 1]%Z data.

(** Two sites of iron at the origin of the unit cube. *)
Definition dup : Structure :=
  mkStructure eye [site "Fe" 0 0 0; site "Fe" 0 0 0].

(** The session the constructor builds on [dup] when spglib answers
    [data]. *)
Definition dup_session (data : string) : SymmetryFinder :=
  mkFinder (1 / 100000) 5 dup (transpose eye) [(0, 0, 0); (0, 0, 0)]
    ["Fe"] [1; 1]%Z data.

(** Body-centred iron on the unit cube. *)
Definition bcc : Structure :=
  mkStructure eye
    [site "Fe" 0 0 0; site "Fe" (1 / 2) (1 / 2) (1 / 2)].

(** The session the constructor builds on [bcc] when spglib answers
    [data]. *)
Definition bcc_session (data : string) : SymmetryFinder :=
  mkFinder (1 / 100000) 5 bcc (transpose eye)
    [(0, 0, 0); (1 / 2, 1 / 2, 1 / 2)] ["Fe"] [1; 1]%Z data.

(** Two k-points. *)
Definition gamma_point : vec := (0, 0, 0).
Definition x_point : vec := (1 / 2, 0, 0).

(** A session on the empty unit cube that holds [data]. *)
Definition session_of_data (data : string) : SymmetryFinder :=
  mkFinder (1 / 100000) 5 (mkStructure eye []) eye [] [] [] data.

End Example.

(** ** Notions the statements use *)

(** Following the spec: the distinct species-and-occupancy groups in
    first-occurrence order: a group stays where it is first met and its
    later occurrences are dropped. *)
Fixpoint first_occurrences {Ch : Chemistry} (l : list Species)
  : list Species :=
  match l with
  | [] => []
  | x :: l' =>
      x :: filter (fun y => negb (species_eqb y x)) (first_occurrences l')
  end.

(** One site treated as a group of its own. *)
Definition add_site {Ch : Chemistry} (st : list Species * list Z)
    (s : PeriodicSite) : list Species * list Z :=
  add_group st (species_and_occu s, [s]).

(** A group as [groupby] yields them: not empty, of one species. *)
Definition good_group {Ch : Chemistry}
    (grp : Species * list PeriodicSite) : Prop :=
  snd grp <> []
  /\ Forall (fun s => species_and_occu s = fst grp) (snd grp).

(** [y] is not in [U]. *)
Definition unseen {Ch : Chemistry} (U : list Species) (y : Species)
  : bool :=
  negb (existsb (species_eqb y) U).

(** [z] is the 1-based position of the species of [s] in [U]. *)
Definition indexed {Ch : Chemistry} (U : list Species)
    (s : PeriodicSite) (z : Z) : Prop :=
  (1 <= z)%Z
  /\ nth_error U (Z.to_nat (z - 1)) = Some (species_and_occu s).

(** [mapping[i] == i]: the k-point [i] stands for its own class. *)
Definition represents_itself (mapping : list Z) (i : nat) : bool :=
  match nth_error mapping i with
  | Some m => (m =? Z.of_nat i)%Z
  | None => false
  end.

(** Every entry of [mapping] is the index of the first k-point of its
    class: it does not exceed its own position and it is mapped to
    itself. *)
Definition first_member_mapping (mapping : list Z) : Prop :=
  forall i m,
    nth_error mapping i = Some m ->
    (0 <= m <= Z.of_nat i)%Z /\ nth_error mapping (Z.to_nat m) = Some m.

(** [enumerate(l)] from [start]. *)
Definition enumerate_from {A} (start : nat) (l : list A) : list (nat * A) :=
  combine (seq start (List.length l)) l.

(** The k-points of [kpoints] that stand for their own class. *)
Definition representatives (mapping : list Z) (start : nat)
    (kpoints : list vec) : list vec :=
  map snd (filter (fun p => represents_itself mapping (fst p))
             (enumerate_from start kpoints)).

(** The indices below [i] that stand for their own class, as the list
    [n] of the loop holds them. *)
Definition seen_before (mapping : list Z) (i : nat) : list Z :=
  map Z.of_nat (filter (represents_itself mapping) (seq 0 i)).

(** Neighbours are in order: the second is not smaller than the first. *)
Definition in_order {A} (ltb : A -> A -> bool) (a b : A) : Prop :=
  ltb b a = false.

(** The sites of [l] all lie on the lattice [m]. *)
Definition on_lattice {Ch : Chemistry} (m : matrix)
    (l : list PeriodicSite) : Prop :=
  Forall (fun s => site_lattice s = m) l.


(** The test of the hexagonal and rhombohedral branch for a refined cell
    in the rhombohedral setting: its three lengths agree within 0.001. *)
Definition rhombohedral_setting {Ch : Chemistry} (struct : Structure)
  : bool :=
  let abc := Lattice.abc (lattice struct) in
  Rltb (Rabs (at3 abc 0 - at3 abc 1)) (1 / 1000)
  && Rltb (Rabs (at3 abc 2 - at3 abc 1)) (1 / 1000)
  && Rltb (Rabs (at3 abc 0 - at3 abc 2)) (1 / 1000).

(** The structure whose sites the branch of [lattice_type] maps: the
    supercell of the refined structure in the rhombohedral setting of the
    hexagonal and rhombohedral branch, its reduced form in the triclinic
    branch, the refined structure itself everywhere else. *)
Definition mapped_structure {Ch : Chemistry} {Co : Core}
    (struct : Structure) (lattice_type : string) : Structure :=
  if String.eqb lattice_type "hexagonal"
     || String.eqb lattice_type "rhombohedral"
  then
    if rhombohedral_setting struct
    then supercell struct ((1, -1, 0), (0, 1, -1), (1, 1, 1))%Z
    else struct
  else if String.eqb lattice_type "triclinic"
  then get_reduced_structure_LLL struct
  else struct.


(** The first angle of the cell with rows [t0], [t1], [t2] of [m]: the
    value the monoclinic search compares with 90. *)
Definition first_angle (m : matrix) (t0 t1 t2 : nat) : R :=
  at3 (snd (Lattice.lengths_and_angles (row m t0, row m t1, row m t2))) 0.

(** No character of [s] is white space. *)
Definition no_space (s : string) : Prop :=
  forall c, Py.contains c s = true -> Py.isspace c = false.

(** Every character of [s] is white space. *)
Fixpoint blank (s : string) : bool :=
  match s with
  | EmptyString => true
  | String c s' => (Py.isspace c && blank s')%bool
  end.

(** The decimal writing of a natural number. *)
Definition decimal (n : nat) : string :=
  NilEmpty.string_of_uint (Nat.to_uint n).

(** The word [split_from] is building. *)
Definition held (cur : option string) : string :=
  match cur with Some w => w | None => EmptyString end.

(** The last token as spglib writes it: the number in parentheses. *)
Definition number_token (n : nat) : string :=
  String "(" (String.append (decimal n) ")").

(** [u + v] for two arrays of three floats. *)
Definition vadd (u v : vec) : vec :=
  let '(a, b, c) := u in
  let '(x, y, z) := v in (a + x, b + y, c + z).

(** [op.operate(point)]: the rotation is applied, then the translation. *)
Definition operate (op : SymmOp) (point : vec) : vec :=
  vadd (mat_vec (fst op) point) (snd op).

(** The number of entries [l[:k]] keeps of a list of length [len]. *)
Definition slice_count (len : nat) (k : Z) : nat :=
  Nat.min
    (Z.to_nat (if (k <? 0)%Z then Z.max 0 (k + Z.of_nat len) else k)) len.

(** [sub] keeps some entries of [l], in their order. *)
Inductive subsequence {A} : list A -> list A -> Prop :=
| subsequence_nil : subsequence [] []
| subsequence_skip x sub l : subsequence sub l -> subsequence sub (x :: l)
| subsequence_keep x sub l :
    subsequence sub l -> subsequence (x :: sub) (x :: l).

(** The hexagonal [new_matrix] of the conventional cell. *)
Definition hexagonal_matrix (a c : R) : matrix :=
  ((a / 2, - a * sqrt 3 / 2, 0), (a / 2, a * sqrt 3 / 2, 0), (0, 0, c)).

(** A row of [m], a vector of the lattice, is the zero vector. *)
Definition null_vector (m : matrix) : Prop :=
  exists i, (i < 3)%nat /\ row m i = vzero.

(** An integer below 2^31 in absolute value: a [float64] holds it exactly
    and it lies in the range of [np.int_], also where a C [long] has 32
    bits only. *)
Definition float_integer (z : Z) : Prop := (Z.abs z < 2 ^ 31)%Z.

(** The nine entries of a rotation. *)
Definition entries (m : zmatrix) : list Z :=
  let '((a, b, c), (d, e, f), (g, h, i)) := m in
  [a; b; c; d; e; f; g; h; i].

(** [v] with its coordinates taken in the order [s0], [s1], [s2]. *)
Definition relabel (v : vec) (s0 s1 s2 : nat) : vec :=
  (coord v s0, coord v s1, coord v s2).

(** The state the monoclinic search leaves after it accepted the rows
    [t0], [t1], [t2] of [m], the first two multiplied by [sign]: the
    lengths are the row norms, [alpha] is the angle between the second and
    third accepted rows, in radians, and it is acute. *)
Definition monoclinic_candidate (m : matrix) (st : mono_locals)
    (t0 t1 t2 : nat) (sign : R) : Prop :=
  (sign = 1 \/ sign = -1)
  /\ l_trans st
     = Some (set_entry (set_entry (set_entry zeros33 0 t0 sign) 1 t1 sign)
               2 t2 1)
  /\ l_a st = Some (Lattice.norm (row m t0))
  /\ l_b st = Some (Lattice.norm (row m t1))
  /\ l_c st = Some (Lattice.norm (row m t2))
  /\ l_alpha st
     = Some (Lattice.angle_rad (vscale sign (row m t1)) (row m t2))
  /\ l_new_matrix st
     = Some (monoclinic_matrix (Lattice.norm (row m t0))
               (Lattice.norm (row m t1)) (Lattice.norm (row m t2))
               (Lattice.angle_rad (vscale sign (row m t1)) (row m t2)))
  /\ Lattice.angle_rad (vscale sign (row m t1)) (row m t2) < PI / 2.

(** What the search holds after some steps: nothing yet, or a candidate;
    [general] tells the arm that tries all six permutations from the arm
    of the C-centred setting. *)
Definition search_state (m : matrix) (general : bool) (st : mono_locals)
  : Prop :=
  (l_new_matrix st = None /\ l_alpha st = None)
  \/ exists t0 t1 t2 sign,
       monoclinic_candidate m st t0 t1 t2 sign
       /\ (if general
           then In (t0, t1, t2) permutations3
                /\ Lattice.norm (row m t1) < Lattice.norm (row m t2)
           else In (t0, t1) permutations2 /\ t2 = 2%nat).

(** No site of [l] is a periodic image of a site before it. *)
Definition no_earlier_image {Ch : Chemistry} {Co : Core}
    (l : list PeriodicSite) : Prop :=
  ForallOrdPairs (fun t s => is_periodic_image s t = false) l.

(** The letter of the Wyckoff number [x], by its character code. *)
Definition letter_of (x : Z) : string :=
  String (ascii_of_nat (Z.to_nat (if (x <? 26)%Z then 97 + x else 39 + x)))
    EmptyString.

(** [s] has no white space at either end. *)
Definition trimmed (s : string) : Prop :=
  forall c rest,
    (s = String c rest -> Py.isspace c = false)
    /\ (s = String.append rest (String c EmptyString) ->
        Py.isspace c = false).

(** ** More cases to run the code on *)

Module Sample.

(** spglib answering with the symmetry operations of a table. *)
Definition spglib_ops (rot : list zmatrix) (tr : list vec) : Spglib.
Proof.
  refine {|
    spg_spacegroup _ _ _ _ _ := Ok "P4 (75)";
    spg_symmetry rot' tr' _ _ _ _ _ :=
      (Example.fill rot zmatrix_zero rot', Example.fill tr vzero tr',
       Z.of_nat (List.length rot));
    spg_refine_cell l p n _ _ _ := (l, p, n, 0%Z);
    spg_primitive l p n _ _ := (l, p, n, 0%Z);
    spg_ir_kpoints m _ _ _ _ _ _ := m
  |}; intros; auto using Example.fill_length.
Defined.

(** A rotation by a quarter turn about the third axis. *)
Definition quarter_turn : zmatrix := ((0, -1, 0), (1, 0, 0), (0, 0, 1))%Z.

(** A session on a cell without volume. *)
Definition flat_session : SymmetryFinder (Ch := Example.chemistry) :=
  mkFinder (1 / 100000) 5 (mkStructure zeros33 []) zeros33 [] [] []
    "P1 (1)".

(** spglib answering with a dataset whose Wyckoff numbers are
    [wyckoffs]. *)
Definition dataset_of (wyckoffs : list Z) : SpglibData := {|
  spg_dataset _ _ _ _ _ :=
    mkRawDataset 221 " Pm-3m " "-P 4 2 3  " eye vzero [] [] wyckoffs
      [0; 0; 2; 0]%Z;
  spg_pointgroup _ := ("m-3m ", 32%Z, zmatrix_zero)
|}.
End Sample.

(** * Properties *)

(** ** Crystal system and lattice type *)

Ltac pick_disjunct :=
  first [ solve [split; [lia | reflexivity]]
        | solve [left; split; [lia | reflexivity]]
        | right; pick_disjunct ].

Lemma crystal_system_of_number_cases (n : Z) :
  ((1 <= n <= 2)%Z /\ crystal_system_of_number n = Some "triclinic")
  \/ ((3 <= n <= 15)%Z /\ crystal_system_of_number n = Some "monoclinic")
  \/ ((16 <= n <= 74)%Z /\ crystal_system_of_number n = Some "orthorhombic")
  \/ ((75 <= n <= 142)%Z /\ crystal_system_of_number n = Some "tetragonal")
  \/ ((143 <= n <= 167)%Z /\ crystal_system_of_number n = Some "trigonal")
  \/ ((168 <= n <= 194)%Z /\ crystal_system_of_number n = Some "hexagonal")
  \/ ((195 <= n <= 230)%Z /\ crystal_system_of_number n = Some "cubic")
  \/ ((n < 1 \/ 230 < n)%Z /\ crystal_system_of_number n = None).
Proof.
  unfold crystal_system_of_number, cs, first_match.
  repeat match goal with
         | |- context [(?i <=? n)%Z] =>
             destruct (Z.leb_spec i n); simpl; try pick_disjunct
         | |- context [(n <=? ?j)%Z] =>
             destruct (Z.leb_spec n j); simpl; try pick_disjunct
         end.
Qed.

Lemma first_match_Some (n : Z) (items : list (string * (Z * Z)))
    (k : string) :
  first_match n items = Some k ->
  exists i j, In (k, (i, j)) items /\ (i <= n <= j)%Z.
Proof.
  induction items as [|[k' [i j]] items IH]; simpl; [discriminate|].
  destruct (Z.leb_spec i n); destruct (Z.leb_spec n j); simpl.
  - intros E. inversion E. subst. exists i, j. split; [now left | lia].
  - intros E. destruct (IH E) as [i' [j' [Hin Hr]]]. eauto.
  - intros E. destruct (IH E) as [i' [j' [Hin Hr]]]. eauto.
  - intros E. destruct (IH E) as [i' [j' [Hin Hr]]]. eauto.
Qed.

Lemma first_match_None (n : Z) (items : list (string * (Z * Z))) :
  first_match n items = None ->
  forall k i j, In (k, (i, j)) items -> ~ (i <= n <= j)%Z.
Proof.
  induction items as [|[k' [i' j']] items IH]; simpl; [contradiction|].
  destruct (Z.leb_spec i' n); destruct (Z.leb_spec n j'); simpl;
    try discriminate;
    (intros E k i j [Hin|Hin];
     [inversion Hin; subst; lia | exact (IH E k i j Hin)]).
Qed.

Lemma cs_unique (n : Z) (k : string) (lo hi : Z) :
  In (k, (lo, hi)) cs -> (lo <= n <= hi)%Z ->
  crystal_system_of_number n = Some k.
Proof.
  intros Hin Hb.
  destruct (crystal_system_of_number_cases n)
    as [[Hr E]|[[Hr E]|[[Hr E]|[[Hr E]|[[Hr E]|[[Hr E]|[[Hr E]|[Hr E]]]]]]]];
    rewrite E; simpl in Hin;
    repeat (destruct Hin as [Hin | Hin];
            [inversion Hin; subst; try reflexivity; lia |]);
    contradiction.
Qed.

(** A dictionary is iterated in no particular order; the ranges of [cs]
    are disjoint, so the order does not show in the result. *)
Lemma first_match_any_order (n : Z) (items : list (string * (Z * Z))) :
  Permutation items cs -> first_match n items = crystal_system_of_number n.
Proof.
  intros Hperm. destruct (first_match n items) as [k|] eqn:E.
  - destruct (first_match_Some _ _ _ E) as [i [j [Hin Hr]]].
    symmetry. apply (cs_unique n k i j); [|assumption].
    eapply Permutation_in; eassumption.
  - destruct (crystal_system_of_number n) as [k|] eqn:E'; [|reflexivity].
    destruct (first_match_Some _ _ _ E') as [i [j [Hin Hr]]].
    exfalso. apply (first_match_None _ _ E k i j); [|assumption].
    eapply Permutation_in; [symmetry|]; eassumption.
Qed.

Lemma mem_Z_In (x : Z) (l : list Z) : Py.mem_Z x l = true <-> In x l.
Proof.
  unfold Py.mem_Z. rewrite existsb_exists. split.
  - intros [y [Hy Heq]]. apply Z.eqb_eq in Heq. now subst.
  - intros Hin. exists x. split; [assumption | apply Z.eqb_refl].
Qed.

Lemma mem_Z_rhombohedral_trigonal (n : Z) :
  Py.mem_Z n rhombohedral_numbers = true -> (143 <= n <= 167)%Z.
Proof.
  rewrite mem_Z_In. unfold rhombohedral_numbers. simpl. lia.
Qed.

(** C2: for a space-group number [n] with 1 <= n <= 230 read by
    [get_spacegroup_number], [get_crystal_system] returns the label whose
    inclusive range holds [n] (triclinic 1-2, monoclinic 3-15, orthorhombic
    16-74, tetragonal 75-142, trigonal 143-167, hexagonal 168-194, cubic
    195-230), no other entry of the table holds [n], and [get_lattice_type]
    returns "rhombohedral" exactly for the seven listed numbers, "hexagonal"
    for the other trigonal numbers and the crystal-system label
    otherwise. *)
Theorem crystal_system_and_lattice_type_by_number
    {Ch : Chemistry} (self : SymmetryFinder) (n : Z) :
  get_spacegroup_number self = Ok n ->
  (1 <= n <= 230)%Z ->
  exists label : string,
    get_crystal_system self = Ok (Some label)
    /\ ((1 <= n <= 2)%Z -> label = "triclinic")
    /\ ((3 <= n <= 15)%Z -> label = "monoclinic")
    /\ ((16 <= n <= 74)%Z -> label = "orthorhombic")
    /\ ((75 <= n <= 142)%Z -> label = "tetragonal")
    /\ ((143 <= n <= 167)%Z -> label = "trigonal")
    /\ ((168 <= n <= 194)%Z -> label = "hexagonal")
    /\ ((195 <= n <= 230)%Z -> label = "cubic")
    /\ (forall k lo hi,
          In (k, (lo, hi)) cs -> (lo <= n <= hi)%Z -> k = label)
    /\ (get_lattice_type self = Ok (Some "rhombohedral")
        <-> In n [146; 148; 155; 160; 161; 166; 167]%Z)
    /\ (~ In n [146; 148; 155; 160; 161; 166; 167]%Z ->
        (143 <= n <= 167)%Z ->
        get_lattice_type self = Ok (Some "hexagonal"))
    /\ (~ In n [146; 148; 155; 160; 161; 166; 167]%Z ->
        ~ (143 <= n <= 167)%Z ->
        get_lattice_type self = Ok (Some label)).
Proof.
  intros Hn Hrange.
  assert (Hlt : forall sys,
             crystal_system_of_number n = Some sys ->
             get_crystal_system self = Ok (Some sys)
             /\ get_lattice_type self = Ok (lattice_type_of n (Some sys))).
  { intros sys Hsys. unfold get_lattice_type, get_crystal_system.
    rewrite Hn. simpl. rewrite Hsys. split; reflexivity. }
  assert (Huniq : forall k lo hi sys,
             crystal_system_of_number n = Some sys ->
             In (k, (lo, hi)) cs -> (lo <= n <= hi)%Z -> k = sys).
  { intros k lo hi sys Hsys Hin Hb.
    destruct (crystal_system_of_number_cases n)
      as [[Hr E]|[[Hr E]|[[Hr E]|[[Hr E]|[[Hr E]|[[Hr E]|[[Hr E]|[Hr E]]]]]]]];
      rewrite E in Hsys; inversion Hsys; subst sys;
      simpl in Hin;
      repeat (destruct Hin as [Hin | Hin];
              [inversion Hin; subst; try reflexivity; lia |]);
      contradiction. }
  assert (Hmem : Py.mem_Z n rhombohedral_numbers = true
                 <-> In n [146; 148; 155; 160; 161; 166; 167]%Z)
    by apply mem_Z_In.
  destruct (crystal_system_of_number_cases n)
    as [[Hr E]|[[Hr E]|[[Hr E]|[[Hr E]|[[Hr E]|[[Hr E]|[[Hr E]|[Hr E]]]]]]]];
    try lia;
    destruct (Hlt _ E) as [Hcs Hlat];
    (eexists; split; [exact Hcs |]);
    repeat (split; [first [reflexivity | intros; lia] |]);
    (split; [intros k lo hi; apply (Huniq k lo hi _ E) |]);
    rewrite Hlat; unfold lattice_type_of;
    destruct (Py.mem_Z n rhombohedral_numbers) eqn:Em; simpl.
  all: try (apply mem_Z_rhombohedral_trigonal in Em; lia).
  all: repeat split; intros; try reflexivity; try discriminate; try lia.
  all: try (apply Hmem; reflexivity).
  all: exfalso; simpl in *; intuition discriminate.
Qed.

Lemma crystal_system_and_lattice_type_by_number_witness :
  get_crystal_system (Example.session_of_data "Pnma (62)")
  = Ok (Some "orthorhombic").
Proof.
  destruct (crystal_system_and_lattice_type_by_number
              (Example.session_of_data "Pnma (62)") 62 eq_refl
              ltac:(lia))
    as [label [Hcs [_ [_ [Ho _]]]]].
  rewrite Hcs, Ho; [reflexivity | lia].
Defined.

(** C10: when [get_spacegroup_number] yields a value outside 1-230, no
    entry of the table matches and [get_crystal_system] returns [None]; it
    neither raises nor returns a label. *)
Theorem crystal_system_none_outside_table
    {Ch : Chemistry} (self : SymmetryFinder) (n : Z) :
  get_spacegroup_number self = Ok n ->
  (n < 1 \/ 230 < n)%Z ->
  get_crystal_system self = Ok None.
Proof.
  intros Hn Hout. unfold get_crystal_system. rewrite Hn. simpl.
  destruct (crystal_system_of_number_cases n)
    as [[Hr E]|[[Hr E]|[[Hr E]|[[Hr E]|[[Hr E]|[[Hr E]|[[Hr E]|[Hr E]]]]]]]];
    try lia.
  now rewrite E.
Qed.

Lemma crystal_system_none_outside_table_witness :
  get_crystal_system (Example.session_of_data "Fm-3m (231)") = Ok None
  /\ get_crystal_system (Example.session_of_data "none (0)") = Ok None.
Proof.
  split.
  - apply (crystal_system_none_outside_table
             (Example.session_of_data "Fm-3m (231)") 231 eq_refl).
    right. lia.
  - apply (crystal_system_none_outside_table
             (Example.session_of_data "none (0)") 0 eq_refl).
    left. lia.
Defined.

(** ** Species indices assigned at construction *)

Section SpeciesIndex.
Context {Ch : Chemistry}.

Lemma species_eqb_refl (a : Species) : species_eqb a a = true.
Proof. now apply species_eqb_eq. Qed.

Lemma species_eqb_neq (a b : Species) : a <> b -> species_eqb a b = false.
Proof.
  intros Hne. destruct (species_eqb a b) eqn:E; [|reflexivity].
  apply species_eqb_eq in E. contradiction.
Qed.

Lemma species_eq_dec (a b : Species) : {a = b} + {a <> b}.
Proof.
  destruct (species_eqb a b) eqn:E.
  - left. now apply species_eqb_eq.
  - right. intros ->. rewrite species_eqb_refl in E. discriminate.
Qed.

Lemma list_index_absent (x : Species) (l : list Species) :
  ~ In x l -> Py.list_index species_eqb x l = Raise ValueError.
Proof.
  induction l as [|y l IH]; simpl; intros Hnin; [reflexivity|].
  rewrite species_eqb_neq by (intros ->; apply Hnin; now left).
  rewrite IH by (intros Hin; apply Hnin; now right). reflexivity.
Qed.

Lemma list_index_present (x : Species) (l : list Species) :
  In x l ->
  exists i, Py.list_index species_eqb x l = Ok (Z.of_nat i)
            /\ nth_error l i = Some x.
Proof.
  induction l as [|y l IH]; simpl; intros Hin; [contradiction|].
  destruct (species_eq_dec y x) as [->|Hne].
  - exists O. rewrite species_eqb_refl. split; reflexivity.
  - destruct Hin as [Heq|Hin]; [contradiction|].
    destruct (IH Hin) as [i [Hi Hnth]].
    exists (S i). rewrite species_eqb_neq by assumption.
    rewrite Hi. simpl. split; [f_equal; lia | assumption].
Qed.

Lemma list_index_appended (x : Species) (l : list Species) :
  ~ In x l ->
  Py.list_index species_eqb x (l ++ [x]) = Ok (Z.of_nat (List.length l)).
Proof.
  induction l as [|y l IH]; simpl; intros Hnin.
  - now rewrite species_eqb_refl.
  - rewrite species_eqb_neq by (intros ->; apply Hnin; now left).
    rewrite IH by (intros Hin; apply Hnin; now right).
    simpl. f_equal. lia.
Qed.

Lemma existsb_species_In (x : Species) (l : list Species) :
  existsb (species_eqb x) l = true <-> In x l.
Proof.
  rewrite existsb_exists. split.
  - intros [y [Hy E]]. apply species_eqb_eq in E. now subst.
  - intros Hin. exists x. split; [assumption | apply species_eqb_refl].
Qed.

Lemma add_site_known (U : list Species) (zs : list Z) (s : PeriodicSite)
    (ind : Z) :
  Py.list_index species_eqb (species_and_occu s) U = Ok ind ->
  add_site (U, zs) s = (U, zs ++ [(ind + 1)%Z]).
Proof. intros Hind. unfold add_site, add_group. now rewrite Hind. Qed.

Lemma add_site_new (U : list Species) (zs : list Z) (s : PeriodicSite) :
  ~ In (species_and_occu s) U ->
  add_site (U, zs) s
  = (U ++ [species_and_occu s], zs ++ [(Z.of_nat (List.length U) + 1)%Z]).
Proof.
  intros Hnin. unfold add_site, add_group.
  rewrite (list_index_absent _ _ Hnin). rewrite length_app. simpl.
  repeat f_equal. lia.
Qed.

Lemma add_sites_known (U : list Species) (k : Species) (ind : Z)
    (g : list PeriodicSite) :
  Py.list_index species_eqb k U = Ok ind ->
  Forall (fun s => species_and_occu s = k) g ->
  forall zs, fold_left add_site g (U, zs)
             = (U, zs ++ repeat (ind + 1)%Z (List.length g)).
Proof.
  intros Hind Hall. induction Hall as [|s g Hs Hg IH]; intros zs.
  - simpl. now rewrite app_nil_r.
  - cbn [fold_left List.length repeat].
    rewrite (add_site_known U zs s ind) by now rewrite Hs.
    rewrite IH, <- app_assoc. reflexivity.
Qed.

Lemma add_group_as_sites (U : list Species) (zs : list Z) (k : Species)
    (g : list PeriodicSite) :
  g <> [] ->
  Forall (fun s => species_and_occu s = k) g ->
  add_group (U, zs) (k, g) = fold_left add_site g (U, zs).
Proof.
  intros Hne Hall. destruct (in_dec species_eq_dec k U) as [Hin|Hnin].
  - destruct (list_index_present k U Hin) as [i [Hi _]].
    rewrite (add_sites_known U k _ g Hi Hall). unfold add_group. now rewrite Hi.
  - destruct g as [|s g]; [contradiction|]. inversion Hall; subst.
    cbn [fold_left]. rewrite (add_site_new U zs s Hnin).
    rewrite (add_sites_known _ _ _ g (list_index_appended _ _ Hnin))
      by assumption.
    unfold add_group. rewrite (list_index_absent _ _ Hnin).
    rewrite <- app_assoc, length_app. simpl.
    replace (Z.of_nat (List.length U + 1))
      with (Z.of_nat (List.length U) + 1)%Z by lia.
    reflexivity.
Qed.

Lemma groupby_run_good (l : list PeriodicSite) :
  forall k run,
    run <> [] -> Forall (fun s => species_and_occu s = k) run ->
    Forall good_group (Py.groupby_run species_eqb species_and_occu k run l)
    /\ List.concat (map snd (Py.groupby_run species_eqb species_and_occu k run l))
       = rev run ++ l.
Proof.
  induction l as [|x l IH]; intros k run Hne Hall; simpl.
  - split; [|now rewrite !app_nil_r].
    constructor; [|constructor]. split; simpl.
    + intros E. apply Hne. now rewrite <- (rev_involutive run), E.
    + now apply Forall_rev.
  - destruct (species_eqb (species_and_occu x) k) eqn:E.
    + apply species_eqb_eq in E.
      destruct (IH k (x :: run)) as [Hg Hc];
        [discriminate | now constructor |].
      split; [exact Hg|]. rewrite Hc. simpl. now rewrite <- app_assoc.
    + destruct (IH (species_and_occu x) [x]) as [Hg Hc];
        [discriminate | now repeat constructor |].
      split.
      * constructor; [|exact Hg]. split; simpl.
        -- intros E'. apply Hne. now rewrite <- (rev_involutive run), E'.
        -- now apply Forall_rev.
      * simpl. rewrite Hc. reflexivity.
Qed.

Lemma groupby_good (l : list PeriodicSite) :
  Forall good_group (Py.groupby species_eqb species_and_occu l)
  /\ List.concat (map snd (Py.groupby species_eqb species_and_occu l)) = l.
Proof.
  destruct l as [|x l]; simpl; [split; [constructor | reflexivity]|].
  apply (groupby_run_good l (species_and_occu x) [x]);
    [discriminate | now repeat constructor].
Qed.

Lemma fold_groups_as_sites (runs : list (Species * list PeriodicSite)) :
  Forall good_group runs ->
  forall st, fold_left add_group runs st
             = fold_left add_site (List.concat (map snd runs)) st.
Proof.
  induction 1 as [|[k g] runs [Hne Hall] Hrest IH]; intros [U zs].
  - reflexivity.
  - cbn [map List.concat fold_left snd]. rewrite fold_left_app.
    simpl in Hne, Hall.
    rewrite (add_group_as_sites U zs k g Hne Hall). apply IH.
Qed.

Lemma init_tables (l : list PeriodicSite) :
  fold_left add_group (Py.groupby species_eqb species_and_occu l) ([], [])
  = fold_left add_site l ([], []).
Proof.
  destruct (groupby_good l) as [Hg Hc].
  rewrite (fold_groups_as_sites _ Hg), Hc. reflexivity.
Qed.

Lemma filter_unseen_known (U : list Species) (x : Species)
    (l : list Species) :
  In x U ->
  filter (unseen U) (filter (fun y => negb (species_eqb y x)) l)
  = filter (unseen U) l.
Proof.
  intros Hin. induction l as [|y l IH]; simpl; [reflexivity|].
  destruct (species_eq_dec y x) as [->|Hne].
  - rewrite species_eqb_refl. simpl. rewrite IH. unfold unseen at 2.
    rewrite (proj2 (existsb_species_In x U) Hin). reflexivity.
  - rewrite species_eqb_neq by assumption. simpl. now rewrite IH.
Qed.

Lemma filter_unseen_new (U : list Species) (x : Species)
    (l : list Species) :
  filter (unseen (U ++ [x])) l
  = filter (unseen U) (filter (fun y => negb (species_eqb y x)) l).
Proof.
  induction l as [|y l IH]; simpl; [reflexivity|].
  unfold unseen at 1. rewrite existsb_app. simpl. rewrite orb_false_r.
  destruct (species_eqb y x) eqn:E; simpl.
  - rewrite orb_true_r. simpl. exact IH.
  - rewrite orb_false_r. fold (unseen U y).
    destruct (unseen U y); [f_equal|]; exact IH.
Qed.

Lemma indexed_app (U ext : list Species) (s : PeriodicSite) (z : Z) :
  indexed U s z -> indexed (U ++ ext) s z.
Proof.
  intros [Hz Hn]. split; [assumption|].
  rewrite nth_error_app1; [assumption|].
  apply nth_error_Some. rewrite Hn. discriminate.
Qed.

Lemma add_sites_tables (l : list PeriodicSite) :
  forall U zs,
  exists zl,
    fold_left add_site l (U, zs)
    = (U ++ filter (unseen U) (first_occurrences (map species_and_occu l)),
       zs ++ zl)
    /\ Forall2
         (indexed
            (U ++ filter (unseen U)
                    (first_occurrences (map species_and_occu l))))
         l zl.
Proof.
  induction l as [|s l IH]; intros U zs.
  - exists []. simpl. rewrite !app_nil_r. split; [reflexivity | constructor].
  - cbn [fold_left map first_occurrences filter].
    destruct (in_dec species_eq_dec (species_and_occu s) U) as [Hin|Hnin].
    + destruct (list_index_present _ _ Hin) as [i [Hi Hnth]].
      rewrite (add_site_known U zs s _ Hi).
      destruct (IH U (zs ++ [(Z.of_nat i + 1)%Z])) as [zl [Hf Hall]].
      exists ((Z.of_nat i + 1)%Z :: zl).
      assert (Hun : unseen U (species_and_occu s) = false).
      { unfold unseen.
        now rewrite (proj2 (existsb_species_In _ U) Hin). }
      rewrite !Hun, !(filter_unseen_known U _ _ Hin).
      rewrite Hf, <- app_assoc. split; [reflexivity|].
      constructor; [|exact Hall].
      apply indexed_app. split; [lia|].
      now replace (Z.to_nat (Z.of_nat i + 1 - 1)) with i by lia.
    + rewrite (add_site_new U zs s Hnin).
      destruct (IH (U ++ [species_and_occu s])
                  (zs ++ [(Z.of_nat (List.length U) + 1)%Z]))
        as [zl [Hf Hall]].
      exists ((Z.of_nat (List.length U) + 1)%Z :: zl).
      assert (Hun : unseen U (species_and_occu s) = true).
      { unfold unseen. destruct (existsb _ U) eqn:E; [|reflexivity].
        apply existsb_species_In in E. contradiction. }
      rewrite Hun. rewrite filter_unseen_new in Hf, Hall.
      rewrite <- app_assoc in Hf, Hall. simpl in Hf, Hall.
      rewrite Hf, <- app_assoc. split; [reflexivity|].
      constructor; [|exact Hall].
      split; [lia|].
      replace (Z.to_nat (Z.of_nat (List.length U) + 1 - 1))
        with (List.length U + 0)%nat by lia.
      rewrite nth_error_app2 by lia.
      now replace (List.length U + 0 - List.length U)%nat with O by lia.
Qed.

Lemma filter_unseen_nil (l : list Species) : filter (unseen []) l = l.
Proof. induction l; simpl; congruence. Qed.

Lemma first_occurrences_In (l : list Species) (x : Species) :
  In x (first_occurrences l) <-> In x l.
Proof.
  induction l as [|y l IH]; simpl; [tauto|].
  rewrite filter_In, IH. split.
  - intros [->|[Hin _]]; auto.
  - intros [->|Hin]; [now left|].
    destruct (species_eq_dec x y) as [->|Hne]; [now left|].
    right. split; [assumption|]. now rewrite species_eqb_neq.
Qed.

Lemma first_occurrences_NoDup (l : list Species) :
  NoDup (first_occurrences l).
Proof.
  induction l as [|y l IH]; simpl; constructor.
  - rewrite filter_In. intros [_ E]. rewrite species_eqb_refl in E.
    discriminate.
  - now apply NoDup_filter.
Qed.
End SpeciesIndex.

Lemma init_fields {Ch : Chemistry} {Sp : Spglib}
    (structure : Structure) (symprec angle_tolerance : R)
    (self : SymmetryFinder) :
  init structure symprec angle_tolerance = Ok self ->
  _structure self = structure
  /\ _symprec self = symprec
  /\ _angle_tol self = angle_tolerance
  /\ _transposed_latt self = transpose (lattice structure)
  /\ _positions self = map frac_coords (sites structure)
  /\ (_unique_species self, _numbers self)
     = fold_left add_site (sites structure) ([], []).
Proof.
  unfold init. rewrite init_tables.
  destruct (fold_left add_site (sites structure) ([], [])) as [U zs].
  destruct (spg_spacegroup _ _ _ _ _) as [data|e]; simpl; [|discriminate].
  intros E. inversion E. simpl. repeat split; reflexivity.
Qed.

Lemma Forall2_nth_error {A B} (P : A -> B -> Prop) (l1 : list A)
    (l2 : list B) :
  Forall2 P l1 l2 ->
  forall i a b, nth_error l1 i = Some a -> nth_error l2 i = Some b -> P a b.
Proof.
  induction 1 as [|x y l1 l2 Hxy Hrest IH]; intros [|i] a b Ha Hb;
    simpl in *; try discriminate.
  - inversion Ha; inversion Hb; subst. assumption.
  - eapply IH; eassumption.
Qed.

Lemma init_species_tables {Ch : Chemistry} {Sp : Spglib}
    (structure : Structure) (symprec angle_tolerance : R)
    (self : SymmetryFinder) :
  init structure symprec angle_tolerance = Ok self ->
  _unique_species self
  = first_occurrences (map species_and_occu (sites structure))
  /\ NoDup (_unique_species self)
  /\ Forall2 (indexed (_unique_species self))
       (sites structure) (_numbers self).
Proof.
  intros Hinit.
  destruct (init_fields _ _ _ _ Hinit) as [_ [_ [_ [_ [_ Htab]]]]].
  destruct (add_sites_tables (sites structure) [] []) as [zl [Hf Hall]].
  rewrite Hf in Htab. simpl in Htab, Hall.
  rewrite filter_unseen_nil in Htab, Hall.
  injection Htab as HU Hz. rewrite <- HU, <- Hz in Hall.
  split; [exact HU|]. split; [|exact Hall].
  rewrite HU. apply first_occurrences_NoDup.
Qed.

(** C6: after construction the unique-species list holds the distinct
    species-and-occupancy groups in the order of their first occurrence,
    without repetition; the index array has one entry per site, the 1-based
    position of the site's group in that list; hence two sites have the
    same index exactly when their groups are equal. *)
Theorem species_indices_by_first_occurrence {Ch : Chemistry} {Sp : Spglib}
    (structure : Structure) (symprec angle_tolerance : R)
    (self : SymmetryFinder) :
  init structure symprec angle_tolerance = Ok self ->
  _unique_species self
  = first_occurrences (map species_and_occu (sites structure))
  /\ NoDup (_unique_species self)
  /\ Forall2
       (fun s z =>
          (1 <= z)%Z
          /\ nth_error (_unique_species self) (Z.to_nat (z - 1))
             = Some (species_and_occu s))
       (sites structure) (_numbers self)
  /\ (forall i j si sj zi zj,
        nth_error (sites structure) i = Some si ->
        nth_error (sites structure) j = Some sj ->
        nth_error (_numbers self) i = Some zi ->
        nth_error (_numbers self) j = Some zj ->
        (zi = zj <-> species_and_occu si = species_and_occu sj)).
Proof.
  intros Hinit.
  destruct (init_species_tables _ _ _ _ Hinit) as [HU [Hnd Hall]].
  split; [exact HU|]. split; [exact Hnd|]. split; [exact Hall|].
  intros i j si sj zi zj Hsi Hsj Hzi Hzj.
  destruct (Forall2_nth_error _ _ _ Hall i si zi Hsi Hzi) as [Hi1 Hi2].
  destruct (Forall2_nth_error _ _ _ Hall j sj zj Hsj Hzj) as [Hj1 Hj2].
  split.
  - intros ->. rewrite Hi2 in Hj2. now inversion Hj2.
  - intros Heq. rewrite <- Heq, <- Hi2 in Hj2.
    assert (Hlt : (Z.to_nat (zj - 1) < List.length (_unique_species self))%nat).
    { apply nth_error_Some. rewrite Hj2, Hi2. discriminate. }
    pose proof (proj1 (NoDup_nth_error _) Hnd _ _ Hlt Hj2). lia.
Qed.

Lemma species_indices_by_first_occurrence_witness :
  exists self,
    init (Sp := Example.spglib (Ok "Pm-3m (221)") 0 []) Example.fe_o
      (1 / 100000) 5 = Ok self
    /\ _unique_species self = ["Fe"; "O"]
    /\ _numbers self = [1; 1; 2; 1]%Z.
Proof.
  eexists. split; [reflexivity|].
  destruct (species_indices_by_first_occurrence
              (Sp := Example.spglib (Ok "Pm-3m (221)") 0 [])
              Example.fe_o (1 / 100000) 5 _ eq_refl) as [HU _].
  split; [rewrite HU; reflexivity | reflexivity].
Defined.

(** ** Construction from a structure without sites *)

(** C7, as stated, fails: on a structure with zero sites the constructor
    raises nothing of its own; with a space-group answer from spglib it
    returns a session with empty arrays. *)
Lemma init_empty_structure_not_rejected :
  sites Example.empty_cell = []
  /\ init (Sp := Example.spglib (Ok "P1 (1)") 0 []) Example.empty_cell
       (1 / 100000) 5
     = Ok (mkFinder (1 / 100000) 5 Example.empty_cell
             (transpose (lattice Example.empty_cell)) [] [] [] "P1 (1)")
  /\ init (Sp := Example.spglib (Ok "P1 (1)") 0 []) Example.empty_cell
       (1 / 100000) 5
     <> Raise InvalidStructureError.
Proof.
  split; [reflexivity|]. split; [reflexivity|]. discriminate.
Qed.

(** C7, amended: the constructor does not look at the number of sites.  On
    a structure with zero sites it builds empty position, index and
    unique-species arrays, hands them to the space-group query of spglib and
    keeps its answer; it raises only what that query raises. *)
Theorem init_zero_sites_defers_to_spglib {Ch : Chemistry} {Sp : Spglib}
    (structure : Structure) (symprec angle_tolerance : R) :
  sites structure = [] ->
  init structure symprec angle_tolerance
  = (data <- spg_spacegroup (transpose (lattice structure)) [] []
               symprec angle_tolerance ;;
     Ok (mkFinder symprec angle_tolerance structure
           (transpose (lattice structure)) [] [] [] data))
  /\ (forall e,
        init structure symprec angle_tolerance = Raise e ->
        spg_spacegroup (transpose (lattice structure)) [] []
          symprec angle_tolerance = Raise e).
Proof.
  intros Hsites. unfold init. rewrite Hsites. simpl.
  split; [reflexivity|].
  intros e. destruct (spg_spacegroup _ _ _ _ _); simpl; congruence.
Qed.

Lemma init_zero_sites_defers_to_spglib_witness :
  init (Sp := Example.spglib (Raise TypeError) 0 []) Example.empty_cell
    (1 / 100000) 5 = Raise TypeError.
Proof.
  destruct (init_zero_sites_defers_to_spglib
              (Sp := Example.spglib (Raise TypeError) 0 [])
              Example.empty_cell (1 / 100000) 5 eq_refl) as [Heq _].
  rewrite Heq. reflexivity.
Defined.

(** ** The primitive cell *)

Lemma index_in_range {A} (l : list A) (j : Z) (a : A) :
  (0 <= j)%Z -> nth_error l (Z.to_nat j) = Some a -> Py.index l j = Ok a.
Proof.
  intros Hj Hn. unfold Py.index.
  assert (Hlt : (Z.to_nat j < List.length l)%nat)
    by (apply nth_error_Some; rewrite Hn; discriminate).
  destruct (Z.ltb_spec j 0); [lia|].
  destruct (Z.leb_spec 0 j); [|lia].
  destruct (Z.ltb_spec j (Z.of_nat (List.length l))); [|lia].
  simpl. now rewrite Hn.
Qed.

Lemma index_valid {A} (l : list A) (z : Z) :
  (1 <= z <= Z.of_nat (List.length l))%Z ->
  exists a, Py.index l (z - 1) = Ok a.
Proof.
  intros Hz. destruct (nth_error l (Z.to_nat (z - 1))) as [a|] eqn:E.
  - exists a. apply index_in_range; [lia | assumption].
  - apply nth_error_None in E. lia.
Qed.

Lemma mapM_Forall2 {A B} (f : A -> result B) (l : list A) :
  Forall (fun a => exists b, f a = Ok b) l ->
  exists bs, mapM f l = Ok bs /\ Forall2 (fun b a => f a = Ok b) bs l.
Proof.
  induction 1 as [|a l [b Hb] Hrest [bs [Hbs Hall]]]; simpl.
  - exists []. split; [reflexivity | constructor].
  - exists (b :: bs). rewrite Hb. simpl. rewrite Hbs. simpl.
    split; [reflexivity | now constructor].
Qed.

Lemma slice_to_positive {A} (l : list A) (k : Z) :
  (0 <= k)%Z -> Py.slice_to l k = firstn (Z.to_nat k) l.
Proof.
  intros Hk. unfold Py.slice_to. destruct (Z.ltb_spec k 0); [lia|reflexivity].
Qed.

Section FindPrimitive.
Context {Ch : Chemistry} {Co : Core} {Sp : Spglib}.

Lemma Structure_new_sites (latt : matrix) (species : list Species)
    (cs : list vec) :
  List.length species = List.length cs ->
  exists s, Structure_new latt species cs = Ok s
            /\ lattice s = latt
            /\ map species_and_occu (sites s) = species
            /\ map frac_coords (sites s) = cs
            /\ List.length (sites s) = List.length cs.
Proof.
  intros Hlen. unfold Structure_new. rewrite Hlen, Nat.eqb_refl.
  eexists. split; [reflexivity|]. simpl. split; [reflexivity|].
  revert cs Hlen. induction species as [|sp species IH]; intros [|c cs] Hlen;
    simpl in *; try discriminate; try (repeat split; reflexivity).
  injection Hlen as Hlen. destruct (IH cs Hlen) as [H1 [H2 H3]].
  rewrite H1, H2, H3. repeat split; reflexivity.
Qed.

Lemma init_lengths (structure : Structure) (symprec angle_tolerance : R)
    (self : SymmetryFinder) :
  init structure symprec angle_tolerance = Ok self ->
  _structure self = structure
  /\ List.length (_positions self) = num_sites structure
  /\ List.length (_numbers self) = num_sites structure.
Proof.
  intros Hinit.
  destruct (init_species_tables _ _ _ _ Hinit) as [_ [_ Hall]].
  destruct (init_fields _ _ _ _ Hinit) as [Hs [_ [_ [_ [Hp _]]]]].
  split; [assumption|]. split.
  - rewrite Hp. apply length_map.
  - symmetry. unfold num_sites. eapply Forall2_length. eassumption.
Qed.

(** C5: on a session built by the constructor, when the primitive-cell
    search of spglib returns 0, [find_primitive] returns the structure the
    session was built from; when it returns a count [k > 0] (at most the
    number of sites, the first [k] species numbers being indices into the
    unique-species list, as the search leaves them), it returns a new
    structure of exactly [k] sites on the transposed lattice, whose species
    are the entries of the unique-species list at the 1-based indices and
    whose positions are the first [k] of the buffer. *)
Theorem find_primitive_zero_or_reduced
    (structure : Structure) (symprec angle_tolerance : R)
    (self : SymmetryFinder) (l' : matrix) (p' : list vec) (n' : list Z)
    (k : Z) :
  init structure symprec angle_tolerance = Ok self ->
  spg_primitive (_transposed_latt self) (_positions self) (_numbers self)
    (_symprec self) (_angle_tol self) = (l', p', n', k) ->
  (k = 0%Z -> find_primitive self = Ok structure)
  /\ ((0 < k <= Z.of_nat (num_sites structure))%Z ->
      Forall (fun z => (1 <= z <= Z.of_nat (List.length (_unique_species self)))%Z)
        (firstn (Z.to_nat k) n') ->
      exists prim,
        find_primitive self = Ok prim
        /\ List.length (sites prim) = Z.to_nat k
        /\ lattice prim = transpose l'
        /\ Forall2
             (fun s z =>
                Py.index (_unique_species self) (z - 1)
                = Ok (species_and_occu s))
             (sites prim) (firstn (Z.to_nat k) n')
        /\ map frac_coords (sites prim) = firstn (Z.to_nat k) p').
Proof.
  intros Hinit Hcall.
  destruct (init_lengths _ _ _ _ Hinit) as [Hst [Hlp Hln]].
  pose proof (spg_primitive_shape (_transposed_latt self) (_positions self)
                (_numbers self) (_symprec self) (_angle_tol self)) as Hshape.
  rewrite Hcall in Hshape. destruct Hshape as [Hp' Hn'].
  unfold find_primitive. rewrite Hcall. split.
  - intros ->. simpl. now rewrite Hst.
  - intros Hk Hvalid. rewrite !slice_to_positive by lia.
    destruct (mapM_Forall2
                (fun i => Py.index (_unique_species self) (i - 1)%Z)
                (firstn (Z.to_nat k) n')) as [sps [Hsps Hall]].
    { eapply Forall_impl; [|exact Hvalid]. intros z Hz.
      now apply index_valid. }
    unfold species_of. rewrite Hsps. simpl.
    destruct (Z.gtb_spec k 0); [|lia].
    assert (Hlen : List.length sps = List.length (firstn (Z.to_nat k) p')).
    { rewrite (Forall2_length Hall), !length_firstn. lia. }
    destruct (Structure_new_sites (transpose l') sps _ Hlen)
      as [prim [Hnew [Hlat [Hsp [Hfc Hl]]]]].
    exists prim. split; [exact Hnew|].
    split; [rewrite Hl, length_firstn; lia|].
    split; [exact Hlat|]. split; [|exact Hfc].
    rewrite <- Hsp in Hall. clear - Hall.
    remember (sites prim) as ss. remember (firstn (Z.to_nat k) n') as zs.
    clear Heqss Heqzs. revert zs Hall.
    induction ss as [|s ss IH]; intros zs Hall; inversion Hall; subst;
      constructor; auto.
Qed.
End FindPrimitive.

Lemma find_primitive_zero_or_reduced_witness :
  find_primitive (Sp := Example.spglib (Ok "Pm-3m (221)") 0 [])
    (Example.fe_o_session "Pm-3m (221)") = Ok Example.fe_o
  /\ exists prim,
       find_primitive (Sp := Example.spglib (Ok "Pm-3m (221)") 3 [])
         (Example.fe_o_session "Pm-3m (221)") = Ok prim
       /\ map species_and_occu (sites prim) = ["Fe"; "Fe"; "O"].
Proof.
  split.
  - apply (find_primitive_zero_or_reduced
             (Sp := Example.spglib (Ok "Pm-3m (221)") 0 [])
             Example.fe_o (1 / 100000) 5
             (Example.fe_o_session "Pm-3m (221)") _ _ _ 0%Z
             eq_refl eq_refl).
    reflexivity.
  - destruct (find_primitive_zero_or_reduced
                (Sp := Example.spglib (Ok "Pm-3m (221)") 3 [])
                Example.fe_o (1 / 100000) 5
                (Example.fe_o_session "Pm-3m (221)") _ _ _ 3%Z
                eq_refl eq_refl) as [_ Hk].
    destruct Hk as [prim [Hprim _]].
    + simpl. lia.
    + simpl. repeat constructor; lia.
    + exists prim. split; [exact Hprim|].
      unfold find_primitive in Hprim. simpl in Hprim.
      injection Hprim as <-. reflexivity.
Defined.

(** ** Irreducible k-points *)

Lemma index_nth {A} (l : list A) (i : nat) (a : A) :
  nth_error l i = Some a -> Py.index l (Z.of_nat i) = Ok a.
Proof.
  intros Hn. unfold Py.index.
  assert (Hlt : (i < List.length l)%nat)
    by (apply nth_error_Some; rewrite Hn; discriminate).
  destruct (Z.ltb_spec (Z.of_nat i) 0); [lia|].
  destruct (Z.leb_spec 0 (Z.of_nat i)); [|lia].
  destruct (Z.ltb_spec (Z.of_nat i) (Z.of_nat (List.length l))); [|lia].
  simpl. now rewrite Nat2Z.id, Hn.
Qed.

Lemma seen_before_bound (mapping : list Z) (i : nat) (v : Z) :
  In v (seen_before mapping i) -> (0 <= v < Z.of_nat i)%Z.
Proof.
  unfold seen_before. rewrite in_map_iff. intros [j [<- Hj]].
  apply filter_In in Hj. destruct Hj as [Hj _]. apply in_seq in Hj. lia.
Qed.

Lemma seen_before_S (mapping : list Z) (i : nat) :
  seen_before mapping (S i)
  = seen_before mapping i
    ++ (if represents_itself mapping i then [Z.of_nat i] else []).
Proof.
  unfold seen_before. rewrite seq_S, filter_app, map_app. simpl.
  destruct (represents_itself mapping i); reflexivity.
Qed.

Lemma ir_loop_representatives (mapping : list Z) :
  first_member_mapping mapping ->
  forall rest i irr,
    (i + List.length rest = List.length mapping)%nat ->
    ir_loop mapping (Z.of_nat i) rest irr (seen_before mapping i)
    = Ok (irr ++ representatives mapping i rest).
Proof.
  intros Hfirst. induction rest as [|kpts rest IH]; intros i irr Hlen.
  - simpl. unfold representatives. simpl. now rewrite app_nil_r.
  - simpl in Hlen. cbn [ir_loop].
    destruct (nth_error mapping i) as [m|] eqn:Hm;
      [|apply nth_error_None in Hm; lia].
    rewrite (index_nth _ _ _ Hm). cbn [Py.bind].
    destruct (Hfirst i m Hm) as [Hrange Hself].
    replace (Z.of_nat i + 1)%Z with (Z.of_nat (S i)) by lia.
    unfold representatives, enumerate_from. cbn [List.length seq combine filter fst].
    assert (Hrep : represents_itself mapping i = (m =? Z.of_nat i)%Z)
      by (unfold represents_itself; now rewrite Hm).
    destruct (Z.eqb_spec m (Z.of_nat i)) as [->|Hne].
    + assert (Hmem : Py.mem_Z (Z.of_nat i) (seen_before mapping i) = false).
      { destruct (Py.mem_Z _ _) eqn:E; [|reflexivity].
        apply mem_Z_In, seen_before_bound in E. lia. }
      rewrite Hmem, Hrep. cbn [negb map snd].
      replace (seen_before mapping i ++ [Z.of_nat i])
        with (seen_before mapping (S i))
        by (rewrite seen_before_S, Hrep; reflexivity).
      rewrite IH by lia. rewrite <- app_assoc. reflexivity.
    + assert (Hmem : Py.mem_Z m (seen_before mapping i) = true).
      { apply mem_Z_In. unfold seen_before. apply in_map_iff.
        exists (Z.to_nat m). split; [lia|]. apply filter_In. split.
        - apply in_seq. lia.
        - unfold represents_itself. rewrite Hself. apply Z.eqb_eq. lia. }
      rewrite Hmem, Hrep. cbn [negb].
      replace (seen_before mapping i) with (seen_before mapping (S i))
        by (rewrite seen_before_S, Hrep; apply app_nil_r).
      rewrite IH by lia. reflexivity.
Qed.

Lemma representatives_length (mapping : list Z) (kpoints : list vec) :
  forall start,
    List.length (representatives mapping start kpoints)
    = List.length (filter (represents_itself mapping)
                     (seq start (List.length kpoints))).
Proof.
  unfold representatives, enumerate_from.
  induction kpoints as [|k kpoints IH]; intros start; simpl; [reflexivity|].
  destruct (represents_itself mapping start); simpl; now rewrite IH.
Qed.

Lemma first_member_values (mapping : list Z) :
  first_member_mapping mapping ->
  NoDup (seen_before mapping (List.length mapping))
  /\ (forall v, In v mapping <-> In v (seen_before mapping (List.length mapping))).
Proof.
  intros Hfirst. split.
  - unfold seen_before. apply Injective_map_NoDup.
    + intros a b Hab. lia.
    + apply NoDup_filter, seq_NoDup.
  - intros v. split.
    + intros Hin. apply In_nth_error in Hin. destruct Hin as [i Hi].
      destruct (Hfirst i v Hi) as [Hr Hself].
      unfold seen_before. apply in_map_iff. exists (Z.to_nat v).
      split; [lia|]. apply filter_In. split.
      * apply in_seq. split; [lia|]. simpl.
        apply nth_error_Some. rewrite Hself. discriminate.
      * unfold represents_itself. rewrite Hself. apply Z.eqb_eq. lia.
    + unfold seen_before. rewrite in_map_iff. intros [j [<- Hj]].
      apply filter_In in Hj. destruct Hj as [_ Hj].
      unfold represents_itself in Hj.
      destruct (nth_error mapping j) as [m|] eqn:E; [|discriminate].
      apply Z.eqb_eq in Hj. subst m. eapply nth_error_In. eassumption.
Qed.

Section IrKpoints.
Context {Ch : Chemistry} {Sp : Spglib}.

Lemma get_ir_kpoints_mapping_length (self : SymmetryFinder)
    (kpoints : list vec) (tr : bool) :
  List.length (get_ir_kpoints_mapping self kpoints tr) = List.length kpoints.
Proof.
  unfold get_ir_kpoints_mapping. rewrite spg_ir_kpoints_shape.
  apply repeat_length.
Qed.

(** C9: spglib numbers a class of equivalent k-points by the first k-point
    of the class, so an entry of the mapping does not exceed its position
    and is mapped to itself.  For every k-point list and every such
    mapping, [get_ir_kpoints] returns without raising the k-points that
    stand for their own class, in order: as many as the mapping has
    distinct values, their mapping values pairwise distinct (no class is
    represented twice) and covering every value of the mapping (no class is
    omitted). *)
Theorem ir_kpoints_one_per_class (self : SymmetryFinder)
    (kpoints : list vec) (is_time_reversal : bool) :
  first_member_mapping (get_ir_kpoints_mapping self kpoints is_time_reversal) ->
  exists irr_kpts,
    get_ir_kpoints self kpoints is_time_reversal = Ok irr_kpts
    /\ irr_kpts
       = representatives
           (get_ir_kpoints_mapping self kpoints is_time_reversal) 0 kpoints
    /\ List.length irr_kpts
       = List.length
           (nodup Z.eq_dec
              (get_ir_kpoints_mapping self kpoints is_time_reversal))
    /\ NoDup (seen_before
                (get_ir_kpoints_mapping self kpoints is_time_reversal)
                (List.length kpoints))
    /\ (forall v,
          In v (get_ir_kpoints_mapping self kpoints is_time_reversal)
          <-> In v (seen_before
                      (get_ir_kpoints_mapping self kpoints is_time_reversal)
                      (List.length kpoints))).
Proof.
  intros Hfirst.
  pose proof (get_ir_kpoints_mapping_length self kpoints is_time_reversal)
    as Hlen.
  set (mapping := get_ir_kpoints_mapping self kpoints is_time_reversal) in *.
  destruct (first_member_values mapping Hfirst) as [Hnd Hin].
  rewrite Hlen in Hnd, Hin.
  exists (representatives mapping 0 kpoints).
  split.
  - unfold get_ir_kpoints. fold mapping.
    apply (ir_loop_representatives mapping Hfirst kpoints 0 []). lia.
  - split; [reflexivity|]. split; [|split; assumption].
    rewrite representatives_length.
    transitivity (List.length (seen_before mapping (List.length kpoints))).
    + unfold seen_before. now rewrite length_map.
    + apply Permutation_length, NoDup_Permutation;
        [assumption | apply NoDup_nodup |].
      intros v. rewrite nodup_In. symmetry. apply Hin.
Qed.
End IrKpoints.

Lemma ir_kpoints_one_per_class_witness :
  get_ir_kpoints
    (Sp := Example.spglib (Ok "P1 (1)") 0 [0; 0; 2]%Z)
    (Example.fe_o_session "P1 (1)")
    [Example.gamma_point; Example.gamma_point; Example.x_point] true
  = Ok [Example.gamma_point; Example.x_point].
Proof.
  destruct (ir_kpoints_one_per_class
              (Sp := Example.spglib (Ok "P1 (1)") 0 [0; 0; 2]%Z)
              (Example.fe_o_session "P1 (1)")
              [Example.gamma_point; Example.gamma_point; Example.x_point]
              true)
    as [irr [Hirr [Heq _]]].
  - intros [|[|[|i]]] m Hm; simpl in Hm; inversion Hm; subst;
      try (split; [lia | reflexivity]).
    destruct i; discriminate.
  - rewrite Hirr, Heq. reflexivity.
Defined.

(** ** The triclinic matrix *)

Lemma norm_of_square (v : vec) (x : R) :
  0 <= x -> dot v v = x * x -> Lattice.norm v = x.
Proof.
  intros Hx Hd. unfold Lattice.norm. rewrite Hd. now apply sqrt_square.
Qed.

Lemma angle_rad_of_cos (u v : vec) (x y t : R) :
  Lattice.norm u = x -> Lattice.norm v = y -> 0 < x -> 0 < y ->
  0 <= t <= PI -> dot u v = x * y * cos t ->
  Lattice.angle_rad u v = t.
Proof.
  intros Hu Hv Hx Hy Ht Hd. unfold Lattice.angle_rad.
  rewrite Hu, Hv, Hd.
  replace (x * y * cos t / (x * y)) with (cos t) by (field; lra).
  now apply acos_cos.
Qed.

Lemma sin_sq (x : R) : sin x * sin x = 1 - cos x * cos x.
Proof. pose proof (sin2_cos2 x) as H. unfold Rsqr in H. lra. Qed.

(** C8: for positive [a], [b], [c] and angles [alpha], [beta], [gamma]
    strictly between 0 and pi with
    sin^2 gamma - cos^2 alpha - cos^2 beta + 2 cos alpha cos beta cos gamma
    positive, the triclinic branch builds its matrix without raising, with
    the three rows of the closed form; the row norms are [a], [b], [c] and
    the angles between rows 1 and 2, rows 2 and 0, rows 0 and 1 are
    [alpha], [beta], [gamma]: the lengths and angles read back from the
    matrix are the ones it was built from, also in degrees, the unit the
    branch reads them in. *)
Theorem triclinic_matrix_roundtrip (a b c alpha beta gamma : R) :
  0 < a -> 0 < b -> 0 < c ->
  0 < alpha < PI -> 0 < beta < PI -> 0 < gamma < PI ->
  0 < sin gamma ^ 2 - cos alpha ^ 2 - cos beta ^ 2
      + 2 * cos alpha * cos beta * cos gamma ->
  exists m,
    triclinic_matrix a b c alpha beta gamma = Ok m
    /\ row m 0 = (a, 0, 0)
    /\ row m 1 = (b * cos gamma, b * sin gamma, 0)
    /\ row m 2
       = (c * cos beta,
          c * (cos alpha - cos beta * cos gamma) / sin gamma,
          c * sqrt (sin gamma ^ 2 - cos alpha ^ 2 - cos beta ^ 2
                    + 2 * cos alpha * cos beta * cos gamma) / sin gamma)
    /\ Lattice.abc m = [a; b; c]
    /\ Lattice.angle_rad (row m 1) (row m 2) = alpha
    /\ Lattice.angle_rad (row m 2) (row m 0) = beta
    /\ Lattice.angle_rad (row m 0) (row m 1) = gamma
    /\ Lattice.lengths_and_angles m
       = ([a; b; c],
          [Lattice.degrees alpha; Lattice.degrees beta;
           Lattice.degrees gamma])
    /\ (forall A B C,
          alpha = PI * A / 180 -> beta = PI * B / 180 ->
          gamma = PI * C / 180 ->
          Lattice.lengths_and_angles m = ([a; b; c], [A; B; C])).
Proof.
  intros Ha Hb Hc Halpha Hbeta Hgamma Hd.
  assert (Hs : 0 < sin gamma) by (apply sin_gt_0; lra).
  pose proof (sin_sq gamma) as Hs2.
  assert (Hcg : 1 - cos gamma * cos gamma <> 0) by nra.
  unfold triclinic_matrix.
  destruct (Req_EM_T (sin gamma) 0) as [E|_]; [lra|].
  destruct (Rlt_dec _ 0) as [E|_]; [lra|].
  eexists. split; [reflexivity|]. cbn [row].
  set (d := sin gamma ^ 2 - cos alpha ^ 2 - cos beta ^ 2
            + 2 * cos alpha * cos beta * cos gamma) in *.
  assert (Hq : sqrt d * sqrt d = d) by (apply sqrt_sqrt; lra).
  assert (Hdv : d = 1 - cos gamma * cos gamma - cos alpha * cos alpha
                    - cos beta * cos beta
                    + 2 * cos alpha * cos beta * cos gamma).
  { unfold d. replace (sin gamma ^ 2) with (sin gamma * sin gamma) by ring.
    rewrite Hs2. ring. }
  assert (N0 : Lattice.norm (a, 0, 0) = a).
  { apply norm_of_square; [lra|]. simpl. ring. }
  assert (N1 : Lattice.norm (b * cos gamma, b * sin gamma, 0) = b).
  { apply norm_of_square; [lra|]. simpl.
    replace (b * cos gamma * (b * cos gamma) + b * sin gamma * (b * sin gamma)
             + 0 * 0)
      with (b * b * (cos gamma * cos gamma + sin gamma * sin gamma)) by ring.
    rewrite Hs2. ring. }
  assert (N2 : Lattice.norm
                 (c * cos beta,
                  c * (cos alpha - cos beta * cos gamma) / sin gamma,
                  c * sqrt d / sin gamma) = c).
  { apply norm_of_square; [lra|]. simpl.
    replace (c * cos beta * (c * cos beta)
             + c * (cos alpha - cos beta * cos gamma) / sin gamma
               * (c * (cos alpha - cos beta * cos gamma) / sin gamma)
             + c * sqrt d / sin gamma * (c * sqrt d / sin gamma))
      with (c * c * (cos beta * cos beta)
            + c * c * ((cos alpha - cos beta * cos gamma)
                       * (cos alpha - cos beta * cos gamma)
                       + sqrt d * sqrt d) / (sin gamma * sin gamma))
      by (field; lra).
    rewrite Hq, Hdv, Hs2. field. exact Hcg. }
  assert (A1 : Lattice.angle_rad
                 (b * cos gamma, b * sin gamma, 0)
                 (c * cos beta,
                  c * (cos alpha - cos beta * cos gamma) / sin gamma,
                  c * sqrt d / sin gamma) = alpha).
  { apply (angle_rad_of_cos _ _ b c); try assumption; [lra|].
    simpl. field. lra. }
  assert (A2 : Lattice.angle_rad
                 (c * cos beta,
                  c * (cos alpha - cos beta * cos gamma) / sin gamma,
                  c * sqrt d / sin gamma) (a, 0, 0) = beta).
  { apply (angle_rad_of_cos _ _ c a); try assumption; [lra|].
    simpl. field. lra. }
  assert (A3 : Lattice.angle_rad (a, 0, 0)
                 (b * cos gamma, b * sin gamma, 0) = gamma).
  { apply (angle_rad_of_cos _ _ a b); try assumption; [lra|].
    simpl. ring. }
  unfold Lattice.lengths_and_angles, Lattice.angles, Lattice.abc.
  cbn [row]. rewrite N0, N1, N2, A1, A2, A3.
  repeat split; try reflexivity.
  intros A B C -> -> ->. unfold Lattice.degrees.
  pose proof PI_RGT_0 as Hpi.
  repeat f_equal; field; lra.
Qed.

Lemma triclinic_matrix_roundtrip_witness :
  exists m,
    triclinic_matrix 3 4 5 (PI / 2) (PI / 2) (PI / 2) = Ok m
    /\ Lattice.abc m = [3; 4; 5]
    /\ Lattice.angle_rad (row m 1) (row m 2) = PI / 2.
Proof.
  pose proof PI_RGT_0 as Hpi.
  destruct (triclinic_matrix_roundtrip 3 4 5 (PI / 2) (PI / 2) (PI / 2))
    as [m [Hm [_ [_ [_ [Habc [Halpha _]]]]]]]; try lra.
  - rewrite sin_PI2, cos_PI2. lra.
  - exists m. repeat split; assumption.
Defined.

(** ** The conventional standard structure *)

Section SortFacts.
Context {A : Type} (ltb : A -> A -> bool).

Lemma insert_sorted_perm (x : A) (l : list A) :
  Permutation (insert_sorted ltb x l) (x :: l).
Proof.
  induction l as [|y l IH]; simpl; [reflexivity|].
  destruct (ltb y x); [|reflexivity].
  rewrite IH. apply perm_swap.
Qed.

Lemma sorted_perm (l : list A) : Permutation (sorted ltb l) l.
Proof.
  induction l as [|x l IH]; simpl; [reflexivity|].
  rewrite insert_sorted_perm. now constructor.
Qed.

Lemma sorted_length (l : list A) :
  List.length (sorted ltb l) = List.length l.
Proof. apply Permutation_length, sorted_perm. Qed.

Hypothesis ltb_asym : forall a b, ltb a b = true -> ltb b a = false.

Lemma insert_sorted_Sorted (x : A) (l : list A) :
  Sorted (in_order ltb) l -> Sorted (in_order ltb) (insert_sorted ltb x l).
Proof.
  induction 1 as [|y l Hl IH Hhd]; simpl.
  - repeat constructor.
  - destruct (ltb y x) eqn:E.
    + constructor; [exact IH|].
      destruct l as [|z l]; simpl.
      * constructor. now apply ltb_asym.
      * destruct (ltb z x); constructor.
        -- now inversion Hhd.
        -- now apply ltb_asym.
    + constructor; [now constructor|]. constructor. exact E.
Qed.

Lemma sorted_Sorted (l : list A) : Sorted (in_order ltb) (sorted ltb l).
Proof.
  induction l as [|x l IH]; simpl; [constructor|].
  now apply insert_sorted_Sorted.
Qed.
End SortFacts.

Lemma matrix_eqb_refl (m : matrix) : matrix_eqb m m = true.
Proof. unfold matrix_eqb. destruct (matrix_eq_dec m m); congruence. Qed.

Lemma matrix_eqb_eq (a b : matrix) : matrix_eqb a b = true -> a = b.
Proof. unfold matrix_eqb. destruct (matrix_eq_dec a b); congruence. Qed.

Section SiteLists.
Context {Ch : Chemistry} {Co : Core}.

Lemma from_sites_on_lattice (m : matrix) (l : list PeriodicSite) :
  l <> [] -> on_lattice m l -> from_sites l = Ok (mkStructure m l).
Proof.
  intros Hne Hall. destruct l as [|s0 l]; [contradiction|].
  unfold from_sites.
  assert (Hs0 : site_lattice s0 = m) by now inversion Hall.
  rewrite Hs0.
  assert (Hf : forallb (fun s => matrix_eqb (site_lattice s) m) (s0 :: l)
               = true).
  { apply forallb_forall. intros s Hs.
    unfold on_lattice in Hall. rewrite Forall_forall in Hall.
    rewrite (Hall s Hs). apply matrix_eqb_refl. }
  now rewrite Hf.
Qed.

Lemma from_sites_Ok (l : list PeriodicSite) (r : Structure) :
  from_sites l = Ok r ->
  l <> [] /\ sites r = l /\ on_lattice (lattice r) l.
Proof.
  destruct l as [|s0 l]; [discriminate|]. unfold from_sites.
  destruct (forallb _ (s0 :: l)) eqn:E; [|discriminate].
  intros H. inversion H. simpl. split; [discriminate|]. split; [reflexivity|].
  apply Forall_forall. intros s Hs.
  rewrite forallb_forall in E. now apply matrix_eqb_eq, E.
Qed.

Lemma get_sorted_structure_Ok (s : Structure) :
  sites s <> [] -> on_lattice (lattice s) (sites s) ->
  get_sorted_structure s
  = Ok (mkStructure (lattice s) (sorted site_ltb (sites s))).
Proof.
  intros Hne Hall. unfold get_sorted_structure.
  apply from_sites_on_lattice.
  - intros E. apply Hne. apply length_zero_iff_nil.
    rewrite <- (sorted_length site_ltb), E. reflexivity.
  - unfold on_lattice in *. rewrite Forall_forall in *. intros x Hx.
    apply Hall. eapply Permutation_in; [apply sorted_perm | exact Hx].
Qed.


Lemma place_sites_total (l : list PeriodicSite) (f : PeriodicSite -> vec)
    (m : matrix) (u c : bool) :
  place_sites l (fun s => Ok (f s)) (Some m) u c
  = Ok (map (fun s => PeriodicSite_new (species_and_occu s) (f s) m u c
                        (properties s)) l).
Proof.
  unfold place_sites. induction l as [|s l IH]; [reflexivity|].
  cbn [mapM map]. rewrite IH. reflexivity.
Qed.

End SiteLists.

Lemma opt_string_eqb_eq (a : option string) (b : string) :
  opt_string_eqb a b = true <-> a = Some b.
Proof.
  destruct a as [s|]; simpl.
  - rewrite String.eqb_eq. split; congruence.
  - split; discriminate.
Qed.

Lemma opt_string_eqb_neq (a : option string) (b : string) :
  a <> Some b -> opt_string_eqb a b = false.
Proof.
  intros Hne. destruct (opt_string_eqb a b) eqn:E; [|reflexivity].
  apply opt_string_eqb_eq in E. contradiction.
Qed.

Section ConventionalSites.
Context {Ch : Chemistry} {Co : Core} {Sp : Spglib}.





End ConventionalSites.

Section ConventionalTheorem.
Context {Ch : Chemistry} {Co : Core} {Sp : Spglib}.


Lemma get_refined_structure_Ok (self : SymmetryFinder) (latt : matrix)
    (pos : list vec) (numbers : list Z) (k : Z) (species : list Species) :
  spg_refine_cell (_transposed_latt self)
    (_positions self ++ repeat vzero (3 * num_sites (_structure self)))
    (_numbers self ++ repeat 0%Z (3 * num_sites (_structure self)))
    (Z.of_nat (num_sites (_structure self))) (_symprec self)
    (_angle_tol self) = (latt, pos, numbers, k) ->
  species_of self (Py.slice_to numbers k) = Ok species ->
  species <> [] ->
  List.length species = List.length (Py.slice_to pos k) ->
  get_refined_structure self
  = Ok (mkStructure (transpose latt)
          (sorted site_ltb
             (map (fun '(sp, c) => mkSite sp c (transpose latt) no_properties)
                (combine species (Py.slice_to pos k))))).
Proof.
  intros Hcall Hsp Hne Hlen. unfold get_refined_structure.
  rewrite Hcall, Hsp. simpl. unfold Structure_new.
  rewrite Hlen, Nat.eqb_refl. simpl.
  apply (get_sorted_structure_Ok (mkStructure _ _)); simpl.
  - destruct species as [|sp species]; [contradiction|].
    destruct (Py.slice_to pos k); [discriminate|discriminate].
  - apply Forall_forall. intros s Hs. apply in_map_iff in Hs.
    destruct Hs as [[sp c] [<- _]]. reflexivity.
Qed.

Lemma conventional_orthorhombic_Ok (self : SymmetryFinder)
    (struct : Structure) (symbol : string) :
  get_spacegroup_symbol self = Ok symbol ->
  sites struct <> [] ->
  exists transf new_matrix,
    conventional_orthorhombic self struct
    = Ok (mkStructure new_matrix
            (map (fun s =>
                    PeriodicSite_new (species_and_occu s)
                      (mat_vec transf (frac_coords s)) new_matrix true false
                      (properties s))
               (sites struct))).
Proof.
  intros Hsym Hne. unfold conventional_orthorhombic. rewrite Hsym. simpl.
  destruct (Py.startswith _ symbol); cbv beta iota zeta;
    rewrite place_sites_total; simpl;
    eexists; eexists; apply from_sites_on_lattice.
  all: try (destruct (sites struct); [contradiction | discriminate]).
  all: apply Forall_forall; intros s Hs; apply in_map_iff in Hs;
    destruct Hs as [s' [<- _]]; reflexivity.
Qed.
End ConventionalTheorem.





Section ExampleRuns.
#[local] Existing Instance Example.chemistry.
#[local] Existing Instance Example.core.

Lemma example_sessions_built_by_init (data : string) :
  init (Sp := Example.spglib (Ok data) 0 []) Example.fe_o (1 / 100000) 5
  = Ok (Example.fe_o_session data)
  /\ init (Sp := Example.spglib (Ok data) 0 []) Example.dup (1 / 100000) 5
     = Ok (Example.dup_session data)
  /\ init (Sp := Example.spglib (Ok data) 0 []) Example.bcc (1 / 100000) 5
     = Ok (Example.bcc_session data).
Proof. repeat split. Qed.


End ExampleRuns.

(** ** The primitive standard structure *)

Section PrimitiveFacts.
Context {Ch : Chemistry} {Co : Core} {Sp : Spglib}.

Lemma add_unique_on_lattice (m : matrix) (acc : list PeriodicSite)
    (t : PeriodicSite) :
  on_lattice m acc -> site_lattice t = m ->
  on_lattice m (add_unique acc t) /\ add_unique acc t <> [].
Proof.
  intros Hacc Ht. unfold add_unique.
  destruct acc as [|a acc].
  - simpl. split; [repeat constructor; assumption | discriminate].
  - destruct (fold_left _ (a :: acc) true).
    + split; [|discriminate].
      apply Forall_app. split; [assumption | now repeat constructor].
    + split; [assumption | discriminate].
Qed.

Lemma unique_sites_on_lattice (m : matrix)
    (make : PeriodicSite -> result PeriodicSite) (l : list PeriodicSite) :
  (forall s, exists t, make s = Ok t /\ site_lattice t = m) ->
  forall acc,
    on_lattice m acc ->
    exists new_sites,
      fold_left
        (fun acc s =>
           new_sites <- acc ;;
           new_s <- make s ;;
           Ok (add_unique new_sites new_s))
        l (Ok acc) = Ok new_sites
      /\ on_lattice m new_sites
      /\ (acc <> [] \/ l <> [] -> new_sites <> []).
Proof.
  intros Hmake. induction l as [|s l IH]; intros acc Hacc.
  - exists acc. simpl. split; [reflexivity|]. split; [assumption|].
    intros [H|H]; [assumption | contradiction].
  - cbn [fold_left Py.bind]. destruct (Hmake s) as [t [Ht Hm]].
    rewrite Ht. cbn [Py.bind].
    destruct (add_unique_on_lattice m acc t Hacc Hm) as [Hon Hne].
    destruct (IH _ Hon) as [new_sites [Hf [Hon' Hne']]].
    exists new_sites. split; [exact Hf|]. split; [assumption|].
    intros _. apply Hne'. now left.
Qed.

Lemma conventional_sites_nonempty (self : SymmetryFinder)
    (conv : Structure) :
  get_conventional_standard_structure self = Ok conv -> sites conv <> [].
Proof.
  unfold get_conventional_standard_structure.
  destruct (get_refined_structure self) as [struct|e]; simpl;
    [|discriminate].
  destruct (get_lattice_type self) as [lattice_type|e]; simpl;
    [|discriminate].
  destruct (conventional_results self struct lattice_type) as [[r0|]|e];
    simpl; try discriminate.
  intros Hs. apply from_sites_Ok in Hs. destruct Hs as [Hne [Hs _]].
  now rewrite Hs.
Qed.

(** C3: [get_primitive_standard_structure] returns what
    [get_conventional_standard_structure] returns whenever "P" occurs in the
    space-group symbol or the lattice type is hexagonal.  Otherwise, on a
    lattice that is not rhombohedral, it returns a structure whose lattice
    matrix is [T . M_conv], [M_conv] the conventional lattice matrix and
    [T] chosen by the centring letter found in the symbol, tested in the
    order I, F, C: half of [[-1,1,1],[1,-1,1],[1,1,-1]] for I, half of
    [[0,1,1],[1,0,1],[1,1,0]] for F, half of [[1,1,0],[-1,1,0],[0,0,2]] for
    C in the monoclinic system and half of [[1,-1,0],[1,1,0],[0,0,2]] for C
    otherwise. *)
Theorem primitive_standard_structure_by_centring
    (self : SymmetryFinder) (symbol : string)
    (lattice_type system : option string) :
  get_spacegroup_symbol self = Ok symbol ->
  get_lattice_type self = Ok lattice_type ->
  get_crystal_system self = Ok system ->
  (Py.contains "P"%char symbol = true \/ lattice_type = Some "hexagonal" ->
   get_primitive_standard_structure self
   = get_conventional_standard_structure self)
  /\ (Py.contains "P"%char symbol = false ->
      lattice_type <> Some "hexagonal" ->
      lattice_type <> Some "rhombohedral" ->
      forall (T : matrix) (conv : Structure),
        (Py.contains "I"%char symbol = true
         /\ T = mat_half ((-1, 1, 1), (1, -1, 1), (1, 1, -1)))
        \/ (Py.contains "I"%char symbol = false
            /\ Py.contains "F"%char symbol = true
            /\ T = mat_half ((0, 1, 1), (1, 0, 1), (1, 1, 0)))
        \/ (Py.contains "I"%char symbol = false
            /\ Py.contains "F"%char symbol = false
            /\ Py.contains "C"%char symbol = true
            /\ system = Some "monoclinic"
            /\ T = mat_half ((1, 1, 0), (-1, 1, 0), (0, 0, 2)))
        \/ (Py.contains "I"%char symbol = false
            /\ Py.contains "F"%char symbol = false
            /\ Py.contains "C"%char symbol = true
            /\ system <> Some "monoclinic"
            /\ T = mat_half ((1, -1, 0), (1, 1, 0), (0, 0, 2))) ->
        get_conventional_standard_structure self = Ok conv ->
        exists prim,
          get_primitive_standard_structure self = Ok prim
          /\ lattice prim = mat_mul T (lattice conv)).
Proof.
  intros Hsym Hlat Hsys. unfold get_primitive_standard_structure.
  rewrite Hlat, Hsym. split.
  - intros Hp.
    assert (Hb : (Py.contains "P"%char symbol
                  || opt_string_eqb lattice_type "hexagonal")%bool = true).
    { destruct Hp as [Hp| ->]; [now rewrite Hp|].
      simpl. apply orb_true_r. }
    destruct (get_conventional_standard_structure self); simpl;
      [now rewrite Hb | reflexivity].
  - intros Hp Hhex Hrh T conv Hcases Hconv. rewrite Hconv. cbn [Py.bind].
    rewrite Hp, (opt_string_eqb_neq _ _ Hhex), (opt_string_eqb_neq _ _ Hrh).
    cbn [orb].
    assert (Htr : centring_transf self symbol = Ok T).
    { unfold centring_transf. rewrite Hsys. cbn [Py.bind].
      destruct Hcases as [[HI ->]|[[HI [HF ->]]|[[HI [HF [HC [Hm ->]]]]
                                                |[HI [HF [HC [Hm ->]]]]]]];
        rewrite ?HI, ?HF, ?HC; try reflexivity.
      - subst system. reflexivity.
      - now rewrite (opt_string_eqb_neq _ _ Hm). }
    rewrite Htr. cbn [Py.bind].
    destruct (unique_sites_on_lattice (mat_mul T (lattice conv))
                (fun s =>
                   latt <- Lattice_new (Some (mat_mul T (lattice conv))) ;;
                   Ok (PeriodicSite_new (species_and_occu s) (coords s)
                         latt true true (properties s)))
                (sites conv)
                ltac:(intros s; eexists; split; reflexivity)
                [] ltac:(constructor))
      as [new_sites [Hf [Hon Hne]]].
    unfold unique_sites. rewrite Hf. cbn [Py.bind].
    rewrite (from_sites_on_lattice (mat_mul T (lattice conv)) new_sites).
    + eexists. split; reflexivity.
    + apply Hne. right. eapply conventional_sites_nonempty. eassumption.
    + assumption.
Qed.
End PrimitiveFacts.

Section OrthorhombicRuns.
Context {Ch : Chemistry} {Co : Core} {Sp : Spglib}.

Lemma conventional_orthorhombic_cubic_Ok (self : SymmetryFinder)
    (struct : Structure) (symbol : string) (lattice_type : option string) :
  get_refined_structure self = Ok struct ->
  sites struct <> [] ->
  get_lattice_type self = Ok lattice_type ->
  lattice_type = Some "orthorhombic" \/ lattice_type = Some "cubic" ->
  get_spacegroup_symbol self = Ok symbol ->
  exists transf new_matrix,
    get_conventional_standard_structure self
    = Ok (mkStructure new_matrix
            (sorted site_ltb
               (map (fun s =>
                       PeriodicSite_new (species_and_occu s)
                         (mat_vec transf (frac_coords s)) new_matrix true
                         false (properties s))
                  (sites struct)))).
Proof.
  intros Href Hne Hlat Hlt Hsym.
  unfold get_conventional_standard_structure. rewrite Href, Hlat.
  cbn [Py.bind].
  assert (Hres : conventional_results self struct lattice_type
                 = (r <- conventional_orthorhombic self struct ;;
                    Ok (Some r))).
  { unfold conventional_results. destruct Hlt as [-> | ->]; reflexivity. }
  rewrite Hres.
  destruct (conventional_orthorhombic_Ok self struct symbol Hsym Hne)
    as [transf [new_matrix Hconv]].
  rewrite Hconv. cbn [Py.bind]. exists transf, new_matrix.
  apply (get_sorted_structure_Ok (mkStructure _ _)); simpl.
  - destruct (sites struct); [contradiction | discriminate].
  - apply Forall_forall. intros s Hs. apply in_map_iff in Hs.
    destruct Hs as [s' [<- _]]. reflexivity.
Qed.
End OrthorhombicRuns.

Section ExampleRuns2.
#[local] Existing Instance Example.chemistry.
#[local] Existing Instance Example.core.

Lemma bcc_refined (data : string) :
  get_refined_structure (Sp := Example.spglib (Ok data) 2 [])
    (Example.bcc_session data)
  = Ok (mkStructure (transpose (transpose eye))
          [mkSite "Fe" (0, 0, 0) (transpose (transpose eye)) tt;
           mkSite "Fe" (1 / 2, 1 / 2, 1 / 2) (transpose (transpose eye)) tt]).
Proof.
  pose proof (get_refined_structure_Ok (Co := Example.core)
                (Sp := Example.spglib (Ok data) 2 [])
                (Example.bcc_session data) (transpose eye)
                ([(0, 0, 0); (1 / 2, 1 / 2, 1 / 2)] ++ repeat vzero 6)
                ([1; 1]%Z ++ repeat 0%Z 6) 2 ["Fe"; "Fe"]
                eq_refl eq_refl) as Href.
  specialize (Href ltac:(discriminate) eq_refl). exact Href.
Qed.

Lemma bcc_conventional :
  exists conv,
    get_conventional_standard_structure
      (Sp := Example.spglib (Ok "Im-3m (229)") 2 [])
      (Example.bcc_session "Im-3m (229)") = Ok conv.
Proof.
  destruct (conventional_orthorhombic_cubic_Ok
              (Sp := Example.spglib (Ok "Im-3m (229)") 2 [])
              (Example.bcc_session "Im-3m (229)") _ "Im-3m" (Some "cubic")
              (bcc_refined "Im-3m (229)")) as [transf [m Hconv]];
    try reflexivity; [discriminate | now right |].
  eexists. exact Hconv.
Qed.

Lemma primitive_standard_structure_by_centring_witness :
  exists conv prim,
    get_conventional_standard_structure
      (Sp := Example.spglib (Ok "Im-3m (229)") 2 [])
      (Example.bcc_session "Im-3m (229)") = Ok conv
    /\ get_primitive_standard_structure
         (Sp := Example.spglib (Ok "Im-3m (229)") 2 [])
         (Example.bcc_session "Im-3m (229)") = Ok prim
    /\ lattice prim
       = mat_mul (mat_half ((-1, 1, 1), (1, -1, 1), (1, 1, -1)))
           (lattice conv).
Proof.
  destruct bcc_conventional as [conv Hconv].
  destruct (primitive_standard_structure_by_centring
              (Sp := Example.spglib (Ok "Im-3m (229)") 2 [])
              (Example.bcc_session "Im-3m (229)") "Im-3m" (Some "cubic")
              (Some "cubic") eq_refl eq_refl eq_refl) as [_ Hcentred].
  destruct (Hcentred eq_refl ltac:(discriminate) ltac:(discriminate)
              (mat_half ((-1, 1, 1), (1, -1, 1), (1, 1, -1))) conv
              (or_introl (conj eq_refl eq_refl)) Hconv)
    as [prim [Hprim Hlat]].
  exists conv, prim. repeat split; assumption.
Defined.
End ExampleRuns2.

(** ** The monoclinic fallback *)

Lemma Rltb_irrefl (x : R) : Rltb x x = false.
Proof. unfold Rltb. destruct (Rlt_dec x x); [lra | reflexivity]. Qed.

Lemma mono_step_C_right_angle (m : matrix) (st : mono_locals)
    (t : nat * nat) :
  first_angle m (fst t) (snd t) 2 = 90 -> mono_step_C m st t = st.
Proof.
  destruct t as [t0 t1]. unfold first_angle, mono_step_C. cbv zeta.
  cbn [fst snd]. intros E. rewrite E, Rltb_irrefl. reflexivity.
Qed.

Lemma mono_step_right_angle (m : matrix) (st : mono_locals)
    (t : nat * nat * nat) :
  first_angle m (fst (fst t)) (snd (fst t)) (snd t) = 90 ->
  mono_step m st t = st.
Proof.
  destruct t as [[t0 t1] t2]. unfold first_angle, mono_step. cbv zeta.
  cbn [fst snd]. intros E. rewrite E, Rltb_irrefl. reflexivity.
Qed.

Lemma monoclinic_C_locals_right_angles (m : matrix) :
  (forall t, In t permutations2 -> first_angle m (fst t) (snd t) 2 = 90) ->
  monoclinic_C_locals m = Raise (UnboundLocalError "alpha").
Proof.
  intros Hall. unfold monoclinic_C_locals, permutations2.
  cbn [fold_left].
  rewrite !mono_step_C_right_angle by (apply Hall; simpl; auto).
  reflexivity.
Qed.

Lemma monoclinic_locals_right_angles (m : matrix) (sorted_dic : list axis) :
  (forall t, In t permutations3 ->
             first_angle m (fst (fst t)) (snd (fst t)) (snd t) = 90) ->
  l_new_matrix (monoclinic_locals m sorted_dic) = None
  /\ l_trans (monoclinic_locals m sorted_dic) <> None.
Proof.
  intros Hall. unfold monoclinic_locals, permutations3.
  cbn [fold_left].
  rewrite !mono_step_right_angle by (apply Hall; simpl; auto 10).
  simpl. split; [reflexivity | discriminate].
Qed.

Section MonoclinicFallback.
Context {Ch : Chemistry} {Co : Core} {Sp : Spglib}.

Lemma place_sites_without_matrix (l : list PeriodicSite)
    (position : PeriodicSite -> result vec) (u c : bool) :
  (forall s, exists p, position s = Ok p) ->
  (new_sites <- place_sites l position None u c ;; from_sites new_sites)
  = Raise ValueError.
Proof.
  intros Hpos. destruct l as [|s l]; [reflexivity|].
  unfold place_sites. cbn [mapM]. destruct (Hpos s) as [p ->]. reflexivity.
Qed.

(** C1, on the code: in a monoclinic cell none of whose examined axis
    permutations has a first angle different from 90 degrees,
    [get_conventional_standard_structure] returns no fallback cell.  With a
    C-centred symbol the first fallback test reads [alpha], which no
    assignment has reached, and [UnboundLocalError] is raised; the second
    fallback, which would build the axis-aligned cell, is never reached.
    With another symbol [new_matrix] is left [None] and building the
    lattice of the new sites raises. *)
Theorem monoclinic_fallback_raises (self : SymmetryFinder)
    (struct : Structure) (sg : Spacegroup) :
  get_refined_structure self = Ok struct ->
  get_lattice_type self = Ok (Some "monoclinic") ->
  get_spacegroup self = Ok sg ->
  (Py.startswith "C"%char (int_symbol sg) = true ->
   (forall t, In t permutations2 ->
              first_angle (lattice struct) (fst t) (snd t) 2 = 90) ->
   get_conventional_standard_structure self
   = Raise (UnboundLocalError "alpha"))
  /\ (Py.startswith "C"%char (int_symbol sg) = false ->
      (forall t, In t permutations3 ->
                 first_angle (lattice struct)
                   (fst (fst t)) (snd (fst t)) (snd t) = 90) ->
      exists e, get_conventional_standard_structure self = Raise e).
Proof.
  intros Href Hlat Hsg.
  unfold get_conventional_standard_structure. rewrite Href, Hlat.
  cbn [Py.bind].
  assert (Hres : forall st,
             conventional_results self st (Some "monoclinic")
             = (r <- conventional_monoclinic self st
                       (sorted_by axis_length (axes3 (lattice st))) ;;
                Ok (Some r))) by reflexivity.
  rewrite Hres. unfold conventional_monoclinic. rewrite Hsg.
  cbn [Py.bind]. split; intros HC Hangles; rewrite HC.
  - now rewrite (monoclinic_C_locals_right_angles _ Hangles).
  - cbn [Py.bind].
    destruct (monoclinic_locals_right_angles (lattice struct)
                (sorted_by axis_length (axes3 (lattice struct))) Hangles)
      as [Hnm Htr].
    rewrite Hnm. rewrite place_sites_without_matrix;
      [eexists; reflexivity|].
    intros s. destruct (l_trans _) as [trans|]; [|contradiction].
    eexists. reflexivity.
Qed.
End MonoclinicFallback.

Lemma first_angle_orthogonal (m : matrix) (t0 t1 t2 : nat) :
  dot (row m t1) (row m t2) = 0 -> first_angle m t0 t1 t2 = 90.
Proof.
  intros Hdot. unfold first_angle, Lattice.lengths_and_angles,
    Lattice.angles, at3, Lattice.angle_rad, Lattice.degrees.
  cbn [snd nth row]. rewrite Hdot.
  replace (0 / _) with 0 by (unfold Rdiv; ring).
  rewrite acos_0. field. apply PI_neq0.
Qed.

Section SpacegroupFacts.
Context {Ch : Chemistry} {Co : Core} {Sp : Spglib}.

Lemma get_spacegroup_Ok (self : SymmetryFinder) (symbol : string)
    (number : Z) :
  get_spacegroup_symbol self = Ok symbol ->
  get_spacegroup_number self = Ok number ->
  det (transpose (lattice (_structure self))) <> 0 ->
  exists ops, get_spacegroup self = Ok (mkSpacegroup symbol number ops).
Proof.
  intros Hsym Hnum Hdet. unfold get_spacegroup. rewrite Hsym, Hnum.
  cbn [Py.bind]. unfold get_symmetry_operations.
  destruct (_get_symmetry self) as [rotation translation].
  unfold linalg_inv.
  destruct (transpose (lattice (_structure self)))
    as [[[[a b] c] [[d e] f]] [[g h] i]] eqn:Em.
  destruct (Req_EM_T _ 0) as [E|_]; [contradiction|].
  cbn [Py.bind]. eexists. reflexivity.
Qed.
End SpacegroupFacts.

Section ExampleRuns3.
#[local] Existing Instance Example.chemistry.
#[local] Existing Instance Example.core.

Lemma unit_cube_det : det (transpose (lattice Example.fe_o)) <> 0.
Proof. simpl. lra. Qed.

Lemma fe_o_refined (data : string) :
  exists rsites,
    get_refined_structure (Sp := Example.spglib (Ok data) 4 [])
      (Example.fe_o_session data)
    = Ok (mkStructure (transpose (transpose eye)) rsites).
Proof.
  pose proof (get_refined_structure_Ok (Co := Example.core)
                (Sp := Example.spglib (Ok data) 4 [])
                (Example.fe_o_session data) (transpose eye)
                (_positions (Example.fe_o_session data) ++ repeat vzero 12)
                ([1; 1; 2; 1]%Z ++ repeat 0%Z 12) 4
                ["Fe"; "Fe"; "O"; "Fe"] eq_refl eq_refl) as Href.
  specialize (Href ltac:(discriminate) eq_refl).
  eexists. exact Href.
Qed.

Lemma unit_cube_right_angles (t0 t1 t2 : nat) :
  (t1 <> t2)%nat -> (t1 <= 2)%nat -> (t2 <= 2)%nat ->
  first_angle (transpose (transpose eye)) t0 t1 t2 = 90.
Proof.
  intros Hne H1 H2. apply first_angle_orthogonal.
  destruct t1 as [|[|[|t1]]]; destruct t2 as [|[|[|t2]]]; try lia;
    simpl; ring.
Qed.

Lemma monoclinic_fallback_raises_witness :
  get_conventional_standard_structure
    (Sp := Example.spglib (Ok "C2/m (12)") 4 [])
    (Example.fe_o_session "C2/m (12)")
  = Raise (UnboundLocalError "alpha")
  /\ exists e,
       get_conventional_standard_structure
         (Sp := Example.spglib (Ok "P2/m (10)") 4 [])
         (Example.fe_o_session "P2/m (10)")
       = Raise e.
Proof.
  split.
  - destruct (fe_o_refined "C2/m (12)") as [rsites Href].
    destruct (get_spacegroup_Ok
                (Sp := Example.spglib (Ok "C2/m (12)") 4 [])
                (Example.fe_o_session "C2/m (12)") "C2/m" 12
                eq_refl eq_refl unit_cube_det) as [ops Hsg].
    apply (monoclinic_fallback_raises
             (Sp := Example.spglib (Ok "C2/m (12)") 4 [])
             _ _ _ Href eq_refl Hsg); [reflexivity|].
    intros [t0 t1] Hin. simpl in Hin.
    destruct Hin as [E|[E|[]]]; inversion E; subst; cbn [fst snd];
      apply unit_cube_right_angles; lia.
  - destruct (fe_o_refined "P2/m (10)") as [rsites Href].
    destruct (get_spacegroup_Ok
                (Sp := Example.spglib (Ok "P2/m (10)") 4 [])
                (Example.fe_o_session "P2/m (10)") "P2/m" 10
                eq_refl eq_refl unit_cube_det) as [ops Hsg].
    apply (monoclinic_fallback_raises
             (Sp := Example.spglib (Ok "P2/m (10)") 4 [])
             _ _ _ Href eq_refl Hsg); [reflexivity|].
    intros [[t0 t1] t2] Hin. simpl in Hin.
    repeat (destruct Hin as [E|Hin];
            [inversion E; subst; cbn [fst snd];
             apply unit_cube_right_angles; lia|]).
    contradiction.
Defined.
End ExampleRuns3.

(** * Further properties of the code *)

(** ** The string spglib returns *)

Lemma string_append_assoc (a b c : string) :
  String.append (String.append a b) c = String.append a (String.append b c).
Proof. induction a as [|x a IH]; simpl; [reflexivity | now rewrite IH]. Qed.

Lemma string_append_nil_r (a : string) : String.append a EmptyString = a.
Proof. induction a as [|x a IH]; simpl; [reflexivity | now rewrite IH]. Qed.

Lemma contains_head (c : ascii) (s : string) :
  Py.contains c (String c s) = true.
Proof. simpl. now rewrite Ascii.eqb_refl. Qed.

Lemma no_space_tail (c : ascii) (s : string) :
  no_space (String c s) -> Py.isspace c = false /\ no_space s.
Proof.
  intros H. split; [apply H, contains_head|].
  intros d Hd. apply H. simpl. rewrite Hd. apply orb_true_r.
Qed.

Lemma split_from_word (w : string) :
  w <> EmptyString -> no_space w ->
  forall cur rest,
    Py.split_from cur (String.append w rest)
    = Py.split_from (Some (String.append (held cur) w)) rest.
Proof.
  induction w as [|c w IH]; intros Hne Hns cur rest; [contradiction|].
  destruct (no_space_tail _ _ Hns) as [Hc Hw].
  simpl String.append at 1. cbn [Py.split_from]. rewrite Hc.
  fold (held cur).
  destruct w as [|d w].
  - reflexivity.
  - rewrite IH by (discriminate || assumption). simpl held.
    now rewrite string_append_assoc.
Qed.

Lemma split_from_blank (s : string) :
  blank s = true -> Py.split_from None s = [].
Proof.
  induction s as [|c s IH]; simpl; [reflexivity|].
  intros H. apply andb_prop in H. destruct H as [Hc Hs].
  rewrite Hc. now apply IH.
Qed.

Lemma split_two_tokens (sym tok : string) :
  sym <> EmptyString -> no_space sym ->
  tok <> EmptyString -> no_space tok ->
  Py.split (String.append sym (String " " tok)) = [sym; tok].
Proof.
  intros Hs1 Hs2 Ht1 Ht2. unfold Py.split.
  rewrite split_from_word by assumption. simpl held.
  cbn [Py.split_from]. change (Py.isspace " ") with true. cbv iota.
  f_equal.
  rewrite <- (string_append_nil_r tok) at 1.
  rewrite split_from_word by assumption. reflexivity.
Qed.

Lemma isdigit_not_space (c : ascii) :
  Py.isdigit c = true -> Py.isspace c = false.
Proof.
  unfold Py.isdigit, Py.isspace. cbv zeta. intros H. apply andb_prop in H.
  destruct H as [H1 H2]. apply Nat.leb_le in H1.
  rewrite !orb_false_iff. repeat split; apply Nat.eqb_neq; lia.
Qed.

Lemma string_of_uint_digits (d : Decimal.uint) (c : ascii) :
  Py.contains c (NilEmpty.string_of_uint d) = true -> Py.isdigit c = true.
Proof.
  induction d; simpl; try discriminate; intros H;
    apply orb_prop in H; destruct H as [H|H];
    try (apply Ascii.eqb_eq in H; subst c; reflexivity);
    now apply IHd.
Qed.

Lemma sub_nondigits_string_of_uint (d : Decimal.uint) (rest : string) :
  Py.sub_nondigits (String.append (NilEmpty.string_of_uint d) rest)
  = String.append (NilEmpty.string_of_uint d) (Py.sub_nondigits rest).
Proof.
  induction d; simpl; try reflexivity;
    change (Py.isdigit _) with true; cbv iota; now rewrite IHd.
Qed.

Lemma int_digits_string_of_uint (d : Decimal.uint) :
  forall acc,
    Py.int_digits (Z.of_nat acc) (NilEmpty.string_of_uint d)
    = Z.of_nat (Nat.of_uint_acc d acc).
Proof.
  induction d; intros acc;
    cbn [NilEmpty.string_of_uint Py.int_digits Nat.of_uint_acc];
    try reflexivity;
    rewrite Nat.tail_mul_spec, <- IHd; f_equal;
    match goal with
    | |- context [Z.of_nat (nat_of_ascii ?c - 48)] =>
        let v := eval vm_compute in (Z.of_nat (nat_of_ascii c - 48)) in
        change (Z.of_nat (nat_of_ascii c - 48)) with v
    end; lia.
Qed.

Lemma to_uint_not_Nil (n : nat) : Nat.to_uint n <> Decimal.Nil.
Proof.
  rewrite <- (Unsigned.of_to n) at 1. rewrite Unsigned.to_of.
  unfold Decimal.unorm. destruct (Decimal.nzhead _); discriminate.
Qed.

Lemma decimal_not_empty (n : nat) : decimal n <> EmptyString.
Proof.
  unfold decimal. pose proof (to_uint_not_Nil n) as H.
  destruct (Nat.to_uint n); simpl; try discriminate. contradiction.
Qed.

Lemma int_decimal (n : nat) : Py.int (decimal n) = Ok (Z.of_nat n).
Proof.
  pose proof (decimal_not_empty n) as Hne.
  unfold Py.int. destruct (decimal n) eqn:E; [contradiction|].
  rewrite <- E. unfold decimal.
  rewrite (int_digits_string_of_uint _ 0). f_equal. f_equal.
  apply Unsigned.of_to.
Qed.

Lemma number_token_no_space (n : nat) : no_space (number_token n).
Proof.
  intros c H. unfold number_token in H. simpl in H.
  apply orb_prop in H. destruct H as [H|H].
  - apply Ascii.eqb_eq in H. now subst c.
  - unfold decimal in H. revert H.
    generalize (Nat.to_uint n). intros d.
    induction d; simpl; intros H;
      try (apply orb_prop in H; destruct H as [H|H];
           [apply Ascii.eqb_eq in H; subst c; reflexivity|]);
      try (now apply IHd); try discriminate.
Qed.

(** X1: when the string spglib returned is a symbol without white space,
    one space and the number [n] written in parentheses,
    [get_spacegroup_symbol] returns the symbol and [get_spacegroup_number]
    returns [n]: the two accessors invert the way the string is written. *)
Theorem spacegroup_data_roundtrip {Ch : Chemistry} (self : SymmetryFinder)
    (symbol : string) (n : nat) :
  symbol <> EmptyString -> no_space symbol ->
  _spacegroup_data self
  = String.append symbol (String " " (number_token n)) ->
  get_spacegroup_symbol self = Ok symbol
  /\ get_spacegroup_number self = Ok (Z.of_nat n).
Proof.
  intros Hne Hns Hdata.
  unfold get_spacegroup_symbol, get_spacegroup_number, symbol_of_data,
    number_of_data.
  rewrite Hdata, split_two_tokens;
    [| assumption | assumption | discriminate | apply number_token_no_space].
  split; [reflexivity|].
  change (Py.index [symbol; number_token n] (-1)) with (Ok (number_token n)).
  cbn [Py.bind]. unfold number_token.
  change (Py.sub_nondigits (String "(" ?s)) with (Py.sub_nondigits s).
  unfold decimal at 1. rewrite sub_nondigits_string_of_uint. simpl Py.sub_nondigits.
  rewrite string_append_nil_r. apply int_decimal.
Qed.

Lemma int_digits_nonneg (s : string) :
  forall acc, (0 <= acc)%Z -> (0 <= Py.int_digits acc s)%Z.
Proof.
  induction s as [|c s IH]; intros acc Hacc; cbn [Py.int_digits];
    [assumption|].
  apply IH. lia.
Qed.

(** X2: whatever the string, a number returned by
    [get_spacegroup_number] is not negative: [re.sub] deletes a minus sign
    with the other non-digits. *)
Theorem spacegroup_number_nonnegative {Ch : Chemistry}
    (self : SymmetryFinder) (n : Z) :
  get_spacegroup_number self = Ok n -> (0 <= n)%Z.
Proof.
  unfold get_spacegroup_number, number_of_data.
  destruct (Py.index _ _) as [tok|e]; cbn [Py.bind]; [|discriminate].
  unfold Py.int. destruct (Py.sub_nondigits tok) eqn:E; intros H;
    inversion H. apply int_digits_nonneg. lia.
Qed.

Section DataErrors.
Context {Ch : Chemistry} {Co : Core} {Sp : Spglib}.

(** X3: when the string spglib returned holds nothing but white space
    (or nothing at all), [split] yields no token and every accessor that
    reads it raises [IndexError]: symbol, number, space group, crystal
    system, lattice type; the conventional structure raises it once the
    refined structure is built. *)
Theorem blank_spacegroup_data_raises (self : SymmetryFinder) :
  blank (_spacegroup_data self) = true ->
  get_spacegroup_symbol self = Raise IndexError
  /\ get_spacegroup_number self = Raise IndexError
  /\ get_spacegroup self = Raise IndexError
  /\ get_crystal_system self = Raise IndexError
  /\ get_lattice_type self = Raise IndexError
  /\ get_conventional_standard_structure self
     = (struct <- get_refined_structure self ;; Raise IndexError).
Proof.
  intros Hblank.
  assert (Hsym : get_spacegroup_symbol self = Raise IndexError).
  { unfold get_spacegroup_symbol, symbol_of_data, Py.split.
    now rewrite split_from_blank. }
  assert (Hnum : get_spacegroup_number self = Raise IndexError).
  { unfold get_spacegroup_number, number_of_data, Py.split.
    now rewrite split_from_blank. }
  assert (Hlat : get_lattice_type self = Raise IndexError).
  { unfold get_lattice_type. now rewrite Hnum. }
  repeat split; try assumption.
  - unfold get_spacegroup. now rewrite Hsym.
  - unfold get_crystal_system. now rewrite Hnum.
  - unfold get_conventional_standard_structure. rewrite Hlat.
    destruct (get_refined_structure self); reflexivity.
Qed.

(** X4: when the last token of the string has no digit, the symbol is
    still returned, and [get_spacegroup_number] raises [ValueError], from
    [int] of the empty string; so do [get_crystal_system] and
    [get_lattice_type]. *)
Theorem digitless_token_raises (self : SymmetryFinder)
    (symbol tok : string) :
  symbol <> EmptyString -> no_space symbol ->
  tok <> EmptyString -> no_space tok ->
  Py.sub_nondigits tok = EmptyString ->
  _spacegroup_data self = String.append symbol (String " " tok) ->
  get_spacegroup_symbol self = Ok symbol
  /\ get_spacegroup_number self = Raise ValueError
  /\ get_crystal_system self = Raise ValueError
  /\ get_lattice_type self = Raise ValueError.
Proof.
  intros Hs1 Hs2 Ht1 Ht2 Hnd Hdata.
  assert (Hnum : get_spacegroup_number self = Raise ValueError).
  { unfold get_spacegroup_number, number_of_data.
    rewrite Hdata, split_two_tokens by assumption.
    change (Py.index [symbol; tok] (-1)) with (Ok tok).
    cbn [Py.bind]. now rewrite Hnd. }
  split.
  - unfold get_spacegroup_symbol, symbol_of_data.
    rewrite Hdata, split_two_tokens by assumption. reflexivity.
  - split; [assumption|].
    unfold get_lattice_type, get_crystal_system. rewrite Hnum.
    split; reflexivity.
Qed.
End DataErrors.

(** X5: [get_lattice_type] never returns "trigonal"; it returns [None]
    exactly when [get_crystal_system] does, raises exactly what it raises,
    and any label it returns is one of the seven lattice types. *)
Theorem lattice_type_never_trigonal {Ch : Chemistry}
    (self : SymmetryFinder) :
  get_lattice_type self <> Ok (Some "trigonal")
  /\ (get_lattice_type self = Ok None <-> get_crystal_system self = Ok None)
  /\ (forall e, get_lattice_type self = Raise e
                <-> get_crystal_system self = Raise e)
  /\ (forall label,
        get_lattice_type self = Ok (Some label) ->
        In label ["triclinic"; "monoclinic"; "orthorhombic"; "tetragonal";
                  "rhombohedral"; "hexagonal"; "cubic"]).
Proof.
  unfold get_lattice_type, get_crystal_system.
  destruct (get_spacegroup_number self) as [n|e]; simpl.
  2: { repeat split; try discriminate; intros; congruence. }
  unfold lattice_type_of.
  destruct (Py.mem_Z n rhombohedral_numbers) eqn:Em.
  - apply mem_Z_rhombohedral_trigonal in Em.
    destruct (crystal_system_of_number_cases n)
      as [[Hr E]|[[Hr E]|[[Hr E]|[[Hr E]|[[Hr E]|[[Hr E]|[[Hr E]|[Hr E]]]]]]]];
      try lia.
    rewrite E. repeat split; try discriminate.
    intros label H. inversion H. simpl. auto 10.
  - destruct (crystal_system_of_number_cases n)
      as [[Hr E]|[[Hr E]|[[Hr E]|[[Hr E]|[[Hr E]|[[Hr E]|[[Hr E]|[Hr E]]]]]]]];
      rewrite E; simpl; repeat split; try discriminate; try reflexivity;
      intros label H; inversion H; simpl; auto 10.
Qed.

(** ** Symmetry operations *)

Lemma slice_to_length {A} (l : list A) (k : Z) :
  List.length (Py.slice_to l k) = slice_count (List.length l) k.
Proof. unfold Py.slice_to, slice_count. now rewrite length_firstn. Qed.

Lemma slice_count_le (len : nat) (k : Z) : (slice_count len k <= len)%nat.
Proof. unfold slice_count. lia. Qed.

Lemma slice_count_in_range (len : nat) (k : Z) :
  (0 <= k <= Z.of_nat len)%Z -> slice_count len k = Z.to_nat k.
Proof.
  intros Hk. unfold slice_count. destruct (Z.ltb_spec k 0); lia.
Qed.

Section SymmetryOperations.
Context {Ch : Chemistry} {Co : Core} {Sp : Spglib}.

(** X6: the two arrays [_get_symmetry] returns have the same length,
    at most [48 * num_sites], whatever count spglib reports (a negative or
    a too large count is absorbed by the slices). *)
Theorem get_symmetry_same_length (self : SymmetryFinder) :
  List.length (fst (_get_symmetry self))
  = List.length (snd (_get_symmetry self))
  /\ (List.length (fst (_get_symmetry self))
      <= 48 * num_sites (_structure self))%nat.
Proof.
  unfold _get_symmetry.
  pose proof (spg_symmetry_shape
                (repeat zmatrix_zero (48 * num_sites (_structure self)))
                (repeat vzero (48 * num_sites (_structure self)))
                (_transposed_latt self) (_positions self) (_numbers self)
                (_symprec self) (_angle_tol self)) as Hshape.
  destruct (spg_symmetry _ _ _ _ _ _ _) as [[rot tr] num_sym].
  destruct Hshape as [Hr Ht]. rewrite repeat_length in Hr, Ht.
  cbn [fst snd]. rewrite !slice_to_length, Hr, Ht.
  split; [reflexivity | apply slice_count_le].
Qed.
End SymmetryOperations.

Ltac matrix_parts m :=
  let a := fresh "a" in let b := fresh "b" in let c := fresh "c" in
  let d := fresh "d" in let e := fresh "e" in let f := fresh "f" in
  let g := fresh "g" in let h := fresh "h" in let i := fresh "i" in
  destruct m as [[[[a b] c] [[d e] f]] [[g h] i]].

Ltac per_entry :=
  repeat match goal with
         | |- (_, _) = (_, _) => apply f_equal2
         end.

Lemma mat_mul_assoc (x y z : matrix) :
  mat_mul (mat_mul x y) z = mat_mul x (mat_mul y z).
Proof.
  matrix_parts x. matrix_parts y. matrix_parts z.
  unfold mat_mul, vec_mat, dot, column, row, coord.
  per_entry; ring.
Qed.

Lemma mat_mul_eye_r (x : matrix) : mat_mul x eye = x.
Proof.
  matrix_parts x. unfold mat_mul, vec_mat, dot, column, row, coord, eye.
  per_entry; ring.
Qed.

Lemma mat_mul_eye_l (x : matrix) : mat_mul eye x = x.
Proof.
  matrix_parts x. unfold mat_mul, vec_mat, dot, column, row, coord, eye.
  per_entry; ring.
Qed.

Lemma linalg_inv_Ok (m inv : matrix) :
  linalg_inv m = Ok inv ->
  det m <> 0 /\ mat_mul m inv = eye /\ mat_mul inv m = eye.
Proof.
  matrix_parts m. unfold linalg_inv.
  destruct (Req_EM_T _ 0) as [E|Hdet]; [discriminate|].
  intros H. injection H as <-. split; [exact Hdet|].
  unfold det in Hdet.
  split; unfold mat_mul, vec_mat, dot, column, row, coord, eye, det;
    per_entry; field; exact Hdet.
Qed.

Lemma linalg_inv_singular (m : matrix) :
  det m = 0 -> linalg_inv m = Raise LinAlgError.
Proof.
  intros Hdet. matrix_parts m. unfold linalg_inv.
  destruct (Req_EM_T _ 0) as [_|Hne]; [reflexivity | contradiction].
Qed.

Lemma transpose_involutive (m : matrix) : transpose (transpose m) = m.
Proof. matrix_parts m. reflexivity. Qed.

Lemma det_transpose (m : matrix) : det (transpose m) = det m.
Proof. matrix_parts m. unfold det, transpose, column, row, coord. ring. Qed.

Lemma nth_error_combine {A B} (l1 : list A) (l2 : list B) :
  forall i a b,
    nth_error (combine l1 l2) i = Some (a, b) ->
    nth_error l1 i = Some a /\ nth_error l2 i = Some b.
Proof.
  revert l2. induction l1 as [|x l1 IH]; intros [|y l2] [|i] a b H;
    simpl in *; try discriminate.
  - inversion H. now subst.
  - now apply IH.
Qed.

Lemma vec_mat_transpose (v : vec) (m : matrix) :
  vec_mat v m = mat_vec (transpose m) v.
Proof.
  matrix_parts m. destruct v as [[x y] z].
  unfold vec_mat, mat_vec, transpose, column, row, coord, dot.
  per_entry; ring.
Qed.

Lemma mat_vec_mul (x y : matrix) (v : vec) :
  mat_vec (mat_mul x y) v = mat_vec x (mat_vec y v).
Proof.
  matrix_parts x. matrix_parts y. destruct v as [[p q] r].
  unfold mat_vec, mat_mul, vec_mat, column, row, coord, dot.
  per_entry; ring.
Qed.

Lemma mat_vec_vadd (x : matrix) (u v : vec) :
  mat_vec x (vadd u v) = vadd (mat_vec x u) (mat_vec x v).
Proof.
  matrix_parts x. destruct u as [[p q] r]. destruct v as [[p' q'] r'].
  unfold mat_vec, vadd, row, dot. per_entry; ring.
Qed.

Section SymmetryOperations2.
Context {Ch : Chemistry} {Co : Core} {Sp : Spglib}.

Lemma null_vector_det (m : matrix) : null_vector m -> det m = 0.
Proof.
  intros [i [Hi Hrow]].
  destruct m as [[[[a b] c] [[d e] f]] [[g h] k]].
  destruct i as [|[|[|i]]]; [| | |lia]; cbn [row] in Hrow;
    unfold vzero in Hrow; inversion Hrow; subst; unfold det; ring.
Qed.

(** X7: on a lattice one of whose vectors is the zero vector the matrix
    given to [np.linalg.inv] has a column of zeros, the elimination meets
    a zero pivot, and [get_symmetry_operations] raises [LinAlgError] in the
    fractional mode as in the Cartesian one, since the inverse is computed
    before the loop; [get_spacegroup] raises it too once symbol and number
    are read. *)
Theorem symmetry_operations_null_vector (self : SymmetryFinder)
    (cartesian : bool) :
  null_vector (lattice (_structure self)) ->
  get_symmetry_operations self cartesian = Raise LinAlgError
  /\ (forall symbol number,
        get_spacegroup_symbol self = Ok symbol ->
        get_spacegroup_number self = Ok number ->
        get_spacegroup self = Raise LinAlgError).
Proof.
  intros Hnull. apply null_vector_det in Hnull.
  assert (Hops : forall c, get_symmetry_operations self c
                           = Raise LinAlgError).
  { intros c. unfold get_symmetry_operations.
    destruct (_get_symmetry self) as [rotation translation].
    rewrite linalg_inv_singular; [reflexivity|].
    now rewrite det_transpose. }
  split; [apply Hops|].
  intros symbol number Hsym Hnum. unfold get_spacegroup.
  rewrite Hsym, Hnum. cbn [Py.bind]. now rewrite Hops.
Qed.

(** X8: in the Cartesian mode every operation returned comes from the
    rotation [r] and translation [t] of spglib at the same position; its
    rotation [R] satisfies [R . M = M . r] for the transposed lattice
    matrix [M], its translation is [t] multiplied by the lattice matrix,
    and it acts on Cartesian coordinates as the fractional operation acts
    on fractional ones: operating on the Cartesian image of a point gives
    the Cartesian image of the operated point. *)
Theorem cartesian_operations_conjugate (self : SymmetryFinder)
    (ops : list SymmOp) :
  get_symmetry_operations self true = Ok ops ->
  forall i rot_cart trans_cart,
    nth_error ops i = Some (rot_cart, trans_cart) ->
    exists rot trans,
      nth_error (fst (_get_symmetry self)) i = Some rot
      /\ nth_error (snd (_get_symmetry self)) i = Some trans
      /\ trans_cart = vec_mat trans (lattice (_structure self))
      /\ mat_mul rot_cart (transpose (lattice (_structure self)))
         = mat_mul (transpose (lattice (_structure self)))
             (matrix_of_zmatrix rot)
      /\ (forall point,
            operate (rot_cart, trans_cart)
              (vec_mat point (lattice (_structure self)))
            = vec_mat (operate (matrix_of_zmatrix rot, trans) point)
                (lattice (_structure self))).
Proof.
  unfold get_symmetry_operations.
  destruct (_get_symmetry self) as [rotation translation]. cbn [fst snd].
  destruct (linalg_inv _) as [invmat|e] eqn:Einv; cbn [Py.bind];
    [|discriminate].
  destruct (linalg_inv_Ok _ _ Einv) as [_ [_ Hinv]].
  intros H. injection H as <-. intros i rot_cart trans_cart Hnth.
  rewrite nth_error_map in Hnth.
  destruct (nth_error (combine rotation translation) i) as [[rot trans]|]
    eqn:Ec; simpl in Hnth; [|discriminate].
  injection Hnth as <- <-.
  destruct (nth_error_combine _ _ _ _ _ Ec) as [Hr Ht].
  assert (Hconj : mat_mul
                    (mat_mul (transpose (lattice (_structure self)))
                       (mat_mul (matrix_of_zmatrix rot) invmat))
                    (transpose (lattice (_structure self)))
                  = mat_mul (transpose (lattice (_structure self)))
                      (matrix_of_zmatrix rot)).
  { rewrite !mat_mul_assoc, Hinv, mat_mul_eye_r. reflexivity. }
  exists rot, trans. split; [exact Hr|]. split; [exact Ht|].
  split; [reflexivity|]. split; [exact Hconj|].
  intros point. unfold operate. cbn [fst snd].
  rewrite !vec_mat_transpose, <- mat_vec_mul, Hconj, mat_vec_mul.
  now rewrite mat_vec_vadd.
Qed.
End SymmetryOperations2.

(** ** Species numbers *)

Lemma index_Ok_range {A} (l : list A) (j : Z) :
  (exists a, Py.index l j = Ok a)
  <-> (- Z.of_nat (List.length l) <= j < Z.of_nat (List.length l))%Z.
Proof.
  unfold Py.index. cbv zeta. split.
  - intros [a H].
    set (k := if (j <? 0)%Z then (j + Z.of_nat (List.length l))%Z else j)
      in H.
    assert (Hk : (0 <= k < Z.of_nat (List.length l))%Z).
    { destruct (Z.leb_spec 0 k);
        destruct (Z.ltb_spec k (Z.of_nat (List.length l)));
        simpl in H; try discriminate. lia. }
    unfold k in Hk. destruct (Z.ltb_spec j 0); lia.
  - intros Hj.
    set (k := if (j <? 0)%Z then (j + Z.of_nat (List.length l))%Z else j).
    assert (Hk : (0 <= k < Z.of_nat (List.length l))%Z)
      by (unfold k; destruct (Z.ltb_spec j 0); lia).
    destruct (Z.leb_spec 0 k); [|lia].
    destruct (Z.ltb_spec k (Z.of_nat (List.length l))); [|lia].
    simpl. destruct (nth_error l (Z.to_nat k)) as [a|] eqn:E.
    + now exists a.
    + apply nth_error_None in E. lia.
Qed.

Lemma index_Raise {A} (l : list A) (j : Z) (e : exn) :
  Py.index l j = Raise e -> e = IndexError.
Proof.
  unfold Py.index. cbv zeta.
  destruct (_ && _)%bool; [|intros H; now inversion H].
  destruct (nth_error _ _); intros H; now inversion H.
Qed.

Lemma index_minus_one {A} (l : list A) (x : A) :
  Py.index (l ++ [x]) (-1) = Ok x.
Proof.
  unfold Py.index. cbv zeta. rewrite length_app. cbn [List.length].
  destruct (Z.ltb_spec (-1) 0); [|lia].
  destruct (Z.leb_spec 0 (-1 + Z.of_nat (List.length l + 1))); [|lia].
  destruct (Z.ltb_spec (-1 + Z.of_nat (List.length l + 1))
              (Z.of_nat (List.length l + 1))); [|lia].
  cbn [andb].
  replace (Z.to_nat (-1 + Z.of_nat (List.length l + 1)))
    with (List.length l) by lia.
  rewrite nth_error_app2 by apply Nat.le_refl.
  now rewrite Nat.sub_diag.
Qed.

Lemma mapM_Raise {A B} (f : A -> result B) (l : list A) (e : exn) :
  mapM f l = Raise e -> exists a, In a l /\ f a = Raise e.
Proof.
  induction l as [|a l IH]; simpl; [discriminate|].
  destruct (f a) as [b|e'] eqn:Ea; simpl.
  - destruct (mapM f l) as [bs|e'']; simpl; [discriminate|].
    intros H. inversion H; subst. destruct (IH eq_refl) as [a' [Hin Ha']].
    exists a'. split; [now right | assumption].
  - intros H. inversion H; subst. exists a. split; [now left | assumption].
Qed.

Lemma mapM_Ok_Forall2 {A B} (f : A -> result B) (l : list A) (bs : list B) :
  mapM f l = Ok bs -> Forall2 (fun b a => f a = Ok b) bs l.
Proof.
  revert bs. induction l as [|a l IH]; intros bs; simpl.
  - intros H. inversion H. constructor.
  - destruct (f a) as [b|e] eqn:Ea; simpl; [|discriminate].
    destruct (mapM f l) as [bs'|e]; simpl; [|discriminate].
    intros H. inversion H. constructor; [assumption | now apply IH].
Qed.

Lemma mapM_decode {A B C} (f : A -> result B) (g : C -> B) (l : list C)
    (zs : list A) :
  Forall2 (fun s z => f z = Ok (g s)) l zs -> mapM f zs = Ok (map g l).
Proof.
  induction 1 as [|s z l zs Hz Hrest IH]; simpl; [reflexivity|].
  now rewrite Hz, IH.
Qed.

Section SpeciesNumbers.
Context {Ch : Chemistry}.

(** X9: the species numbers are decoded without error exactly when each
    lies between [1 - len] and [len], [len] the length of the
    unique-species list; the only error is [IndexError]; one species is
    returned per number; and the number 0, the value the buffers are filled
    with, is decoded to the last unique species, by Python's negative
    index. *)
Theorem species_number_range (self : SymmetryFinder) (zs : list Z) :
  ((exists species, species_of self zs = Ok species)
   <-> Forall (fun z =>
                 (1 - Z.of_nat (List.length (_unique_species self)) <= z
                  <= Z.of_nat (List.length (_unique_species self)))%Z) zs)
  /\ (forall e, species_of self zs = Raise e -> e = IndexError)
  /\ (forall species,
        species_of self zs = Ok species ->
        List.length species = List.length zs)
  /\ (forall known last k,
        _unique_species self = known ++ [last] ->
        species_of self (repeat 0%Z k) = Ok (repeat last k)).
Proof.
  unfold species_of. repeat split.
  - intros [species H]. apply mapM_Ok_Forall2 in H.
    apply Forall_forall. intros z Hz.
    assert (Hex : exists a, Py.index (_unique_species self) (z - 1) = Ok a).
    { clear - H Hz. induction H as [|b a bs l Hab Hrest IH];
        [contradiction|].
      destruct Hz as [->|Hz]; [now exists b | now apply IH]. }
    apply index_Ok_range in Hex. lia.
  - intros Hall.
    destruct (mapM_Forall2
                (fun i => Py.index (_unique_species self) (i - 1)%Z) zs)
      as [bs [Hbs _]]; [|now exists bs].
    eapply Forall_impl; [|exact Hall]. intros z Hz. cbv beta in *.
    apply (proj2 (index_Ok_range (_unique_species self) (z - 1))). lia.
  - intros e H. apply mapM_Raise in H. destruct H as [z [_ Hz]].
    eapply index_Raise. eassumption.
  - intros species H. apply mapM_Ok_Forall2 in H.
    eapply Forall2_length. eassumption.
  - intros known last k HU. rewrite HU.
    induction k as [|k IH]; [reflexivity|].
    cbn [repeat mapM]. change (0 - 1)%Z with (-1)%Z.
    rewrite index_minus_one. cbn [Py.bind]. now rewrite IH.
Qed.
End SpeciesNumbers.

Section Decode.
Context {Ch : Chemistry} {Sp : Spglib}.

(** X10: on a session built by the constructor, decoding the index
    array returns the species of the sites, in order; every index lies
    between 1 and the number of unique species, every such value occurs,
    and there are at most as many unique species as sites. *)
Theorem init_numbers_decode (structure : Structure)
    (symprec angle_tolerance : R) (self : SymmetryFinder) :
  init structure symprec angle_tolerance = Ok self ->
  species_of self (_numbers self)
  = Ok (map species_and_occu (sites structure))
  /\ Forall (fun z =>
               (1 <= z <= Z.of_nat (List.length (_unique_species self)))%Z)
       (_numbers self)
  /\ (List.length (_unique_species self) <= num_sites structure)%nat
  /\ (forall k,
        (1 <= k <= Z.of_nat (List.length (_unique_species self)))%Z ->
        In k (_numbers self)).
Proof.
  intros Hinit.
  destruct (init_species_tables _ _ _ _ Hinit) as [HU [Hnd Hall]].
  repeat split.
  - unfold species_of. apply mapM_decode.
    eapply Forall2_impl; [|exact Hall].
    intros s z [Hz Hn]. apply index_in_range; [lia | assumption].
  - clear - Hall. induction Hall as [|s z l zs [Hz Hn] Hrest IH];
      constructor; [|assumption].
    assert (Z.to_nat (z - 1) < List.length (_unique_species self))%nat
      by (apply nth_error_Some; rewrite Hn; discriminate).
    lia.
  - unfold num_sites.
    rewrite <- (length_map species_and_occu (sites structure)).
    apply NoDup_incl_length; [assumption|].
    intros x Hx. rewrite HU in Hx.
    exact (proj1 (first_occurrences_In _ _) Hx).
  - intros k Hk.
    destruct (nth_error (_unique_species self) (Z.to_nat (k - 1)))
      as [x|] eqn:Ex; [|apply nth_error_None in Ex; lia].
    assert (Hin : In x (map species_and_occu (sites structure))).
    { apply first_occurrences_In. rewrite <- HU.
      eapply nth_error_In. eassumption. }
    apply in_map_iff in Hin. destruct Hin as [s [Hs Hin]].
    clear - Hall Hin Hs Ex Hnd Hk.
    induction Hall as [|s' z l zs [Hz Hn] Hrest IH]; [contradiction|].
    destruct Hin as [->|Hin]; [|right; now apply IH].
    left. rewrite Hs in Hn.
    assert (Hlt : (Z.to_nat (z - 1)
                   < List.length (_unique_species self))%nat)
      by (apply nth_error_Some; rewrite Hn; discriminate).
    rewrite <- Ex in Hn.
    pose proof (proj1 (NoDup_nth_error _) Hnd _ _ Hlt Hn). lia.
Qed.
End Decode.

(** ** Irreducible k-points, whatever the mapping *)

Lemma ir_loop_subsequence (mapping : list Z) :
  forall rest i irr n,
    (i + List.length rest <= List.length mapping)%nat ->
    exists kept,
      ir_loop mapping (Z.of_nat i) rest irr n = Ok (irr ++ kept)
      /\ subsequence kept rest
      /\ (n = [] -> hd_error kept = hd_error rest).
Proof.
  induction rest as [|kpts rest IH]; intros i irr n Hlen.
  - exists []. rewrite app_nil_r. repeat split; constructor.
  - simpl in Hlen. cbn [ir_loop].
    destruct (nth_error mapping i) as [m|] eqn:Hm;
      [|apply nth_error_None in Hm; lia].
    rewrite (index_nth _ _ _ Hm). cbn [Py.bind].
    replace (Z.of_nat i + 1)%Z with (Z.of_nat (S i)) by lia.
    destruct (Py.mem_Z m n) eqn:Emem; cbn [negb].
    + destruct (IH (S i) irr n) as [kept [Hk [Hsub _]]]; [lia|].
      exists kept. split; [exact Hk|]. split; [now constructor|].
      intros ->. discriminate.
    + destruct (IH (S i) (irr ++ [kpts]) (n ++ [Z.of_nat i]))
        as [kept [Hk [Hsub _]]]; [lia|].
      exists (kpts :: kept). rewrite Hk, <- app_assoc.
      repeat split. now constructor.
Qed.

Lemma subsequence_length {A} (sub l : list A) :
  subsequence sub l -> (List.length sub <= List.length l)%nat.
Proof. induction 1; simpl; lia. Qed.

Section AnyMapping.
Context {Ch : Chemistry} {Sp : Spglib}.

(** X11: whatever mapping spglib writes, [get_ir_kpoints] returns
    without raising; the result keeps some of the k-points given, in their
    order, and starts with the first of them. *)
Theorem ir_kpoints_subsequence (self : SymmetryFinder)
    (kpoints : list vec) (is_time_reversal : bool) :
  exists irr_kpts,
    get_ir_kpoints self kpoints is_time_reversal = Ok irr_kpts
    /\ subsequence irr_kpts kpoints
    /\ hd_error irr_kpts = hd_error kpoints
    /\ (List.length irr_kpts <= List.length kpoints)%nat.
Proof.
  pose proof (get_ir_kpoints_mapping_length self kpoints is_time_reversal)
    as Hlen.
  destruct (ir_loop_subsequence
              (get_ir_kpoints_mapping self kpoints is_time_reversal)
              kpoints 0 [] []) as [kept [Hk [Hsub Hhd]]]; [simpl; lia|].
  exists kept. split; [exact Hk|]. split; [exact Hsub|].
  split; [now apply Hhd | now apply subsequence_length].
Qed.
End AnyMapping.

(** ** Space-group numbers outside the table *)

Section OutsideTable.
Context {Ch : Chemistry} {Co : Core} {Sp : Spglib}.

(** X12: when the space-group number is outside 1..230, the lattice
    type is [None], no branch of [get_conventional_standard_structure] is
    taken and [results.get_sorted_structure()] raises [AttributeError];
    [get_primitive_standard_structure], which starts with that call, raises
    it as well. *)
Theorem standard_structures_outside_table (self : SymmetryFinder)
    (struct : Structure) (n : Z) :
  get_refined_structure self = Ok struct ->
  get_spacegroup_number self = Ok n ->
  (n < 1 \/ 230 < n)%Z ->
  get_lattice_type self = Ok None
  /\ get_conventional_standard_structure self = Raise AttributeError
  /\ get_primitive_standard_structure self = Raise AttributeError.
Proof.
  intros Href Hnum Hout.
  assert (Hsys : crystal_system_of_number n = None).
  { destruct (crystal_system_of_number_cases n)
      as [[H _]|[[H _]|[[H _]|[[H _]|[[H _]|[[H _]|[[H _]|[_ H]]]]]]]];
      try lia. exact H. }
  assert (Hlat : get_lattice_type self = Ok None).
  { unfold get_lattice_type, get_crystal_system. rewrite Hnum.
    cbn [Py.bind]. rewrite Hsys. unfold lattice_type_of.
    destruct (Py.mem_Z n rhombohedral_numbers) eqn:E; [|reflexivity].
    apply mem_Z_rhombohedral_trigonal in E. lia. }
  assert (Hconv : get_conventional_standard_structure self
                  = Raise AttributeError).
  { unfold get_conventional_standard_structure. rewrite Href, Hlat.
    reflexivity. }
  split; [exact Hlat|]. split; [exact Hconv|].
  unfold get_primitive_standard_structure. now rewrite Hconv.
Qed.
End OutsideTable.

(** ** Cells built from lengths and angles *)

Lemma angle_rad_right (u v : vec) :
  dot u v = 0 -> Lattice.degrees (Lattice.angle_rad u v) = 90.
Proof.
  intros Hd. unfold Lattice.angle_rad, Lattice.degrees. rewrite Hd.
  replace (0 / _) with 0 by (unfold Rdiv; ring).
  rewrite acos_0. field. apply PI_neq0.
Qed.

(** X18: for positive [a], [b], [c] and [alpha] between 0 and pi, the
    monoclinic matrix has row norms [a], [b], [c], the angle [alpha]
    between rows 1 and 2 and right angles elsewhere: read back in degrees
    it gives the lengths and the angle it was built from. *)
Theorem monoclinic_matrix_roundtrip (a b c alpha : R) :
  0 < a -> 0 < b -> 0 < c -> 0 <= alpha <= PI ->
  Lattice.lengths_and_angles (monoclinic_matrix a b c alpha)
  = ([a; b; c], [Lattice.degrees alpha; 90; 90])
  /\ (forall A, alpha = PI * A / 180 ->
        Lattice.lengths_and_angles (monoclinic_matrix a b c alpha)
        = ([a; b; c], [A; 90; 90])).
Proof.
  intros Ha Hb Hc Halpha.
  pose proof (sin_sq alpha) as Hs2.
  assert (N0 : Lattice.norm (a, 0, 0) = a).
  { apply norm_of_square; [lra|]. simpl. ring. }
  assert (N1 : Lattice.norm (0, b, 0) = b).
  { apply norm_of_square; [lra|]. simpl. ring. }
  assert (N2 : Lattice.norm (0, c * cos alpha, c * sin alpha) = c).
  { apply norm_of_square; [lra|]. simpl.
    replace (0 * 0 + c * cos alpha * (c * cos alpha)
             + c * sin alpha * (c * sin alpha))
      with (c * c * (cos alpha * cos alpha + sin alpha * sin alpha)) by ring.
    rewrite Hs2. ring. }
  assert (A1 : Lattice.angle_rad (0, b, 0)
                 (0, c * cos alpha, c * sin alpha) = alpha).
  { apply (angle_rad_of_cos _ _ b c); try assumption. simpl. ring. }
  assert (E : Lattice.lengths_and_angles (monoclinic_matrix a b c alpha)
              = ([a; b; c], [Lattice.degrees alpha; 90; 90])).
  { unfold Lattice.lengths_and_angles, Lattice.angles, Lattice.abc,
      monoclinic_matrix.
    cbn [row]. rewrite N0, N1, N2, A1.
    rewrite !angle_rad_right by (simpl; ring). reflexivity. }
  split; [exact E|]. intros A ->. rewrite E. unfold Lattice.degrees.
  pose proof PI_RGT_0 as Hpi. repeat f_equal. field. lra.
Qed.

Lemma sqrt3_sq : sqrt 3 * sqrt 3 = 3.
Proof. apply sqrt_sqrt. lra. Qed.

Lemma hexagonal_matrix_cell (a c : R) :
  0 < a -> 0 < c ->
  Lattice.lengths_and_angles (hexagonal_matrix a c)
  = ([a; a; c], [90; 90; 120]).
Proof.
  intros Ha Hc. pose proof sqrt3_sq as H3. pose proof PI_RGT_0 as Hpi.
  assert (N0 : Lattice.norm (a / 2, - a * sqrt 3 / 2, 0) = a).
  { apply norm_of_square; [lra|]. simpl.
    replace (a / 2 * (a / 2) + - a * sqrt 3 / 2 * (- a * sqrt 3 / 2) + 0 * 0)
      with (a * a / 4 + a * a * (sqrt 3 * sqrt 3) / 4) by field.
    rewrite H3. field. }
  assert (N1 : Lattice.norm (a / 2, a * sqrt 3 / 2, 0) = a).
  { apply norm_of_square; [lra|]. simpl.
    replace (a / 2 * (a / 2) + a * sqrt 3 / 2 * (a * sqrt 3 / 2) + 0 * 0)
      with (a * a / 4 + a * a * (sqrt 3 * sqrt 3) / 4) by field.
    rewrite H3. field. }
  assert (N2 : Lattice.norm (0, 0, c) = c).
  { apply norm_of_square; [lra|]. simpl. ring. }
  assert (A3 : Lattice.angle_rad (a / 2, - a * sqrt 3 / 2, 0)
                 (a / 2, a * sqrt 3 / 2, 0) = 2 * (PI / 3)).
  { apply (angle_rad_of_cos _ _ a a); try assumption; [lra|].
    rewrite cos_2PI3. simpl.
    replace (a / 2 * (a / 2) + - a * sqrt 3 / 2 * (a * sqrt 3 / 2) + 0 * 0)
      with (a * a / 4 - a * a * (sqrt 3 * sqrt 3) / 4) by field.
    rewrite H3. field. }
  unfold Lattice.lengths_and_angles, Lattice.angles, Lattice.abc,
    hexagonal_matrix.
  cbn [row]. rewrite N0, N1, N2, A3.
  rewrite !angle_rad_right by (simpl; ring).
  unfold Lattice.degrees. repeat f_equal. field. lra.
Qed.

Lemma cos_half_double (alpha : R) :
  cos alpha = 2 * (cos (alpha / 2) * cos (alpha / 2)) - 1.
Proof.
  replace alpha with (2 * (alpha / 2)) at 1 by field.
  rewrite cos_2a. pose proof (sin_sq (alpha / 2)). lra.
Qed.

(** X19: for positive [a], the rhombohedral matrix of the primitive
    cell is built without raising when [alpha] is at most 120 degrees, and
    then has three rows of norm [a] with the angle [alpha] between any two;
    for a larger [alpha] below 180 degrees the square root is taken of a
    negative number and [ValueError] is raised. *)
Theorem rhombohedral_matrix_roundtrip (a alpha : R) :
  0 < a -> 0 <= alpha < PI ->
  (alpha <= 2 * (PI / 3) ->
   exists m,
     rhombohedral_matrix a alpha = Ok m
     /\ Lattice.lengths_and_angles m
        = ([a; a; a],
           [Lattice.degrees alpha; Lattice.degrees alpha;
            Lattice.degrees alpha]))
  /\ (2 * (PI / 3) < alpha ->
      rhombohedral_matrix a alpha = Raise ValueError).
Proof.
  intros Ha Halpha. pose proof PI_RGT_0 as Hpi.
  pose proof (cos_half_double alpha) as Hca.
  unfold rhombohedral_matrix.
  set (h := alpha / 2) in *.
  assert (Hh : 0 <= h < PI / 2) by (unfold h; lra).
  assert (Hah : alpha = 2 * h) by (unfold h; field).
  clearbody h.
  assert (Hc : 0 < cos h) by (apply cos_gt_0; lra).
  destruct (Req_EM_T (cos h) 0) as [E|_];
    [exfalso; revert E; apply Rgt_not_eq; exact Hc|].
  set (d := 1 - cos alpha ^ 2 / cos h ^ 2) in *.
  assert (Hdc : d = (cos h * cos h - cos alpha * cos alpha)
                    / (cos h * cos h)) by (unfold d; field; lra).
  assert (Hinv : 0 < / (cos h * cos h))
    by (apply Rinv_0_lt_compat; nra).
  split.
  - intros Hle.
    assert (Hhalf : 1 / 2 <= cos h).
    { rewrite <- cos_PI3. apply cos_decr_1; lra. }
    assert (Hone : cos h <= 1) by apply COS_bound.
    assert (Hd : 0 <= d).
    { rewrite Hdc. unfold Rdiv. apply Rmult_le_pos; [|lra].
      rewrite Hca.
      assert (Hx : 1 / 4 <= cos h * cos h <= 1) by nra.
      replace (cos h * cos h
               - (2 * (cos h * cos h) - 1) * (2 * (cos h * cos h) - 1))
        with ((4 * (cos h * cos h) - 1) * (1 - cos h * cos h)) by ring.
      apply Rmult_le_pos; lra. }
    destruct (Rlt_dec d 0) as [E|_]; [exfalso; lra|].
    eexists. split; [reflexivity|].
    assert (Hq : sqrt d * sqrt d = d) by (apply sqrt_sqrt; lra).
    pose proof (sin_sq h) as Hs2.
    assert (N0 : Lattice.norm (a * cos h, - a * sin h, 0) = a).
    { apply norm_of_square; [lra|]. simpl.
      replace (a * cos h * (a * cos h) + - a * sin h * (- a * sin h) + 0 * 0)
        with (a * a * (cos h * cos h + sin h * sin h)) by ring.
      rewrite Hs2. ring. }
    assert (N1 : Lattice.norm (a * cos h, a * sin h, 0) = a).
    { apply norm_of_square; [lra|]. simpl.
      replace (a * cos h * (a * cos h) + a * sin h * (a * sin h) + 0 * 0)
        with (a * a * (cos h * cos h + sin h * sin h)) by ring.
      rewrite Hs2. ring. }
    assert (N2 : Lattice.norm (a * cos alpha / cos h, 0, a * sqrt d) = a).
    { apply norm_of_square; [lra|]. simpl.
      replace (a * cos alpha / cos h * (a * cos alpha / cos h) + 0 * 0
               + a * sqrt d * (a * sqrt d))
        with (a * a * (cos alpha ^ 2 / cos h ^ 2 + sqrt d * sqrt d))
        by (field; lra).
      rewrite Hq. unfold d. ring. }
    assert (Hr : 0 <= alpha <= PI) by lra.
    assert (A1 : Lattice.angle_rad (a * cos h, a * sin h, 0)
                   (a * cos alpha / cos h, 0, a * sqrt d) = alpha).
    { apply (angle_rad_of_cos _ _ a a); try assumption.
      simpl. field. lra. }
    assert (A2 : Lattice.angle_rad (a * cos alpha / cos h, 0, a * sqrt d)
                   (a * cos h, - a * sin h, 0) = alpha).
    { apply (angle_rad_of_cos _ _ a a); try assumption.
      simpl. field. lra. }
    assert (A3 : Lattice.angle_rad (a * cos h, - a * sin h, 0)
                   (a * cos h, a * sin h, 0) = alpha).
    { apply (angle_rad_of_cos _ _ a a); try assumption.
      simpl. rewrite Hca.
      replace (a * cos h * (a * cos h) + - a * sin h * (a * sin h) + 0 * 0)
        with (a * a * (cos h * cos h - sin h * sin h)) by ring.
      rewrite Hs2. ring. }
    unfold Lattice.lengths_and_angles, Lattice.angles, Lattice.abc.
    cbn [row]. rewrite N0, N1, N2, A1, A2, A3. reflexivity.
  - intros Hgt.
    assert (Hhalf : cos h < 1 / 2).
    { rewrite <- cos_PI3. apply cos_decreasing_1; lra. }
    assert (Hd : d < 0).
    { rewrite Hdc. unfold Rdiv.
      assert (Hx : 0 < cos h * cos h < 1 / 4) by nra.
      assert (Hneg : 0 < - (cos h * cos h - cos alpha * cos alpha)).
      { rewrite Hca.
        replace (- (cos h * cos h
                    - (2 * (cos h * cos h) - 1)
                      * (2 * (cos h * cos h) - 1)))
          with ((1 - 4 * (cos h * cos h)) * (1 - cos h * cos h)) by ring.
        apply Rmult_lt_0_compat; lra. }
      replace ((cos h * cos h - cos alpha * cos alpha) * / (cos h * cos h))
        with (- (- (cos h * cos h - cos alpha * cos alpha)
                 * / (cos h * cos h))) by ring.
      apply Ropp_lt_gt_0_contravar. apply Rmult_lt_0_compat; assumption. }
    destruct (Rlt_dec d 0) as [_|E]; [reflexivity | exfalso; lra].
Qed.


(** ** The orthorhombic and cubic cells: axes relabelled by length *)

Lemma perm3_of_range (s0 s1 s2 : nat) :
  NoDup [s0; s1; s2] -> (s0 <= 2)%nat -> (s1 <= 2)%nat -> (s2 <= 2)%nat ->
  Permutation [s0; s1; s2] [0; 1; 2]%nat.
Proof.
  intros Hnd H0 H1 H2. apply NoDup_Permutation_bis; [assumption| |].
  - simpl. lia.
  - intros x Hx. inversion Hnd as [|? ? Hn0 Hnd1]; subst.
    inversion Hnd1 as [|? ? Hn1 _]; subst. simpl in *.
    destruct Hx as [<-|[<-|[<-|[]]]]; lia.
Qed.

Ltac position_of x x0 x1 x2 :=
  lazymatch x with
  | x0 => constr:(0%nat)
  | x1 => constr:(1%nat)
  | x2 => constr:(2%nat)
  end.

Lemma sorted_by_three {A} (key : A -> R) (x0 x1 x2 : A) :
  exists s0 s1 s2,
    Permutation [s0; s1; s2] [0; 1; 2]%nat
    /\ sorted_by key [x0; x1; x2]
       = [nth s0 [x0; x1; x2] x0; nth s1 [x0; x1; x2] x0;
          nth s2 [x0; x1; x2] x0]
    /\ key (nth s0 [x0; x1; x2] x0) <= key (nth s1 [x0; x1; x2] x0)
       <= key (nth s2 [x0; x1; x2] x0).
Proof.
  unfold sorted_by, sorted. cbn [fold_right insert_sorted]. unfold Rltb.
  repeat match goal with
         | |- context [Rlt_dec ?x ?y] =>
             destruct (Rlt_dec x y); cbn [insert_sorted]
         end;
    match goal with
    | |- exists s0 s1 s2, _ /\ [?a; ?b; ?c] = _ /\ _ =>
        let ia := position_of a x0 x1 x2 in
        let ib := position_of b x0 x1 x2 in
        let ic := position_of c x0 x1 x2 in
        exists ia, ib, ic
    end;
    (split;
     [apply perm3_of_range; try lia;
      repeat (constructor; [simpl; lia|]); constructor|]);
    (split; [reflexivity|]); cbn [nth]; lra.
Qed.

Lemma sorted_by_two {A} (key : A -> R) (x0 x1 : A) :
  exists s0 s1,
    Permutation [s0; s1] [0; 1]%nat
    /\ sorted_by key [x0; x1] = [nth s0 [x0; x1] x0; nth s1 [x0; x1] x0]
    /\ key (nth s0 [x0; x1] x0) <= key (nth s1 [x0; x1] x0).
Proof.
  unfold sorted_by, sorted. cbn [fold_right insert_sorted]. unfold Rltb.
  destruct (Rlt_dec (key x1) (key x0)).
  - exists 1%nat, 0%nat. split; [apply perm_swap|].
    split; [reflexivity|]. cbn [nth]. lra.
  - exists 0%nat, 1%nat. split; [reflexivity|].
    split; [reflexivity|]. cbn [nth]. lra.
Qed.

Lemma insert_sorted_map_key {A} (key : A -> R) (x : A) (l : list A) :
  map key (insert_sorted (fun a b => Rltb (key a) (key b)) x l)
  = insert_sorted (fun a b => Rltb a b) (key x) (map key l).
Proof.
  induction l as [|y l IH]; simpl; [reflexivity|].
  destruct (Rltb (key y) (key x)); simpl; [now rewrite IH | reflexivity].
Qed.

Lemma sorted_by_map_key {A} (key : A -> R) (l : list A) :
  map key (sorted_by key l) = sorted_by (fun x => x) (map key l).
Proof.
  unfold sorted_by, sorted. induction l as [|x l IH]; simpl; [reflexivity|].
  now rewrite insert_sorted_map_key, IH.
Qed.

Lemma sorted_axes3 (m : matrix) :
  exists s0 s1 s2,
    Permutation [s0; s1; s2] [0; 1; 2]%nat
    /\ sorted_by axis_length (axes3 m)
       = [axis_of m s0; axis_of m s1; axis_of m s2]
    /\ sorted_by (fun x => x) (Lattice.abc m)
       = [at3 (Lattice.abc m) s0; at3 (Lattice.abc m) s1;
          at3 (Lattice.abc m) s2]
    /\ at3 (Lattice.abc m) s0 <= at3 (Lattice.abc m) s1
       <= at3 (Lattice.abc m) s2.
Proof.
  destruct (sorted_by_three axis_length
              (axis_of m 0) (axis_of m 1) (axis_of m 2))
    as [s0 [s1 [s2 [Hperm [Hsort Hord]]]]].
  assert (Hpick : forall s, In s [s0; s1; s2] ->
            nth s [axis_of m 0; axis_of m 1; axis_of m 2] (axis_of m 0)
            = axis_of m s).
  { intros s Hs. eapply Permutation_in in Hs; [|exact Hperm].
    simpl in Hs. destruct Hs as [<-|[<-|[<-|[]]]]; reflexivity. }
  rewrite !Hpick in Hsort, Hord by (simpl; auto).
  exists s0, s1, s2. split; [exact Hperm|].
  split; [exact Hsort|]. split; [|exact Hord].
  change (Lattice.abc m) with (map axis_length (axes3 m)) at 1.
  rewrite <- sorted_by_map_key. unfold axes3. rewrite Hsort. reflexivity.
Qed.

Lemma sorted_axes2 (m : matrix) :
  exists s0 s1,
    Permutation [s0; s1] [0; 1]%nat
    /\ sorted_by axis_length (axes2 m) = [axis_of m s0; axis_of m s1]
    /\ sorted_by (fun x => x) (firstn 2 (Lattice.abc m))
       = [at3 (Lattice.abc m) s0; at3 (Lattice.abc m) s1]
    /\ at3 (Lattice.abc m) s0 <= at3 (Lattice.abc m) s1.
Proof.
  destruct (sorted_by_two axis_length (axis_of m 0) (axis_of m 1))
    as [s0 [s1 [Hperm [Hsort Hord]]]].
  assert (Hpick : forall s, In s [s0; s1] ->
            nth s [axis_of m 0; axis_of m 1] (axis_of m 0) = axis_of m s).
  { intros s Hs. eapply Permutation_in in Hs; [|exact Hperm].
    simpl in Hs. destruct Hs as [<-|[<-|[]]]; reflexivity. }
  rewrite !Hpick in Hsort, Hord by (simpl; auto).
  exists s0, s1. split; [exact Hperm|].
  split; [exact Hsort|]. split; [|exact Hord].
  change (firstn 2 (Lattice.abc m)) with (map axis_length (axes2 m)).
  rewrite <- sorted_by_map_key. unfold axes2. rewrite Hsort. reflexivity.
Qed.

Lemma mat_vec_marked (s0 s1 s2 : nat) (v : vec) :
  mat_vec (set_entry (set_entry (set_entry zeros33 0 s0 1) 1 s1 1) 2 s2 1) v
  = relabel v s0 s1 s2.
Proof.
  destruct v as [[x y] z].
  destruct s0 as [|[|s0]]; destruct s1 as [|[|s1]]; destruct s2 as [|[|s2]];
    unfold relabel, mat_vec, set_entry, set_row, set_coord, zeros33, vzero,
      row, coord, dot;
    repeat match goal with
           | |- (_, _) = (_, _) => apply f_equal2
           end; ring.
Qed.

Lemma mat_vec_marked_C (s0 s1 : nat) (v : vec) :
  mat_vec (set_entry (set_entry (set_row zeros33 2 (0, 0, 1)) 0 s0 1) 1 s1 1)
    v
  = relabel v s0 s1 2.
Proof.
  destruct v as [[x y] z].
  destruct s0 as [|[|s0]]; destruct s1 as [|[|s1]];
    unfold relabel, mat_vec, set_entry, set_row, set_coord, zeros33, vzero,
      row, coord, dot;
    repeat match goal with
           | |- (_, _) = (_, _) => apply f_equal2
           end; ring.
Qed.

Lemma diag_cell (x y z : R) :
  0 < x -> 0 < y -> 0 < z ->
  Lattice.lengths_and_angles (diag x y z) = ([x; y; z], [90; 90; 90]).
Proof.
  intros Hx Hy Hz.
  unfold Lattice.lengths_and_angles, Lattice.angles, Lattice.abc, diag.
  cbn [row]. rewrite !angle_rad_right by (simpl; ring).
  rewrite (norm_of_square (x, 0, 0) x), (norm_of_square (0, y, 0) y),
    (norm_of_square (0, 0, z) z); try lra; try (simpl; ring).
  reflexivity.
Qed.

Lemma at3_abc_In (m : matrix) (s : nat) :
  In (at3 (Lattice.abc m) s) (Lattice.abc m) \/ at3 (Lattice.abc m) s = 0.
Proof.
  destruct s as [|[|[|s]]]; simpl; auto. right. now destruct s.
Qed.

Lemma at3_abc_pos (m : matrix) (s : nat) :
  Forall (fun x => 0 < x) (Lattice.abc m) -> (s <= 2)%nat ->
  0 < at3 (Lattice.abc m) s.
Proof.
  intros Hall Hs. rewrite Forall_forall in Hall. apply Hall.
  destruct s as [|[|[|s]]]; simpl; auto. lia.
Qed.

Lemma perm3_bound (s0 s1 s2 : nat) :
  Permutation [s0; s1; s2] [0; 1; 2]%nat ->
  (s0 <= 2)%nat /\ (s1 <= 2)%nat /\ (s2 <= 2)%nat.
Proof.
  intros Hperm.
  assert (Hin : forall s, In s [s0; s1; s2] -> (s <= 2)%nat).
  { intros s Hin. eapply Permutation_in in Hin; [|exact Hperm].
    simpl in Hin. lia. }
  repeat split; apply Hin; simpl; auto.
Qed.

Lemma mat_vec_marked_reversed (s0 s1 s2 : nat) (v : vec) :
  mat_vec
    (mat_mul ((0, 0, 1), (0, 1, 0), (1, 0, 0))
       (set_entry (set_entry (set_entry zeros33 0 s0 1) 1 s1 1) 2 s2 1)) v
  = relabel v s2 s1 s0.
Proof.
  destruct v as [[x y] z].
  destruct s0 as [|[|s0]]; destruct s1 as [|[|s1]]; destruct s2 as [|[|s2]];
    unfold relabel, mat_vec, mat_mul, vec_mat, column, set_entry, set_row,
      set_coord, zeros33, vzero, row, coord, dot;
    repeat match goal with
           | |- (_, _) = (_, _) => apply f_equal2
           end; ring.
Qed.

Section OrthorhombicCell.
Context {Ch : Chemistry} {Co : Core} {Sp : Spglib}.

Lemma from_sites_map_Ok (f : PeriodicSite -> PeriodicSite) (m : matrix)
    (l : list PeriodicSite) (r : Structure) :
  (forall s, site_lattice (f s) = m) ->
  from_sites (map f l) = Ok r ->
  lattice r = m /\ sites r = map f l.
Proof.
  intros Hf H. apply from_sites_Ok in H. destruct H as [Hne [Hs Hon]].
  split; [|exact Hs].
  destruct l as [|s l]; [contradiction|].
  inversion Hon; subst. now rewrite <- (Hf s).
Qed.

(** X14: the orthorhombic and cubic branch relabels the axes of the
    refined cell by a permutation: the new lattice is diagonal with the
    lengths of the old axes in the new order, the first two in ascending
    order, all three when the symbol does not start with C, the third axis
    kept in place when it does; each site keeps species and properties and
    its fractional coordinates, relabelled the same way and wrapped into
    the unit cell; with positive lengths the new cell has these lengths and
    three right angles. *)
Theorem conventional_orthorhombic_relabels (self : SymmetryFinder)
    (struct r : Structure) (symbol : string) :
  get_spacegroup_symbol self = Ok symbol ->
  conventional_orthorhombic self struct = Ok r ->
  exists s0 s1 s2,
    Permutation [s0; s1; s2] [0; 1; 2]%nat
    /\ (Py.startswith "C"%char symbol = true -> s2 = 2%nat)
    /\ at3 (Lattice.abc (lattice struct)) s0
       <= at3 (Lattice.abc (lattice struct)) s1
    /\ (Py.startswith "C"%char symbol = false ->
        at3 (Lattice.abc (lattice struct)) s1
        <= at3 (Lattice.abc (lattice struct)) s2)
    /\ lattice r
       = diag (at3 (Lattice.abc (lattice struct)) s0)
           (at3 (Lattice.abc (lattice struct)) s1)
           (at3 (Lattice.abc (lattice struct)) s2)
    /\ sites r
       = map (fun s =>
                mkSite (species_and_occu s)
                  (unit_cell (relabel (frac_coords s) s0 s1 s2))
                  (lattice r) (properties s))
           (sites struct)
    /\ (Forall (fun x => 0 < x) (Lattice.abc (lattice struct)) ->
        Lattice.lengths_and_angles (lattice r)
        = ([at3 (Lattice.abc (lattice struct)) s0;
            at3 (Lattice.abc (lattice struct)) s1;
            at3 (Lattice.abc (lattice struct)) s2], [90; 90; 90])).
Proof.
  intros Hsym H.
  cut (exists s0 s1 s2,
    Permutation [s0; s1; s2] [0; 1; 2]%nat
    /\ (Py.startswith "C"%char symbol = true -> s2 = 2%nat)
    /\ at3 (Lattice.abc (lattice struct)) s0
       <= at3 (Lattice.abc (lattice struct)) s1
    /\ (Py.startswith "C"%char symbol = false ->
        at3 (Lattice.abc (lattice struct)) s1
        <= at3 (Lattice.abc (lattice struct)) s2)
    /\ lattice r
       = diag (at3 (Lattice.abc (lattice struct)) s0)
           (at3 (Lattice.abc (lattice struct)) s1)
           (at3 (Lattice.abc (lattice struct)) s2)
    /\ sites r
       = map (fun s =>
                mkSite (species_and_occu s)
                  (unit_cell (relabel (frac_coords s) s0 s1 s2))
                  (lattice r) (properties s))
           (sites struct)).
  { intros [s0 [s1 [s2 [Hperm [HC [H01 [H12 [Hlat Hs]]]]]]]].
    exists s0, s1, s2. repeat (split; [assumption|]).
    intros Hpos. rewrite Hlat.
    destruct (perm3_bound _ _ _ Hperm) as [B0 [B1 B2]].
    apply diag_cell; now apply at3_abc_pos. }
  unfold conventional_orthorhombic in H.
  rewrite Hsym in H. cbn [Py.bind] in H.
  destruct (Py.startswith "C"%char symbol) eqn:HC; cbv beta iota zeta in H.
  - destruct (sorted_axes2 (lattice struct))
      as [s0 [s1 [Hperm [Hdic [Hlen Hord]]]]].
    rewrite Hdic, Hlen in H. unfold mark_axes in H.
    cbn [seq fold_left nth orig_index axis_of] in H.
    rewrite place_sites_total in H. cbn [Py.bind] in H.
    apply from_sites_map_Ok
      with (m := diag (at3 (Lattice.abc (lattice struct)) s0)
                   (at3 (Lattice.abc (lattice struct)) s1)
                   (at3 (Lattice.abc (lattice struct)) 2)) in H;
      [|reflexivity].
    destruct H as [Hlat Hs].
    exists s0, s1, 2%nat. split.
    { apply perm3_of_range.
      - assert (Hnd : NoDup [s0; s1])
          by (eapply Permutation_NoDup;
              [symmetry; exact Hperm | repeat constructor; simpl; lia]).
        assert (Hin : forall s, In s [s0; s1] -> (s <= 1)%nat).
        { intros s Hin. eapply Permutation_in in Hin; [|exact Hperm].
          simpl in Hin. lia. }
        pose proof (Hin s0 ltac:(simpl; auto)).
        pose proof (Hin s1 ltac:(simpl; auto)).
        inversion Hnd as [|? ? Hn0 Hnd1]; subst.
        constructor; [simpl in *; lia|].
        constructor; [simpl; lia|]. repeat constructor. simpl. tauto.
      - assert (In s0 [0; 1]%nat)
          by (eapply Permutation_in; [exact Hperm | now left]).
        simpl in *. lia.
      - assert (In s1 [0; 1]%nat)
          by (eapply Permutation_in; [exact Hperm | right; now left]).
        simpl in *. lia.
      - lia. }
    split; [reflexivity|]. split; [exact Hord|].
    split; [discriminate|]. split; [exact Hlat|].
    rewrite Hs, Hlat. apply map_ext. intros s.
    unfold PeriodicSite_new. now rewrite mat_vec_marked_C.
  - destruct (sorted_axes3 (lattice struct))
      as [s0 [s1 [s2 [Hperm [Hdic [Hlen Hord]]]]]].
    rewrite Hdic, Hlen in H. unfold mark_axes in H.
    cbn [List.length seq fold_left nth orig_index axis_of] in H.
    rewrite place_sites_total in H. cbn [Py.bind] in H.
    apply from_sites_map_Ok
      with (m := diag (at3 (Lattice.abc (lattice struct)) s0)
                   (at3 (Lattice.abc (lattice struct)) s1)
                   (at3 (Lattice.abc (lattice struct)) s2)) in H;
      [|reflexivity].
    destruct H as [Hlat Hs].
    exists s0, s1, s2. split; [exact Hperm|].
    split; [discriminate|]. split; [apply Hord|].
    split; [intros _; apply Hord|]. split; [exact Hlat|].
    rewrite Hs, Hlat. apply map_ext. intros s.
    unfold PeriodicSite_new. now rewrite mat_vec_marked.
Qed.
End OrthorhombicCell.

Section TetragonalCell.
Context {Ch : Chemistry} {Co : Core}.

(** X15: the tetragonal branch sorts the axes by length and puts the
    unique axis last: when the two longest lengths differ by less than
    [tol] the shortest axis becomes [c] and the order of the axes is
    reversed, otherwise the longest axis is [c]; the lattice is
    [diag a a c] and every site has its fractional coordinates relabelled
    in that order and wrapped into the unit cell. *)
Theorem conventional_tetragonal_unique_axis (struct r : Structure) :
  conventional_tetragonal struct = Ok r ->
  exists s0 s1 s2 u0 u2,
    Permutation [s0; s1; s2] [0; 1; 2]%nat
    /\ at3 (Lattice.abc (lattice struct)) s0
       <= at3 (Lattice.abc (lattice struct)) s1
       <= at3 (Lattice.abc (lattice struct)) s2
    /\ (Rabs (at3 (Lattice.abc (lattice struct)) s1
              - at3 (Lattice.abc (lattice struct)) s2) < tol
        /\ u0 = s2 /\ u2 = s0
        \/ tol <= Rabs (at3 (Lattice.abc (lattice struct)) s1
                        - at3 (Lattice.abc (lattice struct)) s2)
           /\ u0 = s0 /\ u2 = s2)
    /\ lattice r
       = diag (at3 (Lattice.abc (lattice struct)) u0)
           (at3 (Lattice.abc (lattice struct)) u0)
           (at3 (Lattice.abc (lattice struct)) u2)
    /\ sites r
       = map (fun s =>
                mkSite (species_and_occu s)
                  (unit_cell (relabel (frac_coords s) u0 s1 u2))
                  (lattice r) (properties s))
           (sites struct).
Proof.
  intros H. unfold conventional_tetragonal in H.
  destruct (sorted_axes3 (lattice struct))
    as [s0 [s1 [s2 [Hperm [Hdic [Hlen Hord]]]]]].
  cbv beta iota zeta in H. rewrite Hdic, Hlen in H. unfold mark_axes in H.
  cbn [List.length seq fold_left nth orig_index axis_of] in H.
  unfold Rltb in H. cbn [at3 nth] in H.
  destruct (Rlt_dec _ tol) as [Hclose|Hfar]; cbv beta iota zeta in H;
    rewrite place_sites_total in H; cbn [Py.bind] in H.
  - apply from_sites_map_Ok
      with (m := diag (at3 (Lattice.abc (lattice struct)) s2)
                   (at3 (Lattice.abc (lattice struct)) s2)
                   (at3 (Lattice.abc (lattice struct)) s0)) in H;
      [|reflexivity].
    destruct H as [Hlat Hs].
    exists s0, s1, s2, s2, s0. split; [exact Hperm|]. split; [exact Hord|].
    split; [left; split; [exact Hclose | split; reflexivity]|].
    split; [exact Hlat|].
    rewrite Hs, Hlat. apply map_ext. intros s.
    unfold PeriodicSite_new. now rewrite mat_vec_marked_reversed.
  - apply from_sites_map_Ok
      with (m := diag (at3 (Lattice.abc (lattice struct)) s0)
                   (at3 (Lattice.abc (lattice struct)) s0)
                   (at3 (Lattice.abc (lattice struct)) s2)) in H;
      [|reflexivity].
    destruct H as [Hlat Hs].
    exists s0, s1, s2, s0, s2. split; [exact Hperm|]. split; [exact Hord|].
    split; [right; split; [lra | split; reflexivity]|].
    split; [exact Hlat|].
    rewrite Hs, Hlat. apply map_ext. intros s.
    unfold PeriodicSite_new. now rewrite mat_vec_marked.
Qed.
End TetragonalCell.

(** ** The hexagonal cell *)

Lemma Rltb_lt (x y : R) : Rltb x y = true <-> x < y.
Proof.
  unfold Rltb. destruct (Rlt_dec x y); split; intros H;
    try assumption; try reflexivity; try discriminate; contradiction.
Qed.

Lemma Rltb_ge (x y : R) : Rltb x y = false <-> y <= x.
Proof.
  unfold Rltb. destruct (Rlt_dec x y); split; intros H;
    try discriminate; try reflexivity; lra.
Qed.

Lemma rhombohedral_setting_true {Ch : Chemistry} (struct : Structure) :
  rhombohedral_setting struct = true
  <-> Rabs (at3 (Lattice.abc (lattice struct)) 0
            - at3 (Lattice.abc (lattice struct)) 1) < 1 / 1000
      /\ Rabs (at3 (Lattice.abc (lattice struct)) 2
               - at3 (Lattice.abc (lattice struct)) 1) < 1 / 1000
      /\ Rabs (at3 (Lattice.abc (lattice struct)) 0
               - at3 (Lattice.abc (lattice struct)) 2) < 1 / 1000.
Proof.
  unfold rhombohedral_setting. cbv zeta.
  rewrite !andb_true_iff, !Rltb_lt. tauto.
Qed.

Lemma Rltb_asym (a b : R) : Rltb a b = true -> Rltb b a = false.
Proof. rewrite Rltb_lt, Rltb_ge. lra. Qed.

Lemma sorted_lengths3 (l : list R) :
  List.length l = 3%nat ->
  exists l0 l1 l2,
    sorted_by (fun x => x) l = [l0; l1; l2]
    /\ Permutation [l0; l1; l2] l
    /\ l0 <= l1 <= l2.
Proof.
  intros Hlen. unfold sorted_by.
  pose proof (sorted_length (fun a b => Rltb a b) l) as Hl.
  pose proof (sorted_perm (fun a b => Rltb a b) l) as Hp.
  pose proof (sorted_Sorted (fun a b => Rltb a b) Rltb_asym l) as Hs.
  destruct (sorted (fun a b => Rltb a b) l) as [|l0 [|l1 [|l2 [|x rest]]]];
    simpl in Hl; try lia.
  exists l0, l1, l2. split; [reflexivity|]. split; [exact Hp|].
  inversion Hs as [|? ? Hs1 Hh1]; subst.
  inversion Hs1 as [|? ? Hs2 Hh2]; subst.
  inversion Hh1 as [|? ? H01]; subst. inversion Hh2 as [|? ? H12]; subst.
  unfold in_order in H01, H12. apply Rltb_ge in H01, H12. lra.
Qed.

Section HexagonalCell.
Context {Ch : Chemistry} {Co : Core} {Sp : Spglib}.

(** X16: the hexagonal and rhombohedral branch maps the supercell of the
    refined structure when its three lengths agree within 0.001, and the
    refined structure itself otherwise; with [l0 <= l1 <= l2] the sorted
    lengths of the structure mapped, [a] is [l2] and [c] is [l0] when [l1]
    and [l2] differ by less than 0.001, and [a] is [l0] and [c] is [l2]
    otherwise; the lattice returned is [hexagonal_matrix a c] and every
    site of the structure mapped gives one site, with its species and
    properties, at its Cartesian position taken back into the unit cell of
    that lattice; for positive [a] and [c] the cell has lengths [a], [a],
    [c] and angles 90, 90 and 120 degrees. *)
Theorem conventional_hexagonal_cell (struct r : Structure) :
  conventional_hexagonal struct = Ok r ->
  exists working l0 l1 l2 a c,
    ((Rabs (at3 (Lattice.abc (lattice struct)) 0
            - at3 (Lattice.abc (lattice struct)) 1) < 1 / 1000
      /\ Rabs (at3 (Lattice.abc (lattice struct)) 2
               - at3 (Lattice.abc (lattice struct)) 1) < 1 / 1000
      /\ Rabs (at3 (Lattice.abc (lattice struct)) 0
               - at3 (Lattice.abc (lattice struct)) 2) < 1 / 1000)
     /\ working = supercell struct ((1, -1, 0), (0, 1, -1), (1, 1, 1))%Z
     \/ ~ (Rabs (at3 (Lattice.abc (lattice struct)) 0
                 - at3 (Lattice.abc (lattice struct)) 1) < 1 / 1000
           /\ Rabs (at3 (Lattice.abc (lattice struct)) 2
                    - at3 (Lattice.abc (lattice struct)) 1) < 1 / 1000
           /\ Rabs (at3 (Lattice.abc (lattice struct)) 0
                    - at3 (Lattice.abc (lattice struct)) 2) < 1 / 1000)
        /\ working = struct)
    /\ Permutation [l0; l1; l2] (Lattice.abc (lattice working))
    /\ l0 <= l1 <= l2
    /\ (Rabs (l1 - l2) < 1 / 1000 /\ a = l2 /\ c = l0
        \/ 1 / 1000 <= Rabs (l1 - l2) /\ a = l0 /\ c = l2)
    /\ lattice r = hexagonal_matrix a c
    /\ sites r
       = map (fun s =>
                mkSite (species_and_occu s)
                  (unit_cell
                     (get_fractional_coords (hexagonal_matrix a c)
                        (coords s)))
                  (hexagonal_matrix a c) (properties s))
           (sites working)
    /\ (0 < a -> 0 < c ->
        Lattice.lengths_and_angles (lattice r)
        = ([a; a; c], [90; 90; 120])).
Proof.
  intros H.
  set (working := mapped_structure struct "hexagonal").
  assert (Hw : rhombohedral_setting struct = true
               /\ working
                  = supercell struct ((1, -1, 0), (0, 1, -1), (1, 1, 1))%Z
               \/ rhombohedral_setting struct = false /\ working = struct).
  { unfold working, mapped_structure. cbn [String.eqb Ascii.eqb orb].
    simpl. destruct (rhombohedral_setting struct); [left|right];
      split; reflexivity. }
  destruct (sorted_lengths3 (Lattice.abc (lattice working)) eq_refl)
    as [l0 [l1 [l2 [Hsort [Hperm Hord]]]]].
  assert (Hbody :
    (let '(a, c) :=
       if Rltb (Rabs (l1 - l2)) (1 / 1000) then (l2, l0) else (l0, l2) in
     new_sites <- place_sites (sites working) (fun s => Ok (coords s))
                    (Some (hexagonal_matrix a c)) true true ;;
     from_sites new_sites) = Ok r).
  { unfold conventional_hexagonal in H. cbv zeta in H.
    fold (rhombohedral_setting struct) in H.
    destruct Hw as [[Hset Hwork]|[Hset Hwork]]; rewrite Hset in H;
      cbv beta iota in H; rewrite <- Hwork in H; rewrite Hsort in H;
      cbn [at3 nth] in H; exact H. }
  exists working, l0, l1, l2.
  assert (Hcases : forall a c,
             (new_sites <- place_sites (sites working)
                             (fun s => Ok (coords s))
                             (Some (hexagonal_matrix a c)) true true ;;
              from_sites new_sites) = Ok r ->
             lattice r = hexagonal_matrix a c
             /\ sites r
                = map (fun s =>
                         mkSite (species_and_occu s)
                           (unit_cell
                              (get_fractional_coords (hexagonal_matrix a c)
                                 (coords s)))
                           (hexagonal_matrix a c) (properties s))
                    (sites working)
             /\ (0 < a -> 0 < c ->
                 Lattice.lengths_and_angles (lattice r)
                 = ([a; a; c], [90; 90; 120]))).
  { intros a c Hr. rewrite place_sites_total in Hr. cbn [Py.bind] in Hr.
    apply from_sites_map_Ok with (m := hexagonal_matrix a c) in Hr;
      [|reflexivity].
    destruct Hr as [Hlat Hs]. split; [exact Hlat|]. split; [exact Hs|].
    intros Ha Hc. rewrite Hlat. now apply hexagonal_matrix_cell. }
  destruct (Rltb (Rabs (l1 - l2)) (1 / 1000)) eqn:Eclose.
  - exists l2, l0. split.
    { destruct Hw as [[Hset Hwork]|[Hset Hwork]]; [left|right].
      - split; [|exact Hwork]. now apply rhombohedral_setting_true.
      - split; [|exact Hwork].
        intros Hall. apply rhombohedral_setting_true in Hall. congruence. }
    split; [exact Hperm|]. split; [exact Hord|].
    split; [left; apply Rltb_lt in Eclose; repeat split; assumption|].
    now apply Hcases.
  - exists l0, l2. split.
    { destruct Hw as [[Hset Hwork]|[Hset Hwork]]; [left|right].
      - split; [|exact Hwork]. now apply rhombohedral_setting_true.
      - split; [|exact Hwork].
        intros Hall. apply rhombohedral_setting_true in Hall. congruence. }
    split; [exact Hperm|]. split; [exact Hord|].
    split; [right; apply Rltb_ge in Eclose; repeat split; assumption|].
    now apply Hcases.
Qed.
End HexagonalCell.

(** ** The monoclinic search *)

Lemma vscale_one (v : vec) : vscale 1 v = v.
Proof.
  destruct v as [[x y] z]. unfold vscale.
  repeat match goal with |- (_, _) = (_, _) => apply f_equal2 end; ring.
Qed.

Lemma norm_vscale_opp (v : vec) : Lattice.norm (vscale (-1) v) = Lattice.norm v.
Proof.
  destruct v as [[x y] z]. unfold Lattice.norm, vscale, dot. f_equal. ring.
Qed.

Lemma angle_rad_vscale_opp (u w : vec) :
  Lattice.angle_rad (vscale (-1) u) w = PI - Lattice.angle_rad u w.
Proof.
  unfold Lattice.angle_rad. rewrite norm_vscale_opp, <- acos_opp. f_equal.
  destruct u as [[x y] z]. destruct w as [[x' y'] z'].
  unfold vscale, dot, Rdiv. ring.
Qed.

Lemma radians_of_degrees (x : R) : PI * Lattice.degrees x / 180 = x.
Proof. unfold Lattice.degrees. field. apply PI_neq0. Qed.

Lemma degrees_gt_90 (x : R) : 90 < Lattice.degrees x -> PI / 2 < x.
Proof.
  unfold Lattice.degrees. intros H. pose proof PI_RGT_0 as Hpi.
  assert (E : x = x * 180 / PI * (PI / 180)) by (field; lra).
  rewrite E. 
  apply Rmult_lt_compat_r with (r := PI / 180) in H; lra.
Qed.

Lemma degrees_lt_90 (x : R) : Lattice.degrees x < 90 -> x < PI / 2.
Proof.
  unfold Lattice.degrees. intros H. pose proof PI_RGT_0 as Hpi.
  assert (E : x = x * 180 / PI * (PI / 180)) by (field; lra).
  rewrite E.
  apply Rmult_lt_compat_r with (r := PI / 180) in H; lra.
Qed.

Lemma Rltb_true (x y : R) : Rltb x y = true -> x < y.
Proof. unfold Rltb. destruct (Rlt_dec x y); [auto | discriminate]. Qed.

Lemma assign_candidate_opp (m : matrix) (t0 t1 t2 : nat) :
  90 < first_angle m t0 t1 t2 ->
  monoclinic_candidate m
    (assign_candidate (-1) t0 t1 t2
       (Lattice.lengths_and_angles
          (vscale (-1) (row m t0), vscale (-1) (row m t1), row m t2)))
    t0 t1 t2 (-1).
Proof.
  unfold first_angle, Lattice.lengths_and_angles, Lattice.angles,
    Lattice.abc, at3. cbn [snd fst nth row]. intros Hang.
  apply degrees_gt_90 in Hang.
  unfold monoclinic_candidate, assign_candidate, Lattice.lengths_and_angles,
    Lattice.angles, Lattice.abc, at3.
  cbn [snd fst nth row l_trans l_a l_b l_c l_alpha l_new_matrix].
  rewrite radians_of_degrees, !norm_vscale_opp.
  split; [now right|]. repeat (split; [reflexivity|]).
  rewrite angle_rad_vscale_opp. lra.
Qed.

Lemma assign_candidate_same (m : matrix) (t0 t1 t2 : nat) :
  first_angle m t0 t1 t2 < 90 ->
  monoclinic_candidate m
    (assign_candidate 1 t0 t1 t2
       (Lattice.lengths_and_angles (row m t0, row m t1, row m t2)))
    t0 t1 t2 1.
Proof.
  unfold first_angle, Lattice.lengths_and_angles, Lattice.angles,
    Lattice.abc, at3. cbn [snd fst nth row]. intros Hang.
  apply degrees_lt_90 in Hang.
  unfold monoclinic_candidate, assign_candidate, Lattice.lengths_and_angles,
    Lattice.angles, Lattice.abc, at3.
  cbn [snd fst nth row l_trans l_a l_b l_c l_alpha l_new_matrix].
  rewrite radians_of_degrees, vscale_one.
  split; [now left|]. repeat (split; [reflexivity|]). exact Hang.
Qed.

Lemma mono_step_state (m : matrix) (st : mono_locals) (t : nat * nat * nat) :
  In t permutations3 -> search_state m true st ->
  search_state m true (mono_step m st t).
Proof.
  destruct t as [[t0 t1] t2]. intros Hin Hst. unfold mono_step.
  cbv zeta.
  change (at3 (snd (Lattice.lengths_and_angles
                      (row m t0, row m t1, row m t2))) 0)
    with (first_angle m t0 t1 t2).
  change (at3 (fst (Lattice.lengths_and_angles
                      (row m t0, row m t1, row m t2))) 1)
    with (Lattice.norm (row m t1)).
  change (at3 (fst (Lattice.lengths_and_angles
                      (row m t0, row m t1, row m t2))) 2)
    with (Lattice.norm (row m t2)).
  destruct (Rltb 90 _ && Rltb _ _)%bool eqn:E1.
  - apply andb_true_iff in E1. destruct E1 as [Ha Hbc].
    apply Rltb_true in Ha, Hbc. right. exists t0, t1, t2, (-1).
    split; [now apply assign_candidate_opp | now split].
  - destruct (Rltb _ 90 && Rltb _ _)%bool eqn:E2; [|exact Hst].
    apply andb_true_iff in E2. destruct E2 as [Ha Hbc].
    apply Rltb_true in Ha, Hbc. right. exists t0, t1, t2, 1.
    split; [now apply assign_candidate_same | now split].
Qed.

Lemma mono_step_C_state (m : matrix) (st : mono_locals) (t : nat * nat) :
  In t permutations2 -> search_state m false st ->
  search_state m false (mono_step_C m st t).
Proof.
  destruct t as [t0 t1]. intros Hin Hst. unfold mono_step_C.
  cbv zeta.
  change (at3 (snd (Lattice.lengths_and_angles
                      (row m t0, row m t1, row m 2))) 0)
    with (first_angle m t0 t1 2).
  destruct (Rltb 90 _) eqn:E1.
  - apply Rltb_true in E1. right. exists t0, t1, 2%nat, (-1).
    split; [now apply assign_candidate_opp | now split].
  - destruct (Rltb _ 90) eqn:E2; [|exact Hst].
    apply Rltb_true in E2. right. exists t0, t1, 2%nat, 1.
    split; [now apply assign_candidate_same | now split].
Qed.

Lemma fold_state {T} (m : matrix) (general : bool)
    (step : mono_locals -> T -> mono_locals) (perms l : list T) :
  (forall st t, In t perms -> search_state m general st ->
                search_state m general (step st t)) ->
  incl l perms ->
  forall st, search_state m general st ->
             search_state m general (fold_left step l st).
Proof.
  intros Hstep. induction l as [|t l IH]; intros Hincl st Hst; [exact Hst|].
  cbn [fold_left]. apply IH.
  - intros x Hx. apply Hincl. now right.
  - apply Hstep; [apply Hincl; now left | exact Hst].
Qed.

(** X17: whenever the monoclinic search of the conventional cell finds
    a new matrix, it was built from a permutation of the rows of the
    refined lattice, the first two possibly negated: [a], [b], [c] are the
    norms of these rows, [alpha] is the angle between the second and the
    third and is below 90 degrees, and [trans] is the signed permutation;
    in the arm for symbols that do not start with C also [b < c].  In
    the C arm the local variables are returned only when such a candidate
    was found. *)
Theorem monoclinic_search_acute (m : matrix) (sorted_dic : list axis) :
  (forall new_matrix,
     l_new_matrix (monoclinic_locals m sorted_dic) = Some new_matrix ->
     exists t0 t1 t2 sign,
       In (t0, t1, t2) permutations3
       /\ Lattice.norm (row m t1) < Lattice.norm (row m t2)
       /\ monoclinic_candidate m (monoclinic_locals m sorted_dic)
            t0 t1 t2 sign)
  /\ (forall st,
        monoclinic_C_locals m = Ok st ->
        exists t0 t1 sign,
          In (t0, t1) permutations2
          /\ monoclinic_candidate m st t0 t1 2 sign).
Proof.
  split.
  - intros new_matrix. unfold monoclinic_locals.
    pose proof (fold_state m true (mono_step m) permutations3 permutations3
                  (mono_step_state m) (incl_refl _)
                  (mkLocals None None None None None None)
                  (or_introl (conj eq_refl eq_refl))) as Hst.
    destruct Hst as [[Hnone _]|[t0 [t1 [t2 [sign [Hc [Hin Hbc]]]]]]].
    + rewrite Hnone. cbn [l_new_matrix]. discriminate.
    + assert (Hsome : l_new_matrix
                        (fold_left (mono_step m) permutations3
                           (mkLocals None None None None None None))
                      <> None).
      { destruct Hc as [_ [_ [_ [_ [_ [_ [Hnm _]]]]]]]. rewrite Hnm.
        discriminate. }
      destruct (l_new_matrix (fold_left _ _ _)) eqn:E; [|contradiction].
      intros _. exists t0, t1, t2, sign.
      split; [exact Hin | split; [exact Hbc | exact Hc]].
  - intros st. unfold monoclinic_C_locals. cbv zeta.
    match goal with
    | |- context [fold_left (mono_step_C m) permutations2 ?init] =>
        pose proof (fold_state m false (mono_step_C m) permutations2
                      permutations2 (mono_step_C_state m) (incl_refl _)
                      init (or_introl (conj eq_refl eq_refl))) as Hst;
        set (found := fold_left (mono_step_C m) permutations2 init) in *
    end.
    destruct Hst as [[Hnone Halpha]|[t0 [t1 [t2 [sign [Hc [Hin ->]]]]]]].
    + rewrite Hnone, Halpha.
      destruct (l_a found); cbn [read_local Py.bind]; [|discriminate].
      destruct (l_b found); cbn [read_local Py.bind]; [|discriminate].
      destruct (l_c found); cbn [read_local Py.bind]; discriminate.
    + assert (Hnm := Hc).
      destruct Hnm as [_ [_ [_ [_ [_ [_ [Hnm _]]]]]]].
      rewrite Hnm. cbn [Py.bind]. rewrite Hnm.
      intros E. injection E as <-. exists t0, t1, sign. now split.
Qed.

(** ** Periodic images in the primitive standard structure *)

Lemma ForallOrdPairs_snoc {A} (R : A -> A -> Prop) (l : list A) (x : A) :
  ForallOrdPairs R l -> Forall (fun t => R t x) l ->
  ForallOrdPairs R (l ++ [x]).
Proof.
  induction 1 as [|a l Ha Hl IH]; intros Hx; simpl.
  - repeat constructor.
  - inversion Hx; subst. constructor.
    + apply Forall_app. split; [assumption | now repeat constructor].
    + now apply IH.
Qed.

Lemma subsequence_refl {A} (l : list A) : subsequence l l.
Proof. induction l; constructor; assumption. Qed.

Lemma subsequence_nil_l {A} (l : list A) : subsequence [] l.
Proof. induction l; constructor; assumption. Qed.

Lemma subsequence_map {A B} (f : A -> B) (sub l : list A) :
  subsequence sub l -> subsequence (map f sub) (map f l).
Proof. induction 1; simpl; constructor; assumption. Qed.

Section Dedup.
Context {Ch : Chemistry} {Co : Core}.

Lemma unique_flag (s : PeriodicSite) (l : list PeriodicSite) (u : bool) :
  fold_left (fun u t => if is_periodic_image s t then false else u) l u
  = (u && forallb (fun t => negb (is_periodic_image s t)) l)%bool.
Proof.
  revert u. induction l as [|t l IH]; intros u; simpl.
  - now rewrite andb_true_r.
  - rewrite IH. destruct (is_periodic_image s t); simpl;
      [now rewrite andb_false_r | reflexivity].
Qed.

Lemma add_unique_cases (acc : list PeriodicSite) (s : PeriodicSite) :
  (add_unique acc s = acc ++ [s]
   /\ Forall (fun t => is_periodic_image s t = false) acc)
  \/ (add_unique acc s = acc
      /\ Exists (fun t => is_periodic_image s t = true) acc).
Proof.
  unfold add_unique. rewrite unique_flag. cbn [andb].
  destruct (forallb _ acc) eqn:E.
  - left. split; [reflexivity|]. apply Forall_forall. intros t Ht.
    rewrite forallb_forall in E. specialize (E t Ht).
    now apply negb_true_iff in E.
  - right. split; [reflexivity|]. apply Exists_exists.
    assert (Hex : existsb (fun t => is_periodic_image s t) acc = true).
    { clear - E. induction acc as [|t acc IH]; simpl in *; [discriminate|].
      destruct (is_periodic_image s t); simpl in *; auto. }
    apply existsb_exists in Hex. exact Hex.
Qed.

Lemma add_unique_all (made acc : list PeriodicSite) :
  no_earlier_image acc ->
  exists kept,
    fold_left add_unique made acc = acc ++ kept
    /\ subsequence kept made
    /\ no_earlier_image (acc ++ kept)
    /\ (acc = [] -> hd_error kept = hd_error made)
    /\ (forall s, In s made ->
          exists t, In t (acc ++ kept)
                    /\ (s = t \/ is_periodic_image s t = true)).
Proof.
  revert acc. induction made as [|s made IH]; intros acc Hacc.
  - exists []. rewrite app_nil_r. repeat split; try assumption.
    + constructor.
    + intros x [].
  - cbn [fold_left].
    destruct (add_unique_cases acc s) as [[E Hall]|[E Hex]]; rewrite E.
    + destruct (IH (acc ++ [s])) as [kept [Hf [Hsub [Hno [_ Hcov]]]]].
      { now apply ForallOrdPairs_snoc. }
      exists (s :: kept). rewrite <- app_assoc in Hf, Hno, Hcov.
      split; [exact Hf|]. split; [now constructor|].
      split; [exact Hno|]. split; [reflexivity|].
      intros x [<-|Hx]; [|now apply Hcov].
      exists s. split; [|now left]. apply in_or_app. right. now left.
    + destruct (IH acc Hacc) as [kept [Hf [Hsub [Hno [_ Hcov]]]]].
      exists kept. split; [exact Hf|]. split; [now constructor|].
      split; [exact Hno|]. split.
      { intros ->. inversion Hex. }
      intros x [<-|Hx]; [|now apply Hcov].
      apply Exists_exists in Hex. destruct Hex as [t [Ht Himg]].
      exists t. split; [|now right]. apply in_or_app. now left.
Qed.

Lemma unique_sites_made (make : PeriodicSite -> result PeriodicSite)
    (l : list PeriodicSite) :
  forall acc out,
    fold_left
      (fun acc s =>
         new_sites <- acc ;;
         new_s <- make s ;;
         Ok (add_unique new_sites new_s))
      l (Ok acc) = Ok out ->
    exists made,
      mapM make l = Ok made /\ out = fold_left add_unique made acc.
Proof.
  induction l as [|s l IH]; intros acc out H.
  - exists []. simpl in *. split; [reflexivity | congruence].
  - cbn [fold_left Py.bind] in H.
    destruct (make s) as [t|e] eqn:Es; cbn [Py.bind] in H.
    + destruct (IH _ _ H) as [made [Hm Hout]].
      exists (t :: made). cbn [mapM]. rewrite Es, Hm. now split.
    + exfalso. clear - H. induction l as [|x l IH]; simpl in H;
        [discriminate | auto].
Qed.

(** What [unique_sites] keeps of the sites [make] builds. *)
Lemma unique_sites_Ok (make : PeriodicSite -> result PeriodicSite)
    (l out : list PeriodicSite) :
  unique_sites l make = Ok out ->
  exists made,
    mapM make l = Ok made
    /\ subsequence out made
    /\ no_earlier_image out
    /\ hd_error out = hd_error made
    /\ (forall s, In s made ->
          exists t, In t out /\ (s = t \/ is_periodic_image s t = true)).
Proof.
  unfold unique_sites. intros H.
  destruct (unique_sites_made make l [] out H) as [made [Hm ->]].
  destruct (add_unique_all made []) as [kept [Hf [Hsub [Hno [Hhd Hcov]]]]];
    [constructor|].
  cbn [app] in *. rewrite Hf. exists made. repeat split; auto.
Qed.
End Dedup.

Section PrimitiveDedup.
Context {Ch : Chemistry} {Co : Core} {Sp : Spglib}.

Lemma mapM_species (make : PeriodicSite -> result PeriodicSite)
    (l made : list PeriodicSite) :
  (forall s t, make s = Ok t -> species_and_occu t = species_and_occu s) ->
  mapM make l = Ok made ->
  map species_and_occu made = map species_and_occu l.
Proof.
  intros Hmake. revert made. induction l as [|s l IH]; intros made; simpl.
  - intros H. now inversion H.
  - destruct (make s) as [t|e] eqn:Es; simpl; [|discriminate].
    destruct (mapM make l) as [rest|e]; simpl; [|discriminate].
    intros H. inversion H. simpl. now rewrite (Hmake s t Es), (IH rest).
Qed.

(** X20: when the symbol has no "P" and the lattice type is not
    hexagonal, the sites [get_primitive_standard_structure] returns hold
    no periodic image of an earlier site; their species are a subsequence
    of the species of the structure they come from (the refined structure
    for a rhombohedral lattice, the conventional one otherwise), so there
    are no more sites than in that structure, and the first site is
    kept. *)
Theorem primitive_standard_structure_no_images (self : SymmetryFinder)
    (symbol : string) (lattice_type : option string) (prim : Structure) :
  get_spacegroup_symbol self = Ok symbol ->
  get_lattice_type self = Ok lattice_type ->
  Py.contains "P"%char symbol = false ->
  lattice_type <> Some "hexagonal" ->
  get_primitive_standard_structure self = Ok prim ->
  no_earlier_image (sites prim)
  /\ exists source,
       (if opt_string_eqb lattice_type "rhombohedral"
        then get_refined_structure self = Ok source
        else get_conventional_standard_structure self = Ok source)
       /\ subsequence (map species_and_occu (sites prim))
            (map species_and_occu (sites source))
       /\ (List.length (sites prim) <= List.length (sites source))%nat
       /\ option_map species_and_occu (hd_error (sites prim))
          = option_map species_and_occu (hd_error (sites source)).
Proof.
  intros Hsym Hlat HP Hhex. unfold get_primitive_standard_structure.
  destruct (get_conventional_standard_structure self) as [conv|e];
    cbn [Py.bind]; [|discriminate].
  rewrite Hlat, Hsym. cbn [Py.bind].
  rewrite HP, (opt_string_eqb_neq _ _ Hhex). cbn [orb].
  assert (Hkey : forall source make out,
            unique_sites (sites source) make = Ok out ->
            (forall s t, make s = Ok t ->
                         species_and_occu t = species_and_occu s) ->
            forall prim, from_sites out = Ok prim ->
            no_earlier_image (sites prim)
            /\ subsequence (map species_and_occu (sites prim))
                 (map species_and_occu (sites source))
            /\ (List.length (sites prim) <= List.length (sites source))%nat
            /\ option_map species_and_occu (hd_error (sites prim))
               = option_map species_and_occu (hd_error (sites source))).
  { intros source make out Hout Hmake p Hp.
    apply from_sites_Ok in Hp. destruct Hp as [_ [-> _]].
    destruct (unique_sites_Ok _ _ _ Hout)
      as [made [Hm [Hsub [Hno [Hhd _]]]]].
    pose proof (mapM_species _ _ _ Hmake Hm) as Hsp.
    split; [exact Hno|]. split.
    { rewrite <- Hsp. now apply subsequence_map. }
    split.
    { rewrite <- (length_map species_and_occu (sites source)), <- Hsp,
        length_map.
      now apply subsequence_length. }
    rewrite Hhd.
    transitivity (hd_error (map species_and_occu made)).
    - now destruct made.
    - rewrite Hsp. now destruct (sites source). }
  destruct (opt_string_eqb lattice_type "rhombohedral").
  - destruct (get_refined_structure self) as [refined|e];
      cbn [Py.bind]; [|discriminate].
    cbv zeta.
    destruct (rhombohedral_matrix _ _) as [new_matrix|e];
      cbn [Py.bind]; [|discriminate].
    destruct (unique_sites _ _) as [out|e] eqn:Eout;
      cbn [Py.bind]; [|discriminate].
    intros Hp.
    pose proof (Hkey refined _ out Eout) as Hk.
    destruct (Hk ltac:(intros s t E; cbn in E; now inversion E) prim Hp)
      as [H1 H2].
    split; [exact H1|]. exists refined. split; [reflexivity | exact H2].
  - destruct (centring_transf self symbol) as [transf|e];
      cbn [Py.bind]; [|discriminate].
    destruct (unique_sites _ _) as [out|e] eqn:Eout;
      cbn [Py.bind]; [|discriminate].
    intros Hp.
    pose proof (Hkey conv _ out Eout) as Hk.
    destruct (Hk ltac:(intros s t E; cbn in E; now inversion E) prim Hp)
      as [H1 H2].
    split; [exact H1|]. exists conv. split; [reflexivity | exact H2].
Qed.
End PrimitiveDedup.

(** ** The refined structure *)

Lemma index_In {A} (l : list A) (j : Z) (a : A) :
  Py.index l j = Ok a -> In a l.
Proof.
  unfold Py.index. cbv zeta. destruct (_ && _)%bool; [|discriminate].
  destruct (nth_error l _) as [x|] eqn:E; [|discriminate].
  intros H. inversion H; subst. eapply nth_error_In. eassumption.
Qed.

Section RefinedStructure.
Context {Ch : Chemistry} {Co : Core} {Sp : Spglib}.

(** X13: on a session built by the constructor, a refined structure
    has at most four times as many sites as the structure; each carries a
    species of the unique-species list and lies on the lattice of the
    result, the transpose of the lattice spglib leaves, hence the lattice
    of the structure itself when spglib leaves it as it was given; the
    sites are sorted when the site order is asymmetric. *)
Theorem refined_structure_shape (structure : Structure)
    (symprec angle_tolerance : R) (self : SymmetryFinder) (r : Structure) :
  init structure symprec angle_tolerance = Ok self ->
  get_refined_structure self = Ok r ->
  (List.length (sites r) <= 4 * num_sites structure)%nat
  /\ Forall (fun s => In (species_and_occu s) (_unique_species self)
                      /\ site_lattice s = lattice r) (sites r)
  /\ lattice r
     = transpose
         (fst (fst (fst
            (spg_refine_cell (_transposed_latt self)
               (_positions self ++ repeat vzero (3 * num_sites structure))
               (_numbers self ++ repeat 0%Z (3 * num_sites structure))
               (Z.of_nat (num_sites structure)) (_symprec self)
               (_angle_tol self)))))
  /\ (fst (fst (fst
         (spg_refine_cell (_transposed_latt self)
            (_positions self ++ repeat vzero (3 * num_sites structure))
            (_numbers self ++ repeat 0%Z (3 * num_sites structure))
            (Z.of_nat (num_sites structure)) (_symprec self)
            (_angle_tol self))))
      = _transposed_latt self ->
      lattice r = lattice structure)
  /\ ((forall a b, site_ltb a b = true -> site_ltb b a = false) ->
      Sorted (in_order site_ltb) (sites r)).
Proof.
  intros Hinit. destruct (init_lengths _ _ _ _ Hinit) as [Hst [Hlp Hln]].
  unfold get_refined_structure. rewrite Hst.
  pose proof (spg_refine_cell_shape (_transposed_latt self)
                (_positions self ++ repeat vzero (3 * num_sites structure))
                (_numbers self ++ repeat 0%Z (3 * num_sites structure))
                (Z.of_nat (num_sites structure)) (_symprec self)
                (_angle_tol self)) as Hshape.
  destruct (spg_refine_cell _ _ _ _ _ _) as [[[latt pos] numbers] k].
  destruct Hshape as [Hp Hn].
  rewrite length_app, repeat_length, Hlp in Hp.
  destruct (species_of self (Py.slice_to numbers k)) as [species|e] eqn:Esp;
    cbn [Py.bind]; [|discriminate].
  unfold Structure_new.
  destruct (Nat.eqb _ _) eqn:Elen; cbn [Py.bind]; [|discriminate].
  apply Nat.eqb_eq in Elen.
  unfold get_sorted_structure. cbn [sites]. intros Hfrom.
  apply from_sites_Ok in Hfrom. destruct Hfrom as [Hne [Hs Hon]].
  rewrite <- Hs in Hne, Hon.
  set (built := map (fun '(sp, c) => mkSite sp c (transpose latt)
                                       no_properties)
                  (combine species (Py.slice_to pos k))) in *.
  assert (Hperm : Permutation (sites r) built)
    by (rewrite Hs; apply sorted_perm).
  assert (Hbuilt : Forall (fun s => In (species_and_occu s)
                                      (_unique_species self)
                                    /\ site_lattice s = transpose latt)
                     built).
  { apply Forall_forall. intros s Hin. unfold built in Hin.
    apply in_map_iff in Hin. destruct Hin as [[sp c] [<- Hin]].
    split; [|reflexivity]. cbn [species_and_occu].
    apply in_combine_l in Hin.
    unfold species_of in Esp. apply mapM_Ok_Forall2 in Esp.
    clear - Esp Hin. induction Esp as [|b a bs l Hab Hrest IH];
      [contradiction|].
    destruct Hin as [->|Hin]; [|now apply IH].
    eapply index_In. exact Hab. }
  assert (Hlat : lattice r = transpose latt).
  { destruct (sites r) as [|s0 rest] eqn:Es; [contradiction|].
    rewrite <- (Forall_inv Hon).
    rewrite Forall_forall in Hbuilt. apply Hbuilt.
    eapply Permutation_in; [exact Hperm | now left]. }
  split.
  { rewrite (Permutation_length Hperm). unfold built.
    rewrite length_map, length_combine, Elen, Nat.min_id, slice_to_length.
    pose proof (slice_count_le (List.length pos) k). lia. }
  split.
  { rewrite Hlat. rewrite Forall_forall in *. intros s Hin.
    apply Hbuilt. eapply Permutation_in; [exact Hperm | exact Hin]. }
  split; [exact Hlat|].
  split.
  { cbn [fst]. intros ->. rewrite Hlat.
    destruct (init_fields _ _ _ _ Hinit) as [_ [_ [_ [Htl _]]]].
    rewrite Htl. apply transpose_involutive. }
  intros Hasym. rewrite Hs. now apply sorted_Sorted.
Qed.
End RefinedStructure.

(** ** The symmetry dataset *)

Lemma lstrip_spec (s : string) :
  exists pre,
    blank pre = true /\ s = String.append pre (lstrip s)
    /\ (forall c rest, lstrip s = String c rest -> Py.isspace c = false).
Proof.
  induction s as [|d s [pre [Hb [Hs Hc]]]]; simpl.
  - exists EmptyString. repeat split. discriminate.
  - destruct (Py.isspace d) eqn:Ed.
    + exists (String d pre). simpl. rewrite Ed, Hb. split; [reflexivity|].
      split; [now rewrite <- Hs | exact Hc].
    + exists EmptyString. repeat split.
      intros c rest H. inversion H. now subst.
Qed.

Lemma append_last_inv (rest : string) (c d : ascii) :
  String d EmptyString = String.append rest (String c EmptyString) ->
  rest = EmptyString /\ c = d.
Proof.
  destruct rest as [|x rest]; simpl; intros H; inversion H; [now split|].
  destruct rest; discriminate.
Qed.

Lemma rstrip_spec (s : string) :
  exists post,
    blank post = true /\ s = String.append (rstrip s) post
    /\ (forall c rest,
          rstrip s = String.append rest (String c EmptyString) ->
          Py.isspace c = false).
Proof.
  induction s as [|d s [post [Hb [Hs Hc]]]]; simpl.
  - exists EmptyString. repeat split.
    intros c [|x rest]; discriminate.
  - destruct (rstrip s) as [|e r] eqn:Er.
    + destruct (Py.isspace d) eqn:Ed.
      * exists (String d post). simpl. rewrite Ed, Hb.
        split; [reflexivity|]. split; [now rewrite Hs|].
        intros c [|x rest]; discriminate.
      * exists post. split; [exact Hb|]. split; [simpl; now rewrite Hs|].
        intros c rest H. apply append_last_inv in H.
        destruct H as [_ ->]. exact Ed.
    + exists post. split; [exact Hb|]. split; [simpl; now rewrite Hs|].
      intros c [|x rest] H; simpl in H; inversion H.
      eapply Hc. eassumption.
Qed.

Lemma strip_spec (s : string) :
  exists pre post,
    blank pre = true /\ blank post = true
    /\ s = String.append pre (String.append (strip s) post)
    /\ trimmed (strip s).
Proof.
  destruct (rstrip_spec s) as [post [Hpost [Hs Hlast]]].
  destruct (lstrip_spec (rstrip s)) as [pre [Hpre [Hr Hfirst]]].
  exists pre, post. split; [exact Hpre|]. split; [exact Hpost|].
  split.
  - rewrite Hs at 1. rewrite Hr at 1. unfold strip.
    now rewrite string_append_assoc.
  - intros c rest. split; [apply Hfirst|].
    unfold strip. intros H. apply (Hlast c (String.append pre rest)).
    rewrite Hr at 1. rewrite H. now rewrite string_append_assoc.
Qed.

Lemma str_index_letters (x : Z) :
  (0 <= x <= 51)%Z -> str_index letters x = Ok (letter_of x).
Proof.
  intros Hx. rewrite <- (Z2Nat.id x) by lia.
  assert (Hn : (Z.to_nat x < 52)%nat) by lia.
  generalize dependent (Z.to_nat x). intros n Hn.
  do 52 (destruct n as [|n]; [reflexivity|]). lia.
Qed.

Lemma str_index_Ok_range (s : string) (x : Z) :
  (exists c, str_index s x = Ok c)
  <-> (- Z.of_nat (List.length (list_ascii_of_string s)) <= x
       < Z.of_nat (List.length (list_ascii_of_string s)))%Z.
Proof.
  unfold str_index. unfold Py.index. cbv zeta.
  set (len := Z.of_nat (List.length (list_ascii_of_string s))).
  set (k := if (x <? 0)%Z then (x + len)%Z else x).
  split.
  - intros [c H].
    assert (Hk : (0 <= k < len)%Z).
    { destruct (Z.leb_spec 0 k); destruct (Z.ltb_spec k len);
        simpl in H; try discriminate. lia. }
    unfold k in Hk. destruct (Z.ltb_spec x 0); lia.
  - intros Hx.
    assert (Hk : (0 <= k < len)%Z)
      by (unfold k; destruct (Z.ltb_spec x 0); lia).
    destruct (Z.leb_spec 0 k); [|lia].
    destruct (Z.ltb_spec k len); [|lia]. simpl.
    destruct (nth_error _ (Z.to_nat k)) as [a|] eqn:E.
    + eexists. reflexivity.
    + apply nth_error_None in E. unfold len in *. lia.
Qed.

Lemma str_index_Raise (s : string) (x : Z) (e : exn) :
  str_index s x = Raise e -> e = IndexError.
Proof.
  unfold str_index, Py.index. cbv zeta.
  destruct (_ && _)%bool; [|intros H; now inversion H].
  destruct (nth_error _ _); simpl; intros H; now inversion H.
Qed.

Lemma mapM_Raise_In {A B} (f : A -> result B) (l : list A) (e : exn) :
  mapM f l = Raise e -> exists a, In a l /\ f a = Raise e.
Proof.
  induction l as [|a l IH]; simpl; [discriminate|].
  destruct (f a) as [b|e'] eqn:Ea; simpl.
  - destruct (mapM f l) as [bs|e'']; simpl; [discriminate|].
    intros H. inversion H; subst. destruct (IH eq_refl) as [a' [Hin Ha']].
    exists a'. split; [now right | assumption].
  - intros H. inversion H; subst. exists a. split; [now left | assumption].
Qed.

Lemma mapM_Ok_nth {A B} (f : A -> result B) (l : list A) (bs : list B) :
  mapM f l = Ok bs ->
  List.length bs = List.length l
  /\ forall i a, nth_error l i = Some a ->
                 exists b, nth_error bs i = Some b /\ f a = Ok b.
Proof.
  revert bs. induction l as [|a l IH]; intros bs; simpl.
  - intros H. inversion H. split; [reflexivity|].
    intros [|i] x Hx; discriminate.
  - destruct (f a) as [b|e] eqn:Ea; simpl; [|discriminate].
    destruct (mapM f l) as [bs'|e]; simpl; [|discriminate].
    intros H. inversion H. destruct (IH bs' eq_refl) as [Hlen Hnth].
    split; [simpl; now rewrite Hlen|].
    intros [|i] x Hx; simpl in *.
    + inversion Hx; subst. now exists b.
    + now apply Hnth.
Qed.

Lemma mapM_all_Ok {A B} (f : A -> result B) (l : list A) :
  Forall (fun a => exists b, f a = Ok b) l -> exists bs, mapM f l = Ok bs.
Proof.
  induction 1 as [|a l [b Hb] _ [bs Hbs]]; simpl.
  - now exists [].
  - exists (b :: bs). now rewrite Hb, Hbs.
Qed.

Lemma letter_of_injective (x y : Z) :
  (0 <= x <= 51)%Z -> (0 <= y <= 51)%Z -> letter_of x = letter_of y -> x = y.
Proof.
  intros Hx Hy H. unfold letter_of in H.
  apply (f_equal (fun s => match s with
                           | String c _ => nat_of_ascii c
                           | EmptyString => O
                           end)) in H.
  cbv beta iota in H.
  rewrite !nat_ascii_embedding in H
    by (destruct (Z.ltb_spec x 26); destruct (Z.ltb_spec y 26);
        cbv iota; lia).
  destruct (Z.ltb_spec x 26); destruct (Z.ltb_spec y 26);
    cbv iota in H; lia.
Qed.

Section DatasetFacts.
Context {Ch : Chemistry} {Co : Core} {Sp : Spglib} {Sd : SpglibData}.

(** X21: [get_symmetry_dataset] returns a dataset exactly when every
    Wyckoff number of spglib lies between -52 and 51; it then holds one
    letter per number, the letter of a number from 0 to 51 is the
    lower-case letter of that rank up to 25 and the upper-case letter of
    rank 26 less from there on, and among these numbers equal letters mean
    equal numbers; a number outside the range raises [IndexError], which
    [get_hall], [get_point_group] and [get_symmetrized_structure] raise in
    turn, the last before it reads symbol, number or operations. *)
Theorem wyckoff_letters_decode (self : SymmetryFinder) (raw : RawDataset) :
  spg_dataset (_transposed_latt self) (_positions self) (_numbers self)
    (_symprec self) (_angle_tol self) = raw ->
  ((exists ds, get_symmetry_dataset self = Ok ds)
   <-> Forall (fun x => (-52 <= x <= 51)%Z) (raw_wyckoffs raw))
  /\ (forall ds,
        get_symmetry_dataset self = Ok ds ->
        List.length (ds_wyckoffs ds) = List.length (raw_wyckoffs raw)
        /\ (forall i x,
              nth_error (raw_wyckoffs raw) i = Some x -> (0 <= x <= 51)%Z ->
              nth_error (ds_wyckoffs ds) i = Some (letter_of x))
        /\ (forall i j x y,
              nth_error (raw_wyckoffs raw) i = Some x -> (0 <= x <= 51)%Z ->
              nth_error (raw_wyckoffs raw) j = Some y -> (0 <= y <= 51)%Z ->
              (nth_error (ds_wyckoffs ds) i = nth_error (ds_wyckoffs ds) j
               <-> x = y)))
  /\ (forall e,
        get_symmetry_dataset self = Raise e ->
        e = IndexError
        /\ get_hall self = Raise IndexError
        /\ finder_get_point_group self = Raise IndexError
        /\ get_symmetrized_structure self = Raise IndexError).
Proof.
  intros Hraw. unfold get_symmetry_dataset. rewrite Hraw. cbv zeta.
  split; [|split].
  - split.
    + intros [ds H].
      destruct (mapM (str_index letters) (raw_wyckoffs raw)) as [ws|e]
        eqn:E; [|discriminate].
      apply Forall_forall. intros x Hx.
      apply In_nth_error in Hx. destruct Hx as [i Hi].
      destruct (mapM_Ok_nth _ _ _ E) as [_ Hnth].
      destruct (Hnth i x Hi) as [b [_ Hb]].
      assert (Hex : exists c, str_index letters x = Ok c) by now exists b.
      apply str_index_Ok_range in Hex. simpl in Hex. lia.
    + intros Hall.
      destruct (mapM_all_Ok (str_index letters) (raw_wyckoffs raw))
        as [ws Hws].
      { eapply Forall_impl; [|exact Hall]. intros x Hx. cbv beta in Hx.
        apply str_index_Ok_range. simpl. lia. }
      rewrite Hws. eexists. reflexivity.
  - intros ds H.
    destruct (mapM (str_index letters) (raw_wyckoffs raw)) as [ws|e]
      eqn:E; [|discriminate].
    cbn [Py.bind] in H. inversion H. cbn [ds_wyckoffs].
    destruct (mapM_Ok_nth _ _ _ E) as [Hlen Hnth].
    assert (Hletter : forall i x,
              nth_error (raw_wyckoffs raw) i = Some x -> (0 <= x <= 51)%Z ->
              nth_error ws i = Some (letter_of x)).
    { intros i x Hi Hx. destruct (Hnth i x Hi) as [b [Hb Hf]].
      rewrite str_index_letters in Hf by assumption. congruence. }
    split; [exact Hlen|]. split; [exact Hletter|].
    intros i j x y Hi Hx Hj Hy.
    rewrite (Hletter i x Hi Hx), (Hletter j y Hj Hy). split.
    + intros Heq. apply letter_of_injective; congruence.
    + now intros ->.
  - intros e H.
    destruct (mapM (str_index letters) (raw_wyckoffs raw)) as [ws|e']
      eqn:E; [discriminate|].
    cbn [Py.bind] in H. inversion H; subst e'.
    destruct (mapM_Raise_In _ _ _ E) as [x [_ Hx]].
    apply str_index_Raise in Hx. subst e.
    assert (Hds : get_symmetry_dataset self = Raise IndexError).
    { unfold get_symmetry_dataset. rewrite Hraw. cbv zeta.
      now rewrite E. }
    split; [reflexivity|].
    unfold get_hall, finder_get_point_group, get_symmetrized_structure.
    rewrite Hds. repeat split.
Qed.

(** X22: in the dataset the international and the Hall symbol are
    those of spglib with white space removed at both ends and nothing
    else: what is removed is blank, what is kept has no white space at
    either end; [get_hall] returns that Hall symbol, the point-group symbol
    [get_point_group] returns is trimmed the same way, and number,
    rotations, translations and equivalent atoms are passed on as spglib
    gave them. *)
Theorem dataset_symbols_stripped (self : SymmetryFinder) (raw : RawDataset)
    (ds : Dataset) :
  spg_dataset (_transposed_latt self) (_positions self) (_numbers self)
    (_symprec self) (_angle_tol self) = raw ->
  get_symmetry_dataset self = Ok ds ->
  (exists pre post,
     blank pre = true /\ blank post = true
     /\ raw_international raw
        = String.append pre (String.append (ds_international ds) post))
  /\ (exists pre post,
        blank pre = true /\ blank post = true
        /\ raw_hall raw
           = String.append pre (String.append (ds_hall ds) post))
  /\ trimmed (ds_international ds)
  /\ trimmed (ds_hall ds)
  /\ get_hall self = Ok (ds_hall ds)
  /\ (exists point_group,
        finder_get_point_group self = Ok point_group
        /\ trimmed point_group)
  /\ ds_number ds = raw_number raw
  /\ ds_rotations ds = raw_rotations raw
  /\ ds_translations ds = raw_translations raw
  /\ ds_equivalent_atoms ds = raw_equivalent_atoms raw.
Proof.
  intros Hraw Hds.
  assert (Hds' := Hds). unfold get_symmetry_dataset in Hds'.
  rewrite Hraw in Hds'. cbv zeta in Hds'.
  destruct (mapM (str_index letters) (raw_wyckoffs raw)) as [ws|e];
    [|discriminate].
  cbn [Py.bind] in Hds'. inversion Hds' as [Hfields]. clear Hds'.
  cbn [ds_international ds_hall ds_number ds_rotations ds_translations
         ds_equivalent_atoms].
  destruct (strip_spec (raw_international raw))
    as [pre [post [Hpre [Hpost [Hs Htrim]]]]].
  destruct (strip_spec (raw_hall raw))
    as [pre' [post' [Hpre' [Hpost' [Hs' Htrim']]]]].
  split; [now exists pre, post|]. split; [now exists pre', post'|].
  split; [exact Htrim|]. split; [exact Htrim'|].
  split.
  { unfold get_hall. rewrite Hds. cbn [Py.bind]. now rewrite <- Hfields. }
  split.
  { unfold finder_get_point_group. rewrite Hds. cbn [Py.bind].
    eexists. split; [reflexivity|].
    match goal with
    | |- trimmed (strip ?s) =>
        destruct (strip_spec s) as [_ [_ [_ [_ [_ Ht]]]]]; exact Ht
    end. }
  repeat split.
Qed.
End DatasetFacts.

(** ** The point group of a float array *)

Lemma np_int_IZR (z : Z) :
  (int64_min <= z <= int64_max)%Z -> np_int (IZR z) = z.
Proof.
  intros Hz. unfold np_int.
  assert (Ht : (if Rle_dec 0 (IZR z) then Int_part (IZR z)
                else (- Int_part (- IZR z))%Z) = z).
  { destruct (Rle_dec 0 (IZR z)) as [H|H].
    - symmetry. apply Int_part_spec. lra.
    - rewrite <- opp_IZR.
      rewrite <- (Int_part_spec (IZR (- z)) (- z)) by lra. lia. }
  rewrite Ht.
  destruct (Z.leb_spec int64_min z); [|lia].
  destruct (Z.leb_spec z int64_max); [reflexivity | lia].
Qed.

Lemma float_integer_int64 (z : Z) :
  float_integer z -> (int64_min <= z <= int64_max)%Z.
Proof. unfold float_integer, int64_min, int64_max. lia. Qed.

Lemma int_matrix_of_zmatrix (m : zmatrix) :
  Forall float_integer (entries m) ->
  int_matrix (matrix_of_zmatrix m) = m.
Proof.
  destruct m as [[[[a b] c] [[d e] f]] [[g h] i]]. intros Hall.
  unfold entries in Hall.
  repeat match goal with
         | H : Forall _ (_ :: _) |- _ => inversion H; subst; clear H
         end.
  unfold int_matrix, matrix_of_zmatrix.
  rewrite !np_int_IZR by now apply float_integer_int64.
  reflexivity.
Qed.

(** X23: the module function [get_point_group] gives for a [float64]
    array of integers below 2^31 in absolute value, which a [float64]
    holds exactly and which lie in the range of [np.int_], what it gives
    for the integer array: the conversion by [np.int_] returns every entry
    unchanged. *)
Theorem point_group_of_integral_floats {Sd : SpglibData}
    (l : list zmatrix) :
  Forall (fun m => Forall float_integer (entries m)) l ->
  get_point_group (Float64Array (map matrix_of_zmatrix l))
  = get_point_group (IntArray l).
Proof.
  intros Hall. unfold get_point_group. rewrite map_map. f_equal.
  rewrite <- (map_id l) at 2. apply map_ext_in. intros m Hm.
  apply int_matrix_of_zmatrix.
  rewrite Forall_forall in Hall. now apply Hall.
Qed.

Lemma point_group_of_integral_floats_witness :
  get_point_group (Sd := Sample.dataset_of [])
    (Float64Array [matrix_of_zmatrix Sample.quarter_turn])
  = spg_pointgroup (SpglibData := Sample.dataset_of [])
      [Sample.quarter_turn].
Proof.
  apply (point_group_of_integral_floats (Sd := Sample.dataset_of [])
           [Sample.quarter_turn]).
  repeat constructor; unfold float_integer; simpl; lia.
Defined.

Section Runs3.
#[local] Existing Instance Example.chemistry.
#[local] Existing Instance Example.core.

Lemma wyckoff_letters_decode_witness :
  exists ds,
    get_symmetry_dataset (Sd := Sample.dataset_of [0; 27; -1]%Z)
      (Example.fe_o_session "Pm-3m (221)") = Ok ds
    /\ nth_error (ds_wyckoffs ds) 1 = Some "B".
Proof.
  destruct (wyckoff_letters_decode
              (Sp := Example.spglib (Ok "Pm-3m (221)") 0 [])
              (Sd := Sample.dataset_of [0; 27; -1]%Z)
              (Example.fe_o_session "Pm-3m (221)") _ eq_refl)
    as [[_ Hok] [Hdec _]].
  destruct Hok as [ds Hds]; [repeat constructor; lia|].
  exists ds. split; [exact Hds|].
  destruct (Hdec ds Hds) as [_ [Hletter _]].
  apply (Hletter 1%nat 27%Z eq_refl). lia.
Defined.

Lemma dataset_symbols_stripped_witness :
  exists ds,
    get_symmetry_dataset (Sd := Sample.dataset_of [0]%Z)
      (Example.fe_o_session "Pm-3m (221)") = Ok ds
    /\ ds_hall ds = "-P 4 2 3"
    /\ trimmed (ds_hall ds)
    /\ get_hall (Sd := Sample.dataset_of [0]%Z)
         (Example.fe_o_session "Pm-3m (221)") = Ok (ds_hall ds).
Proof.
  eexists. split; [reflexivity|]. split; [reflexivity|].
  destruct (dataset_symbols_stripped
              (Sd := Sample.dataset_of [0]%Z)
              (Example.fe_o_session "Pm-3m (221)") _ _ eq_refl eq_refl)
    as [_ [_ [_ [Htrim [Hhall _]]]]].
  split; [exact Htrim | exact Hhall].
Defined.
End Runs3.

(** ** Runs *)

Ltac no_space_chars :=
  let c := fresh "c" in
  let H := fresh "H" in
  intros c H; simpl in H;
  repeat (apply orb_prop in H; destruct H as [H|H];
          [apply Ascii.eqb_eq in H; subst c; reflexivity|]);
  discriminate.

Lemma spacegroup_data_roundtrip_witness :
  get_spacegroup_symbol (Example.session_of_data "Pnma (62)") = Ok "Pnma"
  /\ get_spacegroup_number (Example.session_of_data "Pnma (62)") = Ok 62%Z.
Proof.
  apply (spacegroup_data_roundtrip (Example.session_of_data "Pnma (62)")
           "Pnma" 62); [discriminate | no_space_chars | reflexivity].
Defined.

Lemma spacegroup_number_nonnegative_witness :
  get_spacegroup_number (Example.session_of_data "P1 (-5)") = Ok 5%Z
  /\ (0 <= 5)%Z.
Proof.
  split; [reflexivity|].
  apply (spacegroup_number_nonnegative
           (Example.session_of_data "P1 (-5)") 5 eq_refl).
Defined.

Section Runs.
#[local] Existing Instance Example.chemistry.
#[local] Existing Instance Example.core.

Lemma blank_spacegroup_data_raises_witness :
  get_spacegroup_symbol (Example.session_of_data "   ") = Raise IndexError
  /\ get_lattice_type (Example.session_of_data "   ") = Raise IndexError.
Proof.
  destruct (blank_spacegroup_data_raises
              (Sp := Example.spglib (Ok "   ") 0 [])
              (Example.session_of_data "   ") eq_refl)
    as [Hsym [_ [_ [_ [Hlat _]]]]].
  split; assumption.
Defined.

Lemma digitless_token_raises_witness :
  get_spacegroup_symbol (Example.session_of_data "Pnma (x)") = Ok "Pnma"
  /\ get_spacegroup_number (Example.session_of_data "Pnma (x)")
     = Raise ValueError.
Proof.
  destruct (digitless_token_raises
              (Example.session_of_data "Pnma (x)") "Pnma" "(x)")
    as [Hsym [Hnum _]];
    [discriminate | no_space_chars | discriminate | no_space_chars
    | reflexivity | reflexivity |].
  split; assumption.
Defined.

Lemma symmetry_operations_null_vector_witness :
  get_symmetry_operations (Sp := Example.spglib (Ok "P1 (1)") 0 [])
    Sample.flat_session false = Raise LinAlgError
  /\ get_spacegroup (Sp := Example.spglib (Ok "P1 (1)") 0 [])
       Sample.flat_session = Raise LinAlgError.
Proof.
  assert (Hnull : null_vector (lattice (_structure Sample.flat_session)))
    by (exists 2%nat; split; [lia | reflexivity]).
  destruct (symmetry_operations_null_vector
              (Sp := Example.spglib (Ok "P1 (1)") 0 [])
              Sample.flat_session false Hnull) as [Hops Hsg].
  split; [exact Hops|]. apply (Hsg "P1" 1%Z); reflexivity.
Defined.

Lemma linalg_inv_eye : exists inv, linalg_inv (transpose eye) = Ok inv.
Proof.
  unfold linalg_inv, transpose, column, row, coord, eye.
  destruct (Req_EM_T _ 0) as [E|_]; [|eexists; reflexivity].
  exfalso. unfold det in E. lra.
Qed.

Lemma cartesian_operations_conjugate_witness :
  exists ops rot_cart,
    get_symmetry_operations
      (Sp := Sample.spglib_ops [Sample.quarter_turn] [vzero])
      (Example.fe_o_session "P4 (75)") true = Ok ops
    /\ nth_error ops 0 = Some (rot_cart, vec_mat vzero eye)
    /\ mat_mul rot_cart (transpose eye)
       = mat_mul (transpose eye) (matrix_of_zmatrix Sample.quarter_turn).
Proof.
  destruct linalg_inv_eye as [inv Hinv].
  set (Sp := Sample.spglib_ops [Sample.quarter_turn] [vzero]).
  set (self := Example.fe_o_session "P4 (75)").
  assert (Hops : get_symmetry_operations self true
                 = Ok [(mat_mul (transpose eye)
                          (mat_mul (matrix_of_zmatrix Sample.quarter_turn)
                             inv),
                        vec_mat vzero eye)]).
  { unfold get_symmetry_operations.
    change (_get_symmetry self) with ([Sample.quarter_turn], [vzero]).
    cbv beta iota.
    change (lattice (_structure self)) with eye.
    rewrite Hinv. reflexivity. }
  destruct (cartesian_operations_conjugate self _ Hops 0 _ _ eq_refl)
    as [rot [trans [Hr [_ [_ [Hc _]]]]]].
  injection Hr as <-.
  eexists. eexists. split; [exact Hops|]. split; [reflexivity | exact Hc].
Defined.

Lemma init_numbers_decode_witness :
  species_of (Example.fe_o_session "Pm-3m (221)") [1; 1; 2; 1]%Z
  = Ok ["Fe"; "Fe"; "O"; "Fe"].
Proof.
  destruct (init_numbers_decode
              (Sp := Example.spglib (Ok "Pm-3m (221)") 0 [])
              Example.fe_o (1 / 100000) 5
              (Example.fe_o_session "Pm-3m (221)") eq_refl) as [H _].
  exact H.
Defined.

Lemma standard_structures_outside_table_witness :
  get_conventional_standard_structure
    (Sp := Example.spglib (Ok "Pm-3m (231)") 4 [])
    (Example.fe_o_session "Pm-3m (231)") = Raise AttributeError
  /\ get_primitive_standard_structure
       (Sp := Example.spglib (Ok "Pm-3m (231)") 4 [])
       (Example.fe_o_session "Pm-3m (231)") = Raise AttributeError.
Proof.
  destruct (fe_o_refined "Pm-3m (231)") as [rsites Href].
  destruct (standard_structures_outside_table
              (Sp := Example.spglib (Ok "Pm-3m (231)") 4 [])
              (Example.fe_o_session "Pm-3m (231)") _ 231%Z Href eq_refl)
    as [_ H]; [lia | exact H].
Defined.
End Runs.

Lemma monoclinic_matrix_roundtrip_witness :
  Lattice.lengths_and_angles (monoclinic_matrix 3 4 5 (PI / 3))
  = ([3; 4; 5], [60; 90; 90]).
Proof.
  pose proof PI_RGT_0 as Hpi.
  destruct (monoclinic_matrix_roundtrip 3 4 5 (PI / 3)) as [_ H];
    try lra.
  apply H. field.
Defined.

Lemma rhombohedral_matrix_roundtrip_witness :
  exists m,
    rhombohedral_matrix 2 (PI / 3) = Ok m
    /\ Lattice.abc m = [2; 2; 2].
Proof.
  pose proof PI_RGT_0 as Hpi.
  destruct (rhombohedral_matrix_roundtrip 2 (PI / 3)) as [H _];
    try lra.
  destruct H as [m [Hm Hla]]; [lra|].
  exists m. split; [exact Hm|].
  exact (f_equal fst Hla).
Defined.

Section BranchRuns.
Context {Ch : Chemistry} {Co : Core} {Sp : Spglib}.

Lemma from_sites_map (f : PeriodicSite -> PeriodicSite) (m : matrix)
    (l : list PeriodicSite) :
  l <> [] -> (forall s, site_lattice (f s) = m) ->
  from_sites (map f l) = Ok (mkStructure m (map f l)).
Proof.
  intros Hne Hf. apply from_sites_on_lattice.
  - destruct l; [contradiction | discriminate].
  - apply Forall_forall. intros s Hs. apply in_map_iff in Hs.
    destruct Hs as [s' [<- _]]. apply Hf.
Qed.

Lemma conventional_hexagonal_Ok (struct : Structure) :
  sites struct <> [] ->
  sites (supercell struct ((1, -1, 0), (0, 1, -1), (1, 1, 1))%Z) <> [] ->
  exists r, conventional_hexagonal struct = Ok r.
Proof.
  intros Hne Hsuper. unfold conventional_hexagonal.
  destruct (_ && _ && _)%bool; cbv beta iota zeta;
    match goal with
    | |- context [if ?b then _ else _] => destruct b
    end;
    cbv beta iota zeta; rewrite place_sites_total; cbn [Py.bind];
    eexists; apply from_sites_map;
    first [assumption
          | intros s; unfold PeriodicSite_new; cbn [site_lattice];
            reflexivity].
Qed.

Lemma conventional_tetragonal_Ok (struct : Structure) :
  sites struct <> [] -> exists r, conventional_tetragonal struct = Ok r.
Proof.
  intros Hne. unfold conventional_tetragonal. cbv zeta.
  destruct (Rltb _ tol); cbv beta iota zeta; rewrite place_sites_total;
    cbn [Py.bind]; eexists; apply from_sites_map;
    first [assumption
          | intros s; unfold PeriodicSite_new; cbn [site_lattice];
            reflexivity].
Qed.

Lemma primitive_standard_structure_Ok (self : SymmetryFinder)
    (conv : Structure) (symbol : string)
    (lattice_type system : option string) :
  get_conventional_standard_structure self = Ok conv ->
  get_spacegroup_symbol self = Ok symbol ->
  get_lattice_type self = Ok lattice_type ->
  get_crystal_system self = Ok system ->
  Py.contains "P"%char symbol = false ->
  lattice_type <> Some "hexagonal" ->
  lattice_type <> Some "rhombohedral" ->
  exists prim, get_primitive_standard_structure self = Ok prim.
Proof.
  intros Hconv Hsym Hlat Hsys HP Hhex Hrh.
  unfold get_primitive_standard_structure.
  rewrite Hconv, Hlat, Hsym. cbn [Py.bind].
  rewrite HP, (opt_string_eqb_neq _ _ Hhex), (opt_string_eqb_neq _ _ Hrh).
  cbn [orb].
  assert (Htr : exists T, centring_transf self symbol = Ok T).
  { unfold centring_transf. rewrite Hsys. cbn [Py.bind].
    repeat match goal with
           | |- context [if ?b then _ else _] => destruct b
           end; eexists; reflexivity. }
  destruct Htr as [T Htr]. rewrite Htr. cbn [Py.bind].
  destruct (unique_sites_on_lattice (mat_mul T (lattice conv))
              (fun s =>
                 latt <- Lattice_new (Some (mat_mul T (lattice conv))) ;;
                 Ok (PeriodicSite_new (species_and_occu s) (coords s)
                       latt true true (properties s)))
              (sites conv)
              ltac:(intros s; eexists; split; reflexivity)
              [] ltac:(constructor))
    as [new_sites [Hf [Hon Hne]]].
  unfold unique_sites. rewrite Hf. cbn [Py.bind].
  rewrite (from_sites_on_lattice (mat_mul T (lattice conv)) new_sites).
  - eexists. reflexivity.
  - apply Hne. right. eapply conventional_sites_nonempty. eassumption.
  - assumption.
Qed.
End BranchRuns.

Section Runs2.
#[local] Existing Instance Example.chemistry.
#[local] Existing Instance Example.core.

Lemma conventional_hexagonal_cell_witness :
  exists r a c,
    conventional_hexagonal Example.fe_o = Ok r
    /\ lattice r = hexagonal_matrix a c
    /\ List.length (sites r) = 4%nat.
Proof.
  destruct (conventional_hexagonal_Ok Example.fe_o) as [r Hr];
    [discriminate | discriminate |].
  destruct (conventional_hexagonal_cell Example.fe_o r Hr)
    as [working [l0 [l1 [l2 [a [c [Hw [_ [_ [_ [Hlat [Hs _]]]]]]]]]]]].
  exists r, a, c. split; [exact Hr|]. split; [exact Hlat|].
  rewrite Hs, length_map.
  destruct Hw as [[_ ->] | [_ ->]]; reflexivity.
Defined.

Lemma conventional_orthorhombic_relabels_witness :
  exists r s0 s1 s2,
    conventional_orthorhombic (Example.dup_session "Pmmm (47)") Example.dup
    = Ok r
    /\ Permutation [s0; s1; s2] [0; 1; 2]%nat
    /\ lattice r
       = diag (at3 (Lattice.abc eye) s0) (at3 (Lattice.abc eye) s1)
           (at3 (Lattice.abc eye) s2).
Proof.
  destruct (conventional_orthorhombic_Ok
              (Example.dup_session "Pmmm (47)") Example.dup "Pmmm"
              eq_refl ltac:(discriminate)) as [transf [new_matrix Hr]].
  destruct (conventional_orthorhombic_relabels
              (Example.dup_session "Pmmm (47)") Example.dup _ "Pmmm"
              eq_refl Hr)
    as [s0 [s1 [s2 [Hperm [_ [_ [_ [Hlat _]]]]]]]].
  eexists. exists s0, s1, s2. split; [exact Hr|].
  split; [exact Hperm | exact Hlat].
Defined.

Lemma conventional_tetragonal_unique_axis_witness :
  exists r u0 u2,
    conventional_tetragonal Example.bcc = Ok r
    /\ lattice r
       = diag (at3 (Lattice.abc eye) u0) (at3 (Lattice.abc eye) u0)
           (at3 (Lattice.abc eye) u2).
Proof.
  destruct (conventional_tetragonal_Ok Example.bcc) as [r Hr];
    [discriminate|].
  destruct (conventional_tetragonal_unique_axis Example.bcc r Hr)
    as [s0 [s1 [s2 [u0 [u2 [_ [_ [_ [Hlat _]]]]]]]]].
  exists r, u0, u2. split; [exact Hr | exact Hlat].
Defined.

Lemma primitive_standard_structure_no_images_witness :
  exists prim,
    get_primitive_standard_structure
      (Sp := Example.spglib (Ok "Im-3m (229)") 2 [])
      (Example.bcc_session "Im-3m (229)") = Ok prim
    /\ no_earlier_image (sites prim).
Proof.
  destruct bcc_conventional as [conv Hconv].
  destruct (primitive_standard_structure_Ok
              (Sp := Example.spglib (Ok "Im-3m (229)") 2 [])
              (Example.bcc_session "Im-3m (229)") conv "Im-3m"
              (Some "cubic") (Some "cubic") Hconv eq_refl eq_refl eq_refl
              eq_refl ltac:(discriminate) ltac:(discriminate))
    as [prim Hprim].
  destruct (primitive_standard_structure_no_images
              (Sp := Example.spglib (Ok "Im-3m (229)") 2 [])
              (Example.bcc_session "Im-3m (229)") "Im-3m" (Some "cubic")
              prim eq_refl eq_refl eq_refl ltac:(discriminate) Hprim)
    as [Hno _].
  exists prim. split; [exact Hprim | exact Hno].
Defined.

Lemma refined_structure_shape_witness :
  exists r,
    get_refined_structure (Sp := Example.spglib (Ok "Pm-3m (221)") 4 [])
      (Example.fe_o_session "Pm-3m (221)") = Ok r
    /\ (List.length (sites r) <= 16)%nat.
Proof.
  destruct (fe_o_refined "Pm-3m (221)") as [rsites Href].
  destruct (refined_structure_shape
              (Sp := Example.spglib (Ok "Pm-3m (221)") 4 [])
              Example.fe_o (1 / 100000) 5
              (Example.fe_o_session "Pm-3m (221)") _ eq_refl Href)
    as [Hlen _].
  eexists. split; [exact Href | exact Hlen].
Defined.
End Runs2.
